(** * miniDB: the [Database] class of [miniDB/database.py]

    A shallow embedding of the database layer (table registry, persisted
    files, meta tables, table locks, index registry, join dispatch) and
    the properties of its lock protocol, its load/save discipline, its
    free-position stack and its index construction.

    Python objects are mutated in place; here every method is a
    computation in a state-and-exception monad, so that what a raised
    exception leaves behind in memory and on disk is explicit. *)

From Stdlib Require Import ZArith String Ascii DecimalString.
From stdpp Require Import gmap strings list fin_maps.

Open Scope string_scope.

(** ** Python strings *)

Module Py.

(** [s.split(sep)] for a one-character separator: never returns the
    empty list, [''.split(',')] is [['']]. *)
Fixpoint split_aux (sep : ascii) (acc : string) (s : string) : list string :=
  match s with
  | EmptyString => [String.rev acc]
  | String c s' =>
      if Ascii.eqb c sep then String.rev acc :: split_aux sep EmptyString s'
      else split_aux sep (String c acc) s'
  end.

Definition split (sep : ascii) (s : string) : list string :=
  split_aux sep EmptyString s.

(** A Python string is represented by its UTF-8 encoding. [str.strip()]
    removes the characters that [str.isspace()] accepts: those of one
    byte, U+0009..U+000D, U+001C..U+001F and U+0020, and U+0085, U+00A0,
    U+1680, U+2000..U+200A, U+2028, U+2029, U+202F, U+205F and U+3000,
    which take two or three bytes. *)
Definition is_space (c : ascii) : bool :=
  let n := nat_of_ascii c in
  (n =? 32)%nat || ((9 <=? n)%nat && (n <=? 13)%nat) || ((28 <=? n)%nat && (n <=? 31)%nat).

Definition bytes (l : list nat) : string :=
  fold_right (λ n s, String (ascii_of_nat n) s) EmptyString l.

Definition wide_spaces : list string :=
  bytes <$> [[194; 133]; [194; 160]; [225; 154; 128];
             [226; 128; 128]; [226; 128; 129]; [226; 128; 130]; [226; 128; 131];
             [226; 128; 132]; [226; 128; 133]; [226; 128; 134]; [226; 128; 135];
             [226; 128; 136]; [226; 128; 137]; [226; 128; 138];
             [226; 128; 168]; [226; 128; 169]; [226; 128; 175]; [226; 129; 159];
             [227; 128; 128]].

(** the rest of a string after a prefix *)
Fixpoint without_prefix (p s : string) : option string :=
  match p, s with
  | EmptyString, _ => Some s
  | String a p', String b s' => if Ascii.eqb a b then without_prefix p' s' else None
  | String _ _, EmptyString => None
  end.

(** the leading white space is dropped character by character; every
    round takes at least one byte, so the length of the string is fuel
    enough *)
Fixpoint lstrip_spaces (wide : list string) (fuel : nat) (s : string) : string :=
  match fuel with
  | O => s
  | S fuel' =>
      match s with
      | EmptyString => EmptyString
      | String c s' =>
          if is_space c then lstrip_spaces wide fuel' s'
          else match head (omap (λ w, without_prefix w s) wide) with
               | Some rest => lstrip_spaces wide fuel' rest
               | None => s
               end
      end
  end.

Definition lstrip (s : string) : string :=
  lstrip_spaces wide_spaces (String.length s) s.

(** the trailing white space, read backwards *)
Definition rstrip (s : string) : string :=
  String.rev (lstrip_spaces (String.rev <$> wide_spaces) (String.length s) (String.rev s)).

Definition strip (s : string) : string := rstrip (lstrip s).

(** [s.replace(' ', '')] *)
Fixpoint remove_char (c : ascii) (s : string) : string :=
  match s with
  | EmptyString => EmptyString
  | String d s' => if Ascii.eqb c d then remove_char c s' else String d (remove_char c s')
  end.

(** [enumerate(l)] *)
Fixpoint enumerate_from {A} (k : nat) (l : list A) : list (nat * A) :=
  match l with
  | [] => []
  | x :: l' => (k, x) :: enumerate_from (S k) l'
  end.

Definition enumerate {A} (l : list A) : list (nat * A) := enumerate_from 0 l.

(** [name[:4] == 'meta'] *)
Definition is_meta (name : string) : bool := String.prefix "meta" name.

(** [str(z)] and [int(s)] on decimal numerals *)
Definition str_of_int (z : Z) : string := NilZero.string_of_int (Z.to_int z).
Definition int_of_str (s : string) : option Z := Z.of_int <$> NilZero.int_of_string s.

End Py.

(** ** Values, exceptions and the monad *)

(** The Python values that rows hold: [None], integers, strings and the
    lists of row positions that [meta_insert_stack] keeps. *)
Inductive value :=
| VNone
| VInt (z : Z)
| VStr (s : string)
| VList (l : list nat).

#[global] Instance value_eq_dec : EqDecision value.
Proof. solve_decision. Defined.

Definition row := list value.

(** [bool(v)] *)
Definition truthy (v : value) : bool :=
  match v with
  | VNone | VInt 0 | VStr "" | VList [] => false
  | _ => true
  end.

(** The exceptions the database layer raises itself (one constructor per
    message) and the built-in ones it lets escape. *)
Inductive exn :=
| Locked (owner : value)          (* 'Table "T" is locked by (the) process with pid=owner' *)
| NotInDatabase (name : string)   (* 'Table "T" is not in database' *)
| IndexUnavailable                (* 'Index-nested-loop join cannot be executed. Use inner join instead.' *)
| TableDoesNotExist (name : string)
| IndexTypeNotSupported (ty : string)
| NoKeyOrUniqueColumn             (* 'Table must have a primary key or a unique column.' *)
| NotKeyOrUniqueColumn            (* 'The specified column is not a primary key or a unique column.' *)
| IndexNameExists
| ColumnAlreadyIndexed
| AttributeExists (name : string) (* table_from_object *)
| NotImplementedError
| AttributeError
| KeyError (key : string)
| IndexError
| TypeError
| ValueError
| NameError (name : string)
| UnboundLocalError (name : string)
| FileNotFoundError (file : string)
| RecursionError
| ConstraintViolation
| SchemaMismatch.

#[global] Instance exn_eq_dec : EqDecision exn.
Proof. solve_decision. Defined.

Inductive result (A : Type) :=
| Ok (a : A)
| Raise (e : exn).
Arguments Ok {A} a.
Arguments Raise {A} e.

(** A method running on a state [S]: it returns or raises, and in both
    cases leaves a state behind. *)
Definition M (S A : Type) : Type := S → result A * S.

Definition ret {S A} (a : A) : M S A := λ s, (Ok a, s).
Definition raise {S A} (e : exn) : M S A := λ s, (Raise e, s).
Definition bind {S A B} (m : M S A) (k : A → M S B) : M S B :=
  λ s, match m s with
       | (Ok a, s') => k a s'
       | (Raise e, s') => (Raise e, s')
       end.
Definition get {S} : M S S := λ s, (Ok s, s).
Definition put {S} (s : S) : M S unit := λ _, (Ok tt, s).
Definition modify {S} (f : S → S) : M S unit := λ s, (Ok tt, f s).

(** [try: m except Exception as e: h e] *)
Definition try_except {S A} (m : M S A) (h : exn → M S A) : M S A :=
  λ s, match m s with
       | (Ok a, s') => (Ok a, s')
       | (Raise e, s') => h e s'
       end.

(** a pure step that may raise *)
Definition lift {S A} (r : result A) : M S A := λ s, (r, s).

Definition from_option {S A} (e : exn) (o : option A) : M S A :=
  match o with Some a => ret a | None => raise e end.

Declare Scope py_scope.
Delimit Scope py_scope with py.
Notation "'let!' x ':=' m 'in' k" := (bind m (λ x, k))
  (at level 10, x pattern, m at level 100, k at level 200) : py_scope.
Notation "m ';;' k" := (bind m (λ _, k))
  (at level 100, k at level 200, right associativity) : py_scope.
Open Scope py_scope.

(** [for x in xs: body x] *)
Fixpoint for_each {S A} (xs : list A) (body : A → M S unit) : M S unit :=
  match xs with
  | [] => ret tt
  | x :: xs' => body x ;; for_each xs' body
  end.

Definition when {S} (b : bool) (m : M S unit) : M S unit :=
  if b then m else ret tt.

(** ** Collaborators outside [database.py]

    [btree.py], [extendible_hashing.py] and [joins.py] are imported by
    [database.py] but are not part of it; the database layer only
    constructs index objects, feeds them (key, row position) pairs, stores
    them, and hands them to the join and select code. They are taken as an
    interface. *)

(** Modelled from the spec: the index structures ([Btree],
    [ExtendibleHashing]) are missing. Both are insert-only maps from a
    column's values to row positions: an index holds (key, row-position)
    pairs, a new one holds none, inserting adds the pair and loses none,
    and a lookup yields positions held for an exact key match. *)
Class IndexStructures := {
  index : Type;
  Btree : nat → index;                        (* Btree(b) *)
  ExtendibleHashing : nat → nat → index;      (* ExtendibleHashing(depth, capacity) *)
  Btree_insert : value → nat → index → index; (* index.insert(key, idx) *)
  EH_add : value → nat → index → index;       (* index._add(key, idx) *)
  index_find : value → index → list nat;      (* point lookup *)
  index_entries : index → list (value * nat);
  Btree_entries : ∀ b, index_entries (Btree b) = [];
  ExtendibleHashing_entries : ∀ d k, index_entries (ExtendibleHashing d k) = [];
  Btree_insert_entries : ∀ key idx i,
    index_entries (Btree_insert key idx i) ≡ₚ (key, idx) :: index_entries i;
  EH_add_entries : ∀ key idx i,
    index_entries (EH_add key idx i) ≡ₚ (key, idx) :: index_entries i;
  index_find_entries : ∀ key idx i,
    idx ∈ index_find key i → (key, idx) ∈ index_entries i;
}.

(** ** Tables *)

(** the closed set of column types *)
Inductive coltype := TStr | TInt | TList.

#[global] Instance coltype_eq_dec : EqDecision coltype.
Proof. solve_decision. Defined.

(** [eval] on the text of a column type. The tables here hold the three
    types [str], [int] and [list]; a text that names nothing in Python, as
    [integer], is a [NameError]. The texts of other expressions that
    Python evaluates ([float], [bool], ...) give types that the values of
    this development do not have: they are outside it, and nothing is
    stated below about a cast or a table of such a type. *)
Definition eval_type (s : string) : result coltype :=
  if decide (s = "str") then Ok TStr
  else if decide (s = "int") then Ok TInt
  else if decide (s = "list") then Ok TList
  else Raise (NameError s).

Record Table := mkTable {
  _name : string;
  column_names : list string;
  column_types : list coltype;
  pk : option string;
  pk_idx : option nat;
  unique_columns : option (list string);
  data : list row;
}.

#[global] Instance Table_eq_dec : EqDecision Table.
Proof. solve_decision. Defined.

Definition set_data (d : list row) (t : Table) : Table :=
  mkTable (_name t) (column_names t) (column_types t) (pk t) (pk_idx t) (unique_columns t) d.

Definition set_name (n : string) (t : Table) : Table :=
  mkTable n (column_names t) (column_types t) (pk t) (pk_idx t) (unique_columns t) (data t).

Definition set_column_types (tys : list coltype) (t : Table) : Table :=
  mkTable (_name t) (column_names t) tys (pk t) (pk_idx t) (unique_columns t) (data t).

(** A condition as the condition collaborator delivers it:
    [column OP literal]. *)
Inductive cmp_op := OpLt | OpLe | OpEq | OpGe | OpGt.

Record condition := Cond {
  cond_column : string;
  cond_op : cmp_op;
  cond_value : value;
}.

(** [f'table_name={name}'] and the like *)
Definition eq_cond (column : string) (v : string) : condition :=
  Cond column OpEq (VStr v).

Definition value_ltb (a b : value) : bool :=
  match a, b with
  | VInt x, VInt y => (x <? y)%Z
  | VStr x, VStr y => String.ltb x y
  | _, _ => false
  end.

Definition value_eqb (a b : value) : bool := bool_decide (a = b).

(** An empty value satisfies no comparison. *)
Definition get_op (op : cmp_op) (a b : value) : bool :=
  match a, b with
  | VNone, _ | _, VNone => false
  | _, _ =>
      match op with
      | OpLt => value_ltb a b
      | OpLe => value_ltb a b || value_eqb a b
      | OpEq => value_eqb a b
      | OpGe => value_ltb b a || value_eqb a b
      | OpGt => value_ltb b a
      end
  end.

Definition is_tombstone (r : row) : bool := forallb (λ v, value_eqb v VNone) r.

Definition tombstone (width : nat) : row := replicate width VNone.

(** [column_names.index(c)] *)
Definition column_index (t : Table) (c : string) : option nat :=
  fst <$> list_find (λ x, x = c) (column_names t).

(** the value of a row in a column; a row shorter than the schema reads
    as empty *)
Definition cell (i : nat) (r : row) : value := default VNone (r !! i).

(** The closed conversion table: the value converted to the column type,
    or no conversion. Empty stays empty. *)
Definition convert (ty : coltype) (v : value) : option value :=
  match v, ty with
  | VNone, _ => Some VNone
  | VInt z, TInt => Some (VInt z)
  | VInt z, TStr => Some (VStr (Py.str_of_int z))
  | VStr s, TStr => Some (VStr s)
  | VStr s, TInt => VInt <$> Py.int_of_str s
  | VList l, TList => Some (VList l)
  | _, _ => None
  end.

Fixpoint convert_row (tys : list coltype) (r : row) : option row :=
  match tys, r with
  | [], [] => Some []
  | ty :: tys', v :: r' =>
      match convert ty v, convert_row tys' r' with
      | Some v', Some r'' => Some (v' :: r'')
      | _, _ => None
      end
  | _, _ => None
  end.

Fixpoint eval_types (tys : list string) : result (list coltype) :=
  match tys with
  | [] => Ok []
  | s :: tys' =>
      match eval_type s, eval_types tys' with
      | Ok ty, Ok r => Ok (ty :: r)
      | Raise e, _ | _, Raise e => Raise e
      end
  end.

(** Modelled from the spec: the [Table] class of [table.py] is missing.
    A table is created empty from its name, its column names and types,
    its optional primary key and its optional unique columns. *)
Definition Table_init (name : string) (names types : list string)
    (primary_key : option string) (unique : option (list string)) : result Table :=
  match eval_types types with
  | Raise e => Raise e
  | Ok tys =>
      if negb (length names =? length tys)%nat then Raise SchemaMismatch
      else
        match primary_key with
        | None => Ok (mkTable name names tys None None unique [])
        | Some k =>
            match fst <$> list_find (λ x, x = k) names with
            | Some i => Ok (mkTable name names tys (Some k) (Some i) unique [])
            | None => Raise ValueError
            end
        end
  end.

Section TableMethods.
Context `{IndexStructures}.

(** Modelled from the spec: [Table.column_by_name] is missing. The
    values of one column, by row position. *)
Definition column_by_name (c : string) (t : Table) : result (list value) :=
  match column_index t c with
  | Some i => Ok (cell i <$> data t)
  | None => Raise ValueError
  end.

(** Does a non-tombstone row other than the one at [skip] hold [v] in
    column [i]? *)
Definition duplicates (i : nat) (v : value) (skip : option nat) (d : list row) : bool :=
  existsb (λ pr : nat * row,
             negb (bool_decide (skip = Some pr.1))
             && negb (is_tombstone pr.2)
             && value_eqb (cell i pr.2) v)
          (Py.enumerate d).

(** the columns on which values must stay unique: the primary key and
    the declared unique columns *)
Definition constrained_columns (t : Table) : list nat :=
  option_list (pk_idx t)
  ++ omap (column_index t) (default [] (unique_columns t)).

Definition violates (t : Table) (r : row) (skip : option nat) : bool :=
  existsb (λ i, duplicates i (cell i r) skip (data t)) (constrained_columns t).

(** Modelled from the spec: [Table._insert] is missing. The row is
    checked against the column count and the column types, then against
    the primary key and the unique columns; it overwrites the position on
    top of the free-position stack if there is one, and is appended
    otherwise. A rejected row changes nothing. The top of the stack is
    its last entry, the one [insert_into] drops afterwards. *)
Definition _insert (r : row) (insert_stack : list nat) : M Table unit :=
  λ t,
    match convert_row (column_types t) r with
    | None => (Raise SchemaMismatch, t)
    | Some r' =>
        if violates t r' (last insert_stack) then (Raise ConstraintViolation, t)
        else
          match last insert_stack with
          | Some p =>
              if (p <? length (data t))%nat
              then (Ok tt, set_data (<[p := r']> (data t)) t)
              else (Raise IndexError, t)
          | None => (Ok tt, set_data (data t ++ [r']) t)
          end
    end.

(** the positions of the rows that satisfy a test, ascending *)
Definition positions (P : row → bool) (d : list row) : list nat :=
  omap (λ pr : nat * row, if P pr.2 then Some pr.1 else None) (Py.enumerate d).

(** a non-tombstone row whose value in column [i] satisfies the
    comparison *)
Definition satisfies (i : nat) (c : condition) (r : row) : bool :=
  negb (is_tombstone r) && get_op (cond_op c) (cell i r) (cond_value c).

Definition matching_positions (t : Table) (c : condition) : result (list nat) :=
  match column_index t (cond_column c) with
  | Some i => Ok (positions (satisfies i c) (data t))
  | None => Raise ValueError
  end.

(** Modelled from the spec: [Table._delete_where] is missing. Every
    matching row of a record-store table is overwritten with a tombstone
    and its position is returned; an internal (meta) table keeps no
    tombstones (a lock record is removed on release), so its matching
    rows are removed. *)
Definition _delete_where (c : condition) : M Table (list nat) :=
  λ t,
    match matching_positions t c with
    | Raise e => (Raise e, t)
    | Ok ps =>
        if Py.is_meta (_name t)
        then (Ok ps, set_data (omap (λ pr : nat * row,
                                      if bool_decide (pr.1 ∈ ps) then None else Some pr.2)
                                    (Py.enumerate (data t))) t)
        else (Ok ps, set_data (foldr (λ p d, <[p := tombstone (length (column_names t))]> d)
                                     (data t) ps) t)
    end.

(** Modelled from the spec: [Table._update_rows] is missing. Every
    matching row gets the value written into the column, in row order;
    on a primary-key or unique column the new value is checked against
    the other rows first, and the first violation stops the loop with the
    earlier rows already written. *)
Fixpoint update_loop (ci : nat) (v : value) (checked : bool)
    (ps : list nat) (d : list row) : result unit * list row :=
  match ps with
  | [] => (Ok tt, d)
  | p :: ps' =>
      if checked && duplicates ci v (Some p) d then (Raise ConstraintViolation, d)
      else update_loop ci v checked ps'
             (alter (λ r, <[ci := v]> r) p d)
  end.

Definition _update_rows (set_value : value) (set_column : string) (c : condition)
    : M Table unit :=
  λ t,
    match column_index t set_column, matching_positions t c with
    | None, _ => (Raise ValueError, t)
    | _, Raise e => (Raise e, t)
    | Some ci, Ok ps =>
        match convert (default TStr (column_types t !! ci)) set_value with
        | None => (Raise SchemaMismatch, t)
        | Some v =>
            let '(r, d) := update_loop ci v (bool_decide (ci ∈ constrained_columns t))
                             ps (data t) in
            (r, set_data d t)
        end
    end.

(** Modelled from the spec: [Table._cast_column] is missing. Every
    non-empty value in the column is converted to the type; if a single
    value cannot be converted nothing is. *)
Definition _cast_column (column_name : string) (ty : coltype) : M Table unit :=
  λ t,
    match column_index t column_name with
    | None => (Raise ValueError, t)
    | Some ci =>
        match mapM (λ r : row, v ← convert ty (cell ci r); Some (<[ci := v]> r)) (data t) with
        | None => (Raise SchemaMismatch, t)
        | Some d => (Ok tt, set_column_types (<[ci := ty]> (column_types t)) (set_data d t))
        end
    end.

(** the row that must come first goes first; equal keys keep their order *)
Fixpoint insert_sorted (after : value → value → bool) (ci : nat) (r : row)
    (rs : list row) : list row :=
  match rs with
  | [] => [r]
  | r' :: rs' =>
      if after (cell ci r) (cell ci r') then r' :: insert_sorted after ci r rs'
      else r :: rs
  end.

Definition sort_rows (desc : bool) (ci : nat) (rs : list row) : list row :=
  foldr (insert_sorted (λ a b, if desc then value_ltb a b else value_ltb b a) ci) [] rs.

(** ['*'] or a comma-separated list of column names *)
Definition selected_columns (columns : string) (t : Table) : result (list nat) :=
  if decide (columns = "*") then Ok (seq 0 (length (column_names t)))
  else match mapM (column_index t) (Py.split "," columns) with
       | Some r => Ok r
       | None => Raise ValueError
       end.

(** the index handed in for a column, B-trees first *)
Definition index_hint (btree_dic hash_dic : option (gmap string index))
    (column : string) : option index :=
  match btree_dic ≫= (.!! column) with
  | Some i => Some i
  | None => hash_dic ≫= (.!! column)
  end.

(** the rows a select starts from: the non-tombstone rows that satisfy
    the condition, or, for an equality on an indexed column, the rows at
    the positions the index yields *)
Definition candidate_rows (c : option condition)
    (btree_dic hash_dic : option (gmap string index)) (t : Table) : result (list row) :=
  match c with
  | None => Ok (filter (λ r, is_tombstone r = false) (data t))
  | Some cnd =>
      match cond_op cnd, index_hint btree_dic hash_dic (cond_column cnd) with
      | OpEq, Some i =>
          match mapM (λ p, data t !! p) (index_find (cond_value cnd) i) with
          | Some rs => Ok rs
          | None => Raise IndexError
          end
      | _, _ =>
          match matching_positions t cnd with
          | Ok ps => Ok (omap (λ p, data t !! p) ps)
          | Raise e => Raise e
          end
      end
  end.

(** Modelled from the spec: [Table._select_where] is missing. The rows
    that satisfy the condition are projected on the columns, deduplicated
    if asked, ordered by a column of the result if asked (stable), and
    truncated to the limit; the result is a new table. *)
Definition _select_where (columns : string) (c : option condition) (distinct : bool)
    (order_by : option string) (desc : bool) (limit : option nat)
    (btree_dic hash_dic : option (gmap string index)) (t : Table) : result Table :=
  match selected_columns columns t, candidate_rows c btree_dic hash_dic t with
  | Raise e, _ | _, Raise e => Raise e
  | Ok cols, Ok rs =>
      let names := (λ i, default "" (column_names t !! i)) <$> cols in
      let types := (λ i, default TStr (column_types t !! i)) <$> cols in
      let projected := (λ r, (λ i, cell i r) <$> cols) <$> rs in
      let deduplicated := if distinct then remove_dups projected else projected in
      let ordered :=
        match order_by with
        | None => Ok deduplicated
        | Some c =>
            match fst <$> list_find (λ x, x = c) names with
            | Some ci => Ok (sort_rows desc ci deduplicated)
            | None => Raise ValueError
            end
        end in
      match ordered with
      | Raise e => Raise e
      | Ok rows =>
          Ok (mkTable (_name t) names types None None None
                (match limit with Some n => take n rows | None => rows end))
      end
  end.

(** Modelled from the spec: [Table._sort] is missing. It produces the
    rows reordered by the column and leaves the row positions of the
    table as they are. *)
Definition _sort (column_name : string) (asc : bool) : M Table (list row) :=
  λ t,
    match column_index t column_name with
    | Some ci => (Ok (sort_rows (negb asc) ci (data t)), t)
    | None => (Raise ValueError, t)
    end.

End TableMethods.

(** The join algorithms of [table.py] and [joins.py], which [join] only
    dispatches to: each takes the two tables and the textual condition and
    yields the joined table or raises. *)
Class JoinAlgorithms `{IndexStructures} := {
  _inner_join : Table → Table → string → result Table;
  _left_join : Table → Table → string → result Table;
  _right_join : Table → Table → string → result Table;
  _full_join : Table → Table → string → result Table;
  (* Inlj(condition, left, right, index, side).join() *)
  Inlj_join : string → Table → Table → index → string → result Table;
  (* Smj(condition, left, right).join() *)
  Smj_join : string → Table → Table → result Table;
}.

(** ** The database *)

Section Database.
Context `{JoinAlgorithms}.

(** A [Database] object of one process together with the directory it
    persists to: [tables] is [self.tables]; [attrs] the attribute names
    added with [setattr]; [files] the pickled tables
    [{savedir}/{name}.pkl] by name; [index_files] the pickled indexes
    [{savedir}/indexes/meta_{index_name}_index.pkl] by index name;
    [getpid] is [os.getpid()]. Table and index names are taken to be
    file-name stems: a name that holds a path separator would be a path
    into another directory, the directory of the index files for one, and
    is outside this model. Of the statistics only what
    [calculate_tables_statistics] can raise is kept: [self.stats] and its
    file, which nothing else reads, are left out with the printing and the
    CSV export. *)
Record Database := mkDatabase {
  getpid : Z;
  tables : gmap string Table;
  attrs : gset string;
  files : gmap string Table;
  index_files : gmap string index;
}.

Definition set_tables (f : gmap string Table → gmap string Table) (s : Database) :=
  mkDatabase (getpid s) (f (tables s)) (attrs s) (files s) (index_files s).
Definition set_attrs (f : gset string → gset string) (s : Database) :=
  mkDatabase (getpid s) (tables s) (f (attrs s)) (files s) (index_files s).
Definition set_files (f : gmap string Table → gmap string Table) (s : Database) :=
  mkDatabase (getpid s) (tables s) (attrs s) (f (files s)) (index_files s).
Definition set_index_files (f : gmap string index → gmap string index) (s : Database) :=
  mkDatabase (getpid s) (tables s) (attrs s) (files s) (f (index_files s)).

Definition DB (A : Type) : Type := M Database A.

(** [self.tables[name]] *)
Definition table (name : string) : DB Table :=
  λ s, match tables s !! name with
       | Some t => (Ok t, s)
       | None => (Raise (KeyError name), s)
       end.

(** [self.tables[name].method(...)] for a method that mutates the table
    object in place *)
Definition on_table {A} (name : string) (m : M Table A) : DB A :=
  λ s, match tables s !! name with
       | Some t => let '(r, t') := m t in (r, set_tables (<[name := t']>) s)
       | None => (Raise (KeyError name), s)
       end.

(** what [dir(self)] holds before any [setattr]: the instance attributes,
    the methods of the class and the names every object has (as of
    Python 3.11) *)
Definition class_attrs : list string :=
  ["tables"; "_name"; "verbose"; "stats"; "savedir";
   "save_database"; "_save_locks"; "load_database"; "_update"; "create_table";
   "drop_table"; "import_table"; "export"; "table_from_object"; "cast";
   "insert_into"; "update"; "delete_from"; "select"; "show_table"; "sort";
   "create_view"; "join"; "lock_table"; "unlock_table"; "is_locked";
   "_update_meta_length"; "_update_meta_locks"; "_update_meta_insert_stack";
   "_add_to_insert_stack"; "_get_insert_stack_for_table";
   "_update_meta_insert_stack_for_tb"; "save_statistics"; "load_statistics";
   "calculate_tables_statistics"; "print_statistics"; "create_index";
   "_construct_index"; "_has_index"; "_save_index"; "_load_idx"; "drop_index";
   "__class__"; "__delattr__"; "__dict__"; "__dir__"; "__doc__"; "__eq__";
   "__format__"; "__ge__"; "__getattribute__"; "__getstate__"; "__gt__"; "__hash__";
   "__init__";
   "__init_subclass__"; "__le__"; "__lt__"; "__module__"; "__ne__"; "__new__";
   "__reduce__"; "__reduce_ex__"; "__repr__"; "__setattr__"; "__sizeof__";
   "__str__"; "__subclasshook__"; "__weakref__"].

(** *** Saving and loading *)

(** every table of [self.tables] is written to the file of its name *)
Definition save_database : DB unit :=
  modify (λ s, set_files (λ f, tables s ∪ f) s).

Definition _save_locks : DB unit :=
  let! t := table "meta_locks" in
  modify (set_files (<["meta_locks" := t]>)).

(** the table name a file is loaded under: [file.split(".")[0]] *)
Definition loaded_name (file : string) : string :=
  default "" (head (Py.split "." file)).

(** every [.pkl] file of the directory is loaded, under the part of its
    name before the first dot *)
Definition load_database : DB unit :=
  modify (λ s, set_tables (λ tb,
    foldl (λ tb (f : string * Table), <[loaded_name (f.1 ++ ".pkl") := f.2]> tb)
          tb (map_to_list (files s))) s).

(** [with open(f'{savedir}/meta_locks.pkl', 'rb') as f:
       self.tables.update({'meta_locks': pickle.load(f)})] *)
Definition reload_locks : DB unit :=
  λ s, match files s !! "meta_locks" with
       | Some t => (Ok tt, set_tables (<["meta_locks" := t]>) s)
       | None => (Raise (FileNotFoundError "meta_locks.pkl"), s)
       end.

(** *** Meta tables *)

(** [self.tables.values()] without the meta tables. Python lists a dict
    in insertion order, [map_to_list] in an order of its own: the order
    only decides in which order new rows enter a meta table. *)
Definition non_meta_tables (s : Database) : list Table :=
  filter (λ t, Py.is_meta (_name t) = false) (snd <$> map_to_list (tables s)).

Definition _update_meta_length : DB unit :=
  let! s := get in
  for_each (non_meta_tables s) (λ t,
    let! meta_length := table "meta_length" in
    let! known := lift (column_by_name "table_name" meta_length) in
    when (negb (bool_decide (VStr (_name t) ∈ known)))
      (on_table "meta_length" (_insert [VStr (_name t); VInt 0] [])) ;;
    let non_none_rows := length (filter (λ r, existsb truthy r = true) (data t)) in
    on_table "meta_length"
      (_update_rows (VInt (Z.of_nat non_none_rows)) "no_of_rows"
         (eq_cond "table_name" (_name t)))).

Definition _update_meta_insert_stack : DB unit :=
  let! s := get in
  for_each (non_meta_tables s) (λ t,
    let! meta_insert_stack := table "meta_insert_stack" in
    let! known := lift (column_by_name "table_name" meta_insert_stack) in
    when (negb (bool_decide (VStr (_name t) ∈ known)))
      (on_table "meta_insert_stack" (_insert [VStr (_name t); VList []] []))).

Definition _update : DB unit :=
  _update_meta_length ;;
  _update_meta_insert_stack.

(** the first value of the [indexes] column among the rows of the table *)
Definition _get_insert_stack_for_table (table_name : string) : DB value :=
  let! meta_insert_stack := table "meta_insert_stack" in
  let! selected := lift (_select_where "*" (Some (eq_cond "table_name" table_name))
                           false None false None None None meta_insert_stack) in
  let! column := lift (column_by_name "indexes" selected) in
  from_option IndexError (head column).

Definition _update_meta_insert_stack_for_tb (table_name : string) (new_stack : value)
    : DB unit :=
  on_table "meta_insert_stack"
    (_update_rows new_stack "indexes" (eq_cond "table_name" table_name)).

(** [old_lst + indexes] *)
Definition _add_to_insert_stack (table_name : string) (indexes : list nat) : DB unit :=
  let! old_lst := _get_insert_stack_for_table table_name in
  match old_lst with
  | VList l => _update_meta_insert_stack_for_tb table_name (VList (l ++ indexes))
  | _ => raise TypeError
  end.

(** *** Locks *)

(** [self.tables['meta_locks']._select_where('pid', f'table_name={table_name}').data[0][0]]
    inside [try: ... except IndexError: pass]: the pid of the first lock
    record of the table, if there is one. *)
Definition lock_owner (table_name : string) : DB (option value) :=
  let! meta_locks := table "meta_locks" in
  let! selected := lift (_select_where "pid" (Some (eq_cond "table_name" table_name))
                           false None false None None None meta_locks) in
  ret (head (data selected) ≫= head).

(** [lock_table] returns [None] for a meta table or a table that is not
    in [self.tables], [False] when the caller holds the lock already and
    [True] when it has taken it. Its callers pass a table name (the
    [isinstance(table_name, Table)] disjunct of the guard is never reached
    with a name) and [mode='x'] or nothing. *)
Definition lock_table (table_name : string) (mode : string) : DB (option bool) :=
  let! s := get in
  if Py.is_meta table_name || negb (bool_decide (table_name ∈ dom (tables s)))
  then ret None
  else
    reload_locks ;;
    let! owner := lock_owner table_name in
    match owner with
    | Some pid =>
        if negb (bool_decide (pid = VInt (getpid s))) then raise (Locked pid)
        else ret (Some false)
    | None =>
        (if decide (mode = "x")
         then on_table "meta_locks" (_insert [VStr table_name; VInt (getpid s); VStr mode] [])
         else raise NotImplementedError) ;;
        _save_locks ;;
        ret (Some true)
    end.

Definition unlock_table (table_name : string) (force : bool) : DB unit :=
  let! s := get in
  if negb (bool_decide (table_name ∈ dom (tables s)))
  then raise (NotInDatabase table_name)
  else
    (if negb force then
       let! owner := lock_owner table_name in
       match owner with
       | Some pid =>
           if negb (bool_decide (pid = VInt (getpid s))) then raise (Locked pid)
           else ret tt
       | None => ret tt
       end
     else ret tt) ;;
    let! _ := on_table "meta_locks" (_delete_where (eq_cond "table_name" table_name)) in
    _save_locks.

(** a table given by its name or as a [Table] object *)
Inductive table_ref :=
| ByName (name : string)
| ByObject (t : Table).

Definition is_locked (table_name : table_ref) : DB bool :=
  match table_name with
  | ByObject _ => ret false
  | ByName name =>
      if Py.is_meta name then ret false
      else
        reload_locks ;;
        let! s := get in
        let! owner := lock_owner name in
        match owner with
        | Some pid =>
            if negb (bool_decide (pid = VInt (getpid s))) then raise (Locked pid)
            else ret false
        | None => ret false
        end
  end.

(** [if lock_ownership: self.unlock_table(table_name)] *)
Definition release_if_owner (lock_ownership : option bool) (table_name : string) : DB unit :=
  when (bool_decide (lock_ownership = Some true)) (unlock_table table_name false).

(** *** Statistics *)

(** a value that [set(...)] can hold: a list cannot be hashed *)
Definition hashable (v : value) : bool :=
  match v with VList _ => false | _ => true end.

(** [calculate_tables_statistics] counts the distinct values of every
    column of every table whose registry name does not start with [meta],
    with [len(set(...))], which raises [TypeError] on a list. The
    dictionary it builds and the file it is saved to are not kept. The
    registry is gone through in the order of [map_to_list]. *)
Definition calculate_tables_statistics : DB unit :=
  let! s := get in
  if bool_decide (tables s = ∅) then ret tt
  else
    for_each (filter (λ kt : string * Table, Py.is_meta kt.1 = false) (map_to_list (tables s)))
      (λ kt,
         for_each (column_names kt.2) (λ col_name,
           let! distinct_values := lift (column_by_name col_name kt.2) in
           if forallb hashable distinct_values then ret tt else raise TypeError)).

(** *** Creating and changing tables *)

Definition create_table (name column_names column_types : string)
    (primary_key unique_columns : option string) : DB unit :=
  let! t := lift (Table_init name (Py.split "," column_names) (Py.split "," column_types)
                    primary_key (Py.split "," <$> unique_columns)) in
  modify (set_tables (<[name := t]>)) ;;
  _update ;;
  calculate_tables_statistics ;;
  save_database.

Definition cast (column_name table_name cast_type : string) : DB unit :=
  load_database ;;
  let! lock_ownership := lock_table table_name "x" in
  let! _ := table table_name in
  let! ty := lift (eval_type cast_type) in
  on_table table_name (_cast_column column_name ty) ;;
  release_if_owner lock_ownership table_name ;;
  _update ;;
  save_database.

Definition insert_into (table_name row_str : string) : DB unit :=
  let row := VStr <$> Py.split "," (Py.strip row_str) in
  load_database ;;
  let! lock_ownership := lock_table table_name "x" in
  let! insert_stack := _get_insert_stack_for_table table_name in
  try_except
    (match insert_stack with
     | VList l => on_table table_name (_insert row l)
     | _ => raise TypeError
     end)
    (λ e, release_if_owner lock_ownership table_name ;; raise e) ;;
  _update_meta_insert_stack_for_tb table_name
    (match insert_stack with VList l => VList (removelast l) | v => v end) ;;
  release_if_owner lock_ownership table_name ;;
  _update ;;
  save_database.

(** [set_column, set_value = set_args.replace(' ','').split('=')] *)
Definition update (table_name set_args : string) (c : condition) : DB unit :=
  match Py.split "=" (Py.remove_char " " set_args) with
  | [set_column; set_value] =>
      load_database ;;
      let! lock_ownership := lock_table table_name "x" in
      on_table table_name (_update_rows (VStr set_value) set_column c) ;;
      release_if_owner lock_ownership table_name ;;
      _update ;;
      save_database
  | _ => raise ValueError
  end.

Definition delete_from (table_name : string) (c : condition) : DB unit :=
  load_database ;;
  let! lock_ownership := lock_table table_name "x" in
  let! deleted := on_table table_name (_delete_where c) in
  release_if_owner lock_ownership table_name ;;
  _update ;;
  save_database ;;
  when (negb (Py.is_meta table_name)) (_add_to_insert_stack table_name deleted) ;;
  save_database.

Definition sort (table_name column_name : string) (asc : bool) : DB unit :=
  load_database ;;
  let! lock_ownership := lock_table table_name "x" in
  let! _ := on_table table_name (_sort column_name asc) in
  release_if_owner lock_ownership table_name ;;
  _update ;;
  save_database.

Definition table_from_object (new_table : Table) : DB unit :=
  modify (set_tables (<[_name new_table := new_table]>)) ;;
  let! s := get in
  (if bool_decide (_name new_table ∈ class_attrs) || bool_decide (_name new_table ∈ attrs s)
   then raise (AttributeExists (_name new_table))
   else modify (set_attrs (λ a, {[_name new_table]} ∪ a))) ;;
  _update ;;
  save_database.

(** *** Indexes *)

(** the [[row[0], row[1]]] pairs of a table *)
Definition first_two (t : Table) : list (value * value) :=
  (λ r, (cell 0 r, cell 1 r)) <$> data t.

Definition _has_index (table_name : string) (column_name : option string) : DB bool :=
  let! meta_indexes := table "meta_indexes" in
  match column_name with
  | None =>
      let! names := lift (column_by_name "table_name" meta_indexes) in
      ret (bool_decide (VStr table_name ∈ names))
  | Some c =>
      ret (bool_decide ((VStr table_name, VStr c) ∈ first_two meta_indexes))
  end.

Definition _save_index (index_name : string) (i : index) : DB unit :=
  modify (set_index_files (<[index_name := i]>)).

Definition _load_idx (index_name : string) : DB index :=
  λ s, match index_files s !! index_name with
       | Some i => (Ok i, s)
       | None => (Raise (FileNotFoundError ("meta_" ++ index_name ++ "_index.pkl")), s)
       end.

(** the loop of [_construct_index]: the rows whose key is [None] are
    skipped, every other key goes into the index with its row position *)
Fixpoint construct_loop (index_type : string) (keys : list (nat * value)) (i : index)
    : index :=
  match keys with
  | [] => i
  | (idx, key) :: keys' =>
      if decide (key = VNone) then construct_loop index_type keys' i
      else if decide (index_type = "btree")
           then construct_loop index_type keys' (Btree_insert key idx i)
           else construct_loop index_type keys' (EH_add key idx i)
  end.

Definition _construct_index (table_name column_name index_name index_type : string)
    : DB unit :=
  let i := if decide (index_type = "btree") then Btree 3 else ExtendibleHashing 1 4 in
  let! t := table table_name in
  let! column := lift (column_by_name column_name t) in
  _save_index index_name (construct_loop index_type (Py.enumerate column) i).

Definition create_index (index_name table_name column_name index_type : string)
    : DB unit :=
  let! s := get in
  if negb (bool_decide (table_name ∈ dom (tables s)))
  then raise (TableDoesNotExist table_name)
  else if negb (bool_decide (index_type ∈ ["btree"; "hash"]))
  then raise (IndexTypeNotSupported index_type)
  else
    let! t := table table_name in
    if bool_decide (pk_idx t = None) && bool_decide (unique_columns t = None)
    then raise NoKeyOrUniqueColumn
    else
      (if bool_decide (Some column_name = pk t) then ret tt
       else match unique_columns t with
            | None => raise TypeError
            | Some u => if bool_decide (column_name ∈ u) then ret tt
                        else raise NotKeyOrUniqueColumn
            end) ;;
      let! meta_indexes := table "meta_indexes" in
      let! index_names := lift (column_by_name "index_name" meta_indexes) in
      if bool_decide (VStr index_name ∈ index_names) then raise IndexNameExists
      else
        let! meta_indexes := table "meta_indexes" in
        if bool_decide ((VStr table_name, VStr column_name) ∈ first_two meta_indexes)
        then raise ColumnAlreadyIndexed
        else
          on_table "meta_indexes"
            (_insert [VStr table_name; VStr column_name; VStr index_name; VStr index_type] []) ;;
          _construct_index table_name column_name index_name index_type ;;
          save_database.

Definition drop_index (index_name : string) : DB unit :=
  let! meta_indexes := table "meta_indexes" in
  let! index_names := lift (column_by_name "index_name" meta_indexes) in
  when (bool_decide (VStr index_name ∈ index_names))
    (delete_from "meta_indexes" (eq_cond "index_name" index_name) ;;
     modify (set_index_files (delete index_name)) ;;
     save_database).

(** *** Dropping a table *)

Definition drop_table (table_name : string) : DB unit :=
  load_database ;;
  let! _ := lock_table table_name "x" in
  let! _ := table table_name in
  modify (set_tables (delete table_name)) ;;
  (let! s := get in
   if bool_decide (table_name ∈ dom (files s))
   then modify (set_files (delete table_name)) ;; calculate_tables_statistics
   else ret tt) ;;
  delete_from "meta_locks" (eq_cond "table_name" table_name) ;;
  delete_from "meta_length" (eq_cond "table_name" table_name) ;;
  delete_from "meta_insert_stack" (eq_cond "table_name" table_name) ;;
  let! indexed := _has_index table_name None in
  when indexed
    (let! meta_indexes := table "meta_indexes" in
     let! names := lift (column_by_name "table_name" meta_indexes) in
     let to_be_deleted :=
       omap (λ kt : nat * value, if decide (kt.2 = VStr table_name) then Some kt.1 else None)
            (Py.enumerate names) in
     for_each (reverse to_be_deleted) (λ i,
       let! meta_indexes := table "meta_indexes" in
       match data meta_indexes !! i ≫= (.!! 2%nat) with
       | Some (VStr index_name) => drop_index index_name
       | Some _ => raise TypeError
       | None => raise IndexError
       end)) ;;
  modify (set_attrs (λ a, a ∖ {[table_name]})) ;;
  save_database.

(** *** Select and join *)

Definition as_str (v : value) : DB string :=
  match v with VStr s => ret s | _ => raise TypeError end.

(** [{k: v for d in l for k, v in d.items()}] when [l] is not empty *)
Definition dict_of (l : list (string * index)) : option (gmap string index) :=
  match l with
  | [] => None
  | _ => Some (foldl (λ m (kv : string * index), <[kv.1 := kv.2]> m) ∅ l)
  end.

(** the loop of [select] over the index records of a table: the B-tree
    indexes and the hash indexes, each with its indexed column *)
Fixpoint load_indexes (records : list (value * value * value))
    (btree_list hash_list : list (string * index))
    : DB (list (string * index) * list (string * index)) :=
  match records with
  | [] => ret (btree_list, hash_list)
  | (index_name, indexed_column, index_type) :: records' =>
      let! name := as_str index_name in
      let! column := as_str indexed_column in
      let! i := _load_idx name in
      if decide (index_type = VStr "btree")
      then load_indexes records' (btree_list ++ [(column, i)]) hash_list
      else load_indexes records' btree_list (hash_list ++ [(column, i)])
  end.

(** Python stops a recursion that goes deeper than its recursion limit. *)
Definition recursion_limit : nat := 1000.

Fixpoint select_rec (depth : nat) (columns : string) (table_name : table_ref)
    (c : option condition) (distinct : bool) (order_by : option string)
    (limit : option nat) (desc : bool) (save_as : option string) (return_object : bool)
    : DB (option Table) :=
  match depth with
  | O => raise RecursionError
  | S depth' =>
      load_database ;;
      match table_name with
      | ByObject t =>
          let! r := lift (_select_where columns c distinct order_by desc limit None None t) in
          ret (Some r)
      | ByName name =>
          let! locked := is_locked table_name in
          if locked then ret None
          else
            let! indexed := _has_index name None in
            let! selected :=
              match indexed, c with
              | true, Some _ =>
                  let! table_indexes :=
                    select_rec depth' "*" (ByName "meta_indexes")
                      (Some (eq_cond "table_name" name)) false None None false None true in
                  let! table_indexes := from_option AttributeError table_indexes in
                  let! index_name_list := lift (column_by_name "index_name" table_indexes) in
                  let! indexed_column_list :=
                    lift (column_by_name "indexed_column" table_indexes) in
                  let! indexed_type_list := lift (column_by_name "index_type" table_indexes) in
                  let! lists :=
                    load_indexes
                      (zip (zip index_name_list indexed_column_list) indexed_type_list) [] [] in
                  let! t := table name in
                  lift (_select_where columns c distinct order_by desc limit
                          (dict_of lists.1) (dict_of lists.2) t)
              | _, _ =>
                  let! t := table name in
                  lift (_select_where columns c distinct order_by desc limit None None t)
              end in
            match save_as with
            | Some n => table_from_object (set_name n selected) ;; ret None
            | None => if return_object then ret (Some selected) else ret None
            end
      end
  end.

Definition select := select_rec recursion_limit.

(** a local variable that an assignment may or may not have reached *)
Definition local (name : string) {A} (v : option A) : DB A :=
  from_option (UnboundLocalError name) v.

Definition resolve (t : table_ref) : DB Table :=
  match t with
  | ByObject t => ret t
  | ByName name => table name
  end.

(** the index records of a table, as [join] reads them, and whether one
    of them is on the column *)
Definition index_records (t : Table) : DB Table :=
  let! r := select "*" (ByName "meta_indexes") (Some (eq_cond "table_name" (_name t)))
              false None None false None true in
  from_option AttributeError r.

(** [for row in table_indexes.data: if row[0]==name and row[1]==column_name:
       index_name = row[2]; break] *)
Definition find_index_name (table_indexes : Table) (name column_name : string)
    : option value :=
  cell 2 <$> head (filter (λ r, cell 0 r = VStr name ∧ cell 1 r = VStr column_name)
                          (data table_indexes)).

(** the [mode=='inl'] branch of [join]; it yields the value of [res] at
    its end, if an assignment has reached it *)
Definition join_inl (left_table right_table : Table) (condition : string)
    : DB (option Table) :=
  let! leftIndexExists := _has_index (_name left_table) None in
  let! rightIndexExists := _has_index (_name right_table) None in
  if negb leftIndexExists && negb rightIndexExists then raise IndexUnavailable
  else
    let column_name := default "" (head (Py.split "=" condition)) in
    let! table_indexes_r :=
      if rightIndexExists then
        let! r := index_records right_table in ret (Some r)
      else ret None in
    let column_exist_r :=
      match table_indexes_r with
      | Some r => bool_decide ((VStr (_name right_table), VStr column_name) ∈ first_two r)
      | None => false
      end in
    let! table_indexes_l :=
      if leftIndexExists then
        let! r := index_records left_table in ret (Some r)
      else ret None in
    let column_exist_l :=
      match table_indexes_l with
      | Some r => bool_decide ((VStr (_name left_table), VStr column_name) ∈ first_two r)
      | None => false
      end in
    if column_exist_r then
      let! table_indexes_r := local "table_indexes_r" table_indexes_r in
      let! index_name :=
        local "index_name" (find_index_name table_indexes_r (_name right_table) column_name) in
      let! index_name := as_str index_name in
      let! i := _load_idx index_name in
      let! res := lift (Inlj_join condition left_table right_table i "right") in
      ret (Some res)
    else if column_exist_l then
      let! table_indexes_l := local "table_indexes_l" table_indexes_l in
      let! index_name :=
        local "index_name" (find_index_name table_indexes_l (_name left_table) column_name) in
      let! index_name := as_str index_name in
      let! i := _load_idx index_name in
      let! res := lift (Inlj_join condition left_table right_table i "left") in
      ret (Some res)
    else ret None.

Definition join (mode : string) (left_table right_table : table_ref) (condition : string)
    (save_as : option string) (return_object : bool) : DB (option Table) :=
  load_database ;;
  let! left_locked := is_locked left_table in
  let! locked := if left_locked then ret true else is_locked right_table in
  if locked then ret None
  else
    let! left_table := resolve left_table in
    let! right_table := resolve right_table in
    let! res :=
      if decide (mode = "inner") then
        let! r := lift (_inner_join left_table right_table condition) in ret (Some r)
      else if decide (mode = "left") then
        let! r := lift (_left_join left_table right_table condition) in ret (Some r)
      else if decide (mode = "right") then
        let! r := lift (_right_join left_table right_table condition) in ret (Some r)
      else if decide (mode = "full") then
        let! r := lift (_full_join left_table right_table condition) in ret (Some r)
      else if decide (mode = "inl") then join_inl left_table right_table condition
      else if decide (mode = "sm") then
        let! r := lift (Smj_join condition left_table right_table) in ret (Some r)
      else raise NotImplementedError in
    match save_as with
    | Some n =>
        let! res := local "res" res in
        table_from_object (set_name n res) ;;
        if return_object then ret (Some (set_name n res)) else ret None
    | None =>
        let! res := local "res" res in
        if return_object then ret (Some res) else ret None
    end.

(** *** Opening a database *)

(** the meta tables of a new database *)
Definition create_meta_tables : DB unit :=
  create_table "meta_length" "table_name,no_of_rows" "str,int" None None ;;
  create_table "meta_locks" "table_name,pid,mode" "str,int,str" None None ;;
  create_table "meta_insert_stack" "table_name,indexes" "str,list" None None ;;
  create_table "meta_indexes" "table_name,indexed_column,index_name,index_type"
    "str,str,str,str" None None ;;
  save_database.

(** [Database(name)] in process [pid]: the tables of an existing
    directory are loaded and their statistics calculated; without a
    directory, or when that raises, the four meta tables are created and
    saved. The statistics file of an existing directory is taken to be
    there. *)
Definition Database_init (pid : Z)
    (existing : option (gmap string Table * gmap string index)) : result unit * Database :=
  match existing with
  | Some (f, i) =>
      try_except (load_database ;; calculate_tables_statistics) (λ _, create_meta_tables)
        (mkDatabase pid ∅ ∅ f i)
  | None => create_meta_tables (mkDatabase pid ∅ ∅ ∅ ∅)
  end.

(** the state a method leaves behind *)
Definition exec {A} (m : DB A) (s : Database) : Database := (m s).2.

End Database.

(** ** Vocabulary of the specification *)

(** The meta tables as [Database.__init__] creates them, holding the
    given rows. *)
Definition length_table (d : list row) : Table :=
  mkTable "meta_length" ["table_name"; "no_of_rows"] [TStr; TInt] None None None d.
Definition locks_table (d : list row) : Table :=
  mkTable "meta_locks" ["table_name"; "pid"; "mode"] [TStr; TInt; TStr] None None None d.
Definition stack_table (d : list row) : Table :=
  mkTable "meta_insert_stack" ["table_name"; "indexes"] [TStr; TList] None None None d.
Definition indexes_table (d : list row) : Table :=
  mkTable "meta_indexes" ["table_name"; "indexed_column"; "index_name"; "index_type"]
    [TStr; TStr; TStr; TStr] None None None d.

(** the rows of a meta table that are about a table, its first column
    being the table name *)
Definition records (name : string) (d : list row) : list row :=
  filter (λ r, cell 0 r = VStr name) d.

Definition others (name : string) (d : list row) : list row :=
  filter (λ r, cell 0 r ≠ VStr name) d.

(** the lock record [acquire] inserts *)
Definition lock_record (name : string) (pid : Z) : row :=
  [VStr name; VInt pid; VStr "x"].

(** the pid in the first lock record of a table: its owner *)
Definition owner_of (name : string) (d : list row) : option value :=
  cell 1 <$> head (records name d).

(** the free-position stack recorded for a table *)
Definition stack_of (name : string) (d : list row) : option value :=
  cell 1 <$> head (records name d).

(** the rows about a table, rewritten in their second column *)
Definition set_second (name : string) (v : value) (d : list row) : list row :=
  (λ r, if decide (cell 0 r = VStr name) then <[1%nat := v]> r else r) <$> d.

(** the rows of a table after the positions have been freed *)
Definition freed (ps : list nat) (t : Table) : Table :=
  set_data (foldr (λ p d, <[p := tombstone (length (column_names t))]> d) (data t) ps) t.

(** the lock step of an operation: the lock is taken, or is held already *)
Definition lock_outcome (name : string) (pid : Z) (dk : list row)
    (lock_ownership : option bool) (dk' : list row) : Prop :=
  (lock_ownership = Some true ∧ owner_of name dk = None
   ∧ dk' = (dk ++ [lock_record name pid])%list)
  ∨ (lock_ownership = Some false ∧ dk' = dk).

Section Vocabulary.
Context `{IndexStructures}.

(** the lock table as a process has it in memory after reading it, and
    as it is in memory and on disk after writing it *)
Definition remember_locks (d : list row) (s : Database) : Database :=
  set_tables (<["meta_locks" := locks_table d]>) s.
Definition persist_locks (d : list row) (s : Database) : Database :=
  set_files (<["meta_locks" := locks_table d]>) (remember_locks d s).

(** the lock table in memory and on disk is [t] *)
Definition locks_are (t : Table) (s : Database) : Prop :=
  tables s !! "meta_locks" = Some t ∧ files s !! "meta_locks" = Some t.

(** the mutating operations of the record store *)
Inductive operation :=
| Create (name column_names column_types : string) (primary_key unique_columns : option string)
| Drop (table_name : string)
| Insert (table_name row_str : string)
| Update (table_name set_args : string) (c : condition)
| Delete (table_name : string) (c : condition)
| Sort (table_name column_name : string) (asc : bool)
| Cast (column_name table_name cast_type : string).

Definition run (o : operation) : DB unit :=
  match o with
  | Create name column_names column_types primary_key unique_columns =>
      create_table name column_names column_types primary_key unique_columns
  | Drop table_name => drop_table table_name
  | Insert table_name row_str => insert_into table_name row_str
  | Update table_name set_args c => update table_name set_args c
  | Delete table_name c => delete_from table_name c
  | Sort table_name column_name asc => sort table_name column_name asc
  | Cast column_name table_name cast_type => cast column_name table_name cast_type
  end.

Definition is_create (o : operation) : bool :=
  match o with Create _ _ _ _ _ => true | _ => false end.

(** the table an operation on rows works on *)
Definition row_operation_on (o : operation) : option string :=
  match o with
  | Insert table_name _ | Update table_name _ _ | Delete table_name _
  | Sort table_name _ _ | Cast _ table_name _ => Some table_name
  | Create _ _ _ _ _ | Drop _ => None
  end.

(** the state after [load_database] *)
Definition loaded (s : Database) : Database := exec load_database s.

(** a method that, when it returns, has just saved *)
Definition saves (m : DB unit) : Prop :=
  ∀ s s', m s = (Ok tt, s') → tables s' ⊆ files s'.

(** a method that keeps a property of the state, whether it returns or
    raises *)
Definition preserves {A} (I : Database → Prop) (m : DB A) : Prop :=
  ∀ s, I s → I (m s).2.

(** the directory as process [disk] left it, seen by process [mem] *)
Definition seen_by (mem disk : Database) : Database :=
  mkDatabase (getpid mem) (tables mem) (attrs mem) (files disk) (index_files disk).

(** two tables keyed by [id], the left one indexed on [id] only *)
Definition indexed_on_id : Database :=
  exec (create_table "l" "id,name" "int,str" (Some "id") None ;;
        create_table "r" "id,name" "int,str" (Some "id") None ;;
        insert_into "l" "1,a" ;;
        insert_into "r" "1,a" ;;
        create_index "l_id" "l" "id" "btree")
       (Database_init 5 None).2.
End Vocabulary.

(** ** A reference implementation of the index interface

    The entries themselves, in insertion order: the simplest structure
    that meets the interface, used to run the database on concrete
    inputs. *)

Definition entries_find (key : value) (i : list (value * nat)) : list nat :=
  omap (λ e : value * nat, if decide (e.1 = key) then Some e.2 else None) i.

#[refine] Definition entries_index : IndexStructures := {|
  index := list (value * nat);
  Btree := λ _, [];
  ExtendibleHashing := λ _ _, [];
  Btree_insert := λ key idx i, (key, idx) :: i;
  EH_add := λ key idx i, (key, idx) :: i;
  index_find := entries_find;
  index_entries := λ i, i;
|}.
Proof.
  - reflexivity.
  - reflexivity.
  - reflexivity.
  - reflexivity.
  - intros key idx i. unfold entries_find. rewrite list_elem_of_omap.
    intros [[k p] [Hin Hsome]]. simpl in Hsome.
    destruct (decide (k = key)) as [->|]; [|discriminate].
    by injection Hsome as ->.
Defined.

(** ** Concrete databases

    Process 5 creates a database and a table [t(id int primary key, name
    str)]; process 7 opens the same directory. *)
Section Examples.
#[local] Existing Instance entries_index.

Definition fresh_db : Database := (Database_init 5 None).2.

Definition db_t : Database :=
  exec (create_table "t" "id,name" "int,str" (Some "id") None) fresh_db.

Definition db_rows : Database :=
  exec (insert_into "t" "1,a" ;; insert_into "t" "2,b") db_t.

(** process 5 holds the lock on [t] *)
Definition db_locked : Database := exec (lock_table "t" "x") db_rows.

(** process 7 opens the directory while process 5 holds the lock *)
Definition other_process : Database :=
  (Database_init 7 (Some (files db_locked, index_files db_locked))).2.

(** process 7 opened the directory when [t] was empty; process 5 has
    inserted two rows since *)
Definition stale_process : Database :=
  seen_by (Database_init 7 (Some (files db_t, index_files db_t))).2 db_rows.


(** a row of [t] has been deleted *)
Definition db_deleted : Database :=
  exec (delete_from "t" (Cond "id" OpEq (VInt 1))) db_rows.

(** the table [t] with its two rows, and with the first of them deleted *)
Definition t_rows : Table :=
  mkTable "t" ["id"; "name"] [TInt; TStr] (Some "id") (Some 0%nat) None
    [[VInt 1; VStr "a"]; [VInt 2; VStr "b"]].
Definition t_deleted : Table :=
  mkTable "t" ["id"; "name"] [TInt; TStr] (Some "id") (Some 0%nat) None
    [[VNone; VNone]; [VInt 2; VStr "b"]].
End Examples.

(** ** The rest of the class

    [show_table], [create_view] and [import_table]; [export] and the
    statistics only format and write files of their own. *)

(** [s.strip(c)] for one character, and [sep.join(l)] *)
Fixpoint lstrip_char (c : ascii) (s : string) : string :=
  match s with
  | String d s' => if Ascii.eqb d c then lstrip_char c s' else s
  | EmptyString => EmptyString
  end.

Definition strip_char (c : ascii) (s : string) : string :=
  String.rev (lstrip_char c (String.rev (lstrip_char c s))).

Fixpoint join_with (sep : string) (l : list string) : string :=
  match l with
  | [] => ""
  | [x] => x
  | x :: l' => x ++ sep ++ join_with sep l'
  end.

Definition newline : ascii := "010"%char.

Section MoreDatabase.
Context `{IndexStructures}.

(** [show_table]: the table is looked up, then [is_locked] is asked;
    what [Table.show] prints is left out *)
Definition show_table (table_name : string) : DB unit :=
  load_database ;;
  let! _ := table table_name in
  let! _ := is_locked (ByName table_name) in
  ret tt.

(** [table._name = table_name; self.table_from_object(table)] *)
Definition create_view (table_name : string) (t : Table) : DB unit :=
  table_from_object (set_name table_name t).

(** [import_table], on the lines that [file.readlines()] yields: the
    first line names the columns and creates the table, every other
    line is a row, inserted with [Table._insert] directly. With no
    line at all [lock_ownership] is read before it is assigned. *)
Definition import_table (table_name : string) (lines : list string)
    (column_types primary_key : option string) : DB unit :=
  match lines with
  | [] => raise (UnboundLocalError "lock_ownership")
  | line :: rows =>
      let colnames := strip_char newline line in
      let column_types :=
        match column_types with
        | Some tys => tys
        | None => join_with "," ((λ _, "str") <$> Py.split "," colnames)
        end in
      create_table table_name colnames column_types primary_key None ;;
      let! lock_ownership := lock_table table_name "x" in
      for_each rows (λ line,
        on_table table_name
          (_insert (VStr <$> Py.split "," (strip_char newline line)) [])) ;;
      release_if_owner lock_ownership table_name ;;
      _update ;;
      save_database
  end.
End MoreDatabase.

(** ** Further vocabulary *)

(** the part of a string before the first occurrence of a character, and
    whether the character occurs *)
Fixpoint text_before (sep : ascii) (s : string) : string :=
  match s with
  | EmptyString => EmptyString
  | String c s' => if Ascii.eqb c sep then EmptyString else String c (text_before sep s')
  end.

Fixpoint has_char (sep : ascii) (s : string) : bool :=
  match s with
  | EmptyString => false
  | String c s' => Ascii.eqb c sep || has_char sep s'
  end.

(** an outcome with its value forgotten *)
Definition forget {A} (r : result A) : result unit :=
  match r with Ok _ => Ok tt | Raise e => Raise e end.

(** the row count recorded for a table *)
Definition length_of (name : string) (d : list row) : option value :=
  cell 1 <$> head (records name d).

(** [len([row for row in table.data if any(row)])] *)
Definition non_none_rows (t : Table) : nat :=
  length (filter (λ r, existsb truthy r = true) (data t)).

(** one round of the loops of [_update_meta_length] and
    [_update_meta_insert_stack] on the rows of the meta table *)
Definition length_step (d : list row) (t : Table) : list row :=
  set_second (_name t) (VInt (Z.of_nat (non_none_rows t)))
    (if bool_decide (VStr (_name t) ∈ cell 0 <$> d) then d
     else d ++ [[VStr (_name t); VInt 0]]).

Definition stack_step (d : list row) (t : Table) : list row :=
  if bool_decide (VStr (_name t) ∈ cell 0 <$> d) then d
  else d ++ [[VStr (_name t); VList []]].

Section MoreVocabulary.
Context `{IndexStructures}.


(** what update, delete, sort and cast do to the table they work on, once
    their arguments are read: the assignment of an update as column and
    value, the type of a cast as one of the three column types *)
Definition table_step (o : operation) (t : Table) : option (result unit * Table) :=
  match o with
  | Update _ set_args c =>
      match Py.split "=" (Py.remove_char " " set_args) with
      | [set_column; set_value] => Some (_update_rows (VStr set_value) set_column c t)
      | _ => None
      end
  | Delete _ c => Some (forget (_delete_where c t).1, (_delete_where c t).2)
  | Sort _ column_name asc => Some (forget (_sort column_name asc t).1, (_sort column_name asc t).2)
  | Cast column_name _ cast_type =>
      match eval_type cast_type with
      | Ok ty => Some (_cast_column column_name ty t)
      | Raise _ => None
      end
  | _ => None
  end.

(** does the assignment of an update read as a column and a value? The
    other operations have nothing to read before they ask for the lock. *)
Definition parses (o : operation) : bool :=
  match o with
  | Update _ set_args _ =>
      bool_decide (length (Py.split "=" (Py.remove_char " " set_args)) = 2%nat)
  | _ => true
  end.

(** the rows of an imported file, inserted one after the other *)
Definition import_rows (rows : list string) : M Table unit :=
  for_each rows (λ line, _insert (VStr <$> Py.split "," (strip_char newline line)) []).

(** the files of the directory are [f] and [x] *)
Definition disk_is (f : gmap string Table) (x : gmap string index) (s : Database) : Prop :=
  files s = f ∧ index_files s = x.

(** a method that, when it raises, has kept a property of the state *)
Definition fails_keeping {A} (I : Database → Prop) (m : DB A) : Prop :=
  ∀ s, I s → match m s with (Raise _, s') => I s' | (Ok _, _) => True end.

(** the index that a record of [meta_indexes] stands for: the indexed
    column, the index of the file named by the record, and whether the
    record says [btree] *)
Definition index_of_record (x : gmap string index) (r : row)
    : option (string * index * bool) :=
  match cell 1 r, cell 2 r with
  | VStr column, VStr index_name =>
      i ← x !! index_name; Some (column, i, bool_decide (cell 3 r = VStr "btree"))
  | _, _ => None
  end.

(** every name bound in the registry or in the directory has a property *)
Definition every_name (P : string → Prop) (s : Database) : Prop :=
  ∀ k, k ∈ dom (tables s) ∪ dom (files s) → P k.

(** no file of the directory holds a table whose name has a dot in it *)
Definition no_dotted_file (s : Database) : Prop :=
  ∀ k, k ∈ dom (files s) → has_char "." k = false.

(** [s'] is the process of [s] on the same directory, with whatever
    copies in memory of the tables that are on disk *)
Definition same_but_memory (s' s : Database) : Prop :=
  getpid s' = getpid s ∧ attrs s' = attrs s
  ∧ files s' = files s ∧ index_files s' = index_files s
  ∧ ∀ n, n ∉ dom (files s) → tables s' !! n = tables s !! n.



(** The distinct values of every column of the table can be counted: no
    column holds a list, the one value here that Python's [set] refuses. *)
Definition counted (t : Table) : bool :=
  forallb (λ c, match column_by_name c t with
                | Ok distinct_values => forallb hashable distinct_values
                | Raise _ => false
                end) (column_names t).

(** every table registered under a name that is no meta name and is not
    [name] can be counted *)
Definition others_counted (name : string) (s : Database) : Prop :=
  ∀ k t, tables s !! k = Some t → Py.is_meta k = false → k ≠ name → counted t = true.
End MoreVocabulary.

(** ** More concrete databases *)

Section MoreExamples.
#[local] Existing Instance entries_index.

(** the table [t] as it is created *)
Definition t_empty : Table :=
  mkTable "t" ["id"; "name"] [TInt; TStr] (Some "id") (Some 0%nat) None [].

(** process 7 opens the directory of [db_rows] *)
Definition second_process : Database :=
  (Database_init 7 (Some (files db_rows, index_files db_rows))).2.

(** a table is created under a name with a dot *)
Definition db_dotted : Database :=
  exec (create_table "a.b" "k" "int" None None) db_t.

(** [t] is indexed on its primary key *)
Definition db_indexed : Database :=
  exec (create_index "t_id" "t" "id" "btree") db_rows.

(** the rows of [meta_insert_stack] are saved as a table of their own,
    which holds a list in every row *)
Definition db_copied : Database :=
  exec (select "*" (ByName "meta_insert_stack") None false None None false (Some "copy") false)
    db_t.

(** the rows of [t] are saved as a table of their own, under a name with
    a dot *)
Definition db_saved_as : Database :=
  exec (select "*" (ByName "t") None false None None false (Some "a.b") false) db_rows.

(** the lines of a CSV file whose second row does not fit the column types *)
Definition csv_lines : list string :=
  ["k,v" ++ String newline ""; "1,a" ++ String newline ""; "x,b" ++ String newline ""].
End MoreExamples.

(** * Properties *)

(** ** Lists *)

Lemma omap_cons {A B} (f : A → option B) x l :
  omap f (x :: l) = match f x with Some y => y :: omap f l | None => omap f l end.
Proof. reflexivity. Qed.

Lemma omap_enumerate_from {A B} (f : nat * A → option B) (g : A → option B) (l : list A) k :
  (∀ i x, l !! i = Some x → f (k + i, x) = g x) →
  omap f (Py.enumerate_from k l) = omap g l.
Proof.
  revert k. induction l as [|x l IH]; intros k Hfg; [done|].
  cbn [Py.enumerate_from]. rewrite !omap_cons.
  rewrite <- (Hfg 0 x eq_refl), Nat.add_0_r.
  rewrite (IH (S k)); [done|].
  intros i y Hy. rewrite <- (Hfg (S i) y Hy). f_equal. f_equal. lia.
Qed.

Lemma omap_enumerate {A B} (f : nat * A → option B) (g : A → option B) (l : list A) :
  (∀ i x, l !! i = Some x → f (i, x) = g x) →
  omap f (Py.enumerate l) = omap g l.
Proof. intros Hfg. by apply omap_enumerate_from. Qed.

Lemma elem_of_enumerate {A} (l : list A) i x :
  (i, x) ∈ Py.enumerate l ↔ l !! i = Some x.
Proof.
  unfold Py.enumerate.
  assert (∀ k, (i, x) ∈ Py.enumerate_from k l ↔ (k ≤ i)%nat ∧ l !! (i - k) = Some x) as Hgen.
  { induction l as [|y l IH]; intros k; cbn [Py.enumerate_from].
    - rewrite elem_of_nil. split; [done|]. by intros [_ ?].
    - rewrite elem_of_cons, IH. split.
      + intros [[= -> ->]|[Hle Hl]].
        * by rewrite Nat.sub_diag.
        * split; [lia|]. by replace (i - k) with (S (i - S k)) by lia.
      + intros [Hle Hl]. destruct (decide (i = k)) as [->|Hne].
        * rewrite Nat.sub_diag in Hl. left. simpl in Hl. congruence.
        * right. split; [lia|]. by replace (i - k) with (S (i - S k)) in Hl by lia. }
  rewrite Hgen, Nat.sub_0_r. split; [by intros [_ ?]|]. split; [lia|done].
Qed.

Lemma omap_filter {A} (P : A → bool) (l : list A) :
  omap (λ x, if P x then Some x else None) l = filter (λ x, P x = true) l.
Proof.
  induction l as [|x l IH]; [done|]. rewrite omap_cons.
  destruct (P x) eqn:HP.
  - rewrite filter_cons_True by done. by rewrite IH.
  - rewrite filter_cons_False by congruence. done.
Qed.

Lemma elem_of_positions P d p :
  p ∈ positions P d ↔ ∃ r, d !! p = Some r ∧ P r = true.
Proof.
  unfold positions. rewrite list_elem_of_omap. split.
  - intros [[i r] [Hin Hsome]]. simpl in Hsome.
    apply elem_of_enumerate in Hin.
    destruct (P r) eqn:HP; [|done]. injection Hsome as ->. eauto.
  - intros (r & Hr & HP). exists (p, r). simpl. rewrite HP. split; [|done].
    by apply elem_of_enumerate.
Qed.

(** the rows at the matching positions are the matching rows *)
Lemma rows_at_positions P (d : list row) :
  omap (λ p, d !! p) (positions P d) = filter (λ r, P r = true) d.
Proof.
  unfold positions, Py.enumerate. rewrite <- omap_filter.
  assert (∀ (pre : list row) k, length pre = k →
    omap (λ p, (pre ++ d)%list !! p)
      (omap (λ pr : nat * row, if P pr.2 then Some pr.1 else None) (Py.enumerate_from k d))
    = omap (λ x, if P x then Some x else None) d) as Hgen.
  { induction d as [|r d IH]; intros pre k Hk; [done|].
    cbn [Py.enumerate_from]. rewrite !omap_cons. simpl.
    specialize (IH (pre ++ [r])%list (S k)). rewrite <- app_assoc in IH. simpl in IH.
    rewrite length_app in IH. simpl in IH.
    destruct (P r).
    - rewrite omap_cons. rewrite lookup_app_r by lia.
      rewrite Hk, Nat.sub_diag. simpl. f_equal. apply IH. lia.
    - apply IH. lia. }
  apply (Hgen [] 0 eq_refl).
Qed.

(** removing the matching positions leaves the other rows *)
Lemma rows_off_positions P (d : list row) :
  omap (λ pr : nat * row, if bool_decide (pr.1 ∈ positions P d) then None else Some pr.2)
       (Py.enumerate d)
  = filter (λ r, P r = false) d.
Proof.
  rewrite (omap_enumerate _ (λ r, if negb (P r) then Some r else None)).
  - rewrite omap_filter. apply list_filter_iff. intros r. by destruct (P r).
  - intros i r Hr. simpl. case_bool_decide as Hin.
    + apply elem_of_positions in Hin as (r' & Hr' & HP). 
      rewrite Hr in Hr'. injection Hr' as <-. by rewrite HP.
    + destruct (P r) eqn:HP; [|done]. destruct Hin. apply elem_of_positions. eauto.
Qed.

(** ** Table methods on the meta tables *)

Lemma satisfies_eq_cond column name r :
  satisfies 0 (eq_cond column name) r = true ↔ cell 0 r = VStr name.
Proof.
  unfold satisfies, eq_cond, cell. simpl. destruct r as [|v r]; simpl.
  - split; [done|discriminate].
  - destruct v; simpl; try (split; [done|discriminate]).
    + rewrite andb_false_r. split; discriminate.
    + unfold value_eqb. by rewrite bool_decide_eq_true.
Qed.

Lemma satisfied_records column name d :
  filter (λ r, satisfies 0 (eq_cond column name) r = true) d = records name d.
Proof. apply list_filter_iff. intros r. apply satisfies_eq_cond. Qed.

Lemma unsatisfied_records column name d :
  filter (λ r, satisfies 0 (eq_cond column name) r = false) d = others name d.
Proof.
  apply list_filter_iff. intros r. rewrite <- (satisfies_eq_cond column).
  by destruct (satisfies 0 (eq_cond column name) r).
Qed.

Lemma update_loop_unchecked ci v ps d :
  update_loop ci v false ps d = (Ok tt, foldl (λ d p, alter (λ r, <[ci := v]> r) p d) d ps).
Proof. revert d. induction ps as [|p ps IH]; intros d; [done|]. simpl. apply IH. Qed.

Lemma lookup_foldl_alter {A} (f : A → A) ps (d : list A) i :
  (∀ x, f (f x) = f x) →
  foldl (λ d p, alter f p d) d ps !! i = if bool_decide (i ∈ ps) then f <$> d !! i else d !! i.
Proof.
  intros Hf. revert d. induction ps as [|p ps IH]; intros d; [done|].
  simpl. rewrite IH. destruct (decide (i = p)) as [->|Hne].
  - rewrite list_lookup_alter_eq. rewrite (bool_decide_eq_true_2 (p ∈ p :: ps)) by left.
    case_bool_decide; [|done]. destruct (d !! p); simpl; by rewrite ?Hf.
  - rewrite list_lookup_alter_ne by done.
    case_bool_decide as H1; case_bool_decide as H2; try done.
    + destruct H2. by right.
    + apply elem_of_cons in H2 as [?|?]; done.
Qed.

(** writing a value at the matching positions rewrites the matching rows *)
Lemma alter_positions P (f : row → row) (d : list row) :
  (∀ x, f (f x) = f x) →
  foldl (λ d p, alter f p d) d (positions P d) = (λ r, if P r then f r else r) <$> d.
Proof.
  intros Hf. apply list_eq. intros i.
  rewrite lookup_foldl_alter by done. rewrite list_lookup_fmap.
  case_bool_decide as Hin.
  - apply elem_of_positions in Hin as (r & Hr & HP). rewrite Hr. simpl. by rewrite HP.
  - destruct (d !! i) as [r|] eqn:Hr; [|done]. simpl.
    destruct (P r) eqn:HP; [|done]. destruct Hin. apply elem_of_positions. eauto.
Qed.

Lemma insert_idemp {A} (i : nat) (v : A) (l : list A) : <[i := v]> (<[i := v]> l) = <[i := v]> l.
Proof. apply list_insert_insert_eq. Qed.


Lemma set_second_alt column name v d :
  (λ r, if satisfies 0 (eq_cond column name) r then <[1%nat := v]> r else r) <$> d
  = set_second name v d.
Proof.
  unfold set_second. apply list_fmap_ext. intros i r _.
  pose proof (satisfies_eq_cond column name r) as Hs.
  destruct (satisfies 0 (eq_cond column name) r); case_decide; try done.
  - destruct H. by apply Hs.
  - by apply Hs in H.
Qed.

Section Select.
Context `{IndexStructures}.


Lemma select_pid name d :
_select_where "pid" (Some (eq_cond "table_name" name)) false None false None None None
  (locks_table d)
= Ok (mkTable "meta_locks" ["pid"] [TInt] None None None ((λ r, [cell 1 r]) <$> records name d)).
Proof.
unfold _select_where, candidate_rows, matching_positions. simpl.
by rewrite rows_at_positions, satisfied_records.
Qed.

Lemma insert_lock_record name pid d :
_insert [VStr name; VInt pid; VStr "x"] [] (locks_table d)
= (Ok tt, locks_table (d ++ [lock_record name pid])).
Proof. reflexivity. Qed.

Lemma delete_lock_records name d :
_delete_where (eq_cond "table_name" name) (locks_table d)
= (Ok (positions (satisfies 0 (eq_cond "table_name" name)) d), locks_table (others name d)).
Proof.
unfold _delete_where, matching_positions. simpl.
by rewrite rows_off_positions, unsatisfied_records.
Qed.

Lemma select_stack name d :
_select_where "*" (Some (eq_cond "table_name" name)) false None false None None None
  (stack_table d)
= Ok (stack_table ((λ r, [cell 0 r; cell 1 r]) <$> records name d)).
Proof.
unfold _select_where, candidate_rows, matching_positions. simpl.
by rewrite rows_at_positions, satisfied_records.
Qed.

End Select.

Lemma insert_stack_row name d :
  _insert [VStr name; VList []] [] (stack_table d)
  = (Ok tt, stack_table (d ++ [[VStr name; VList []]])).
Proof. reflexivity. Qed.

Lemma update_stack_row name l d :
  _update_rows (VList l) "indexes" (eq_cond "table_name" name) (stack_table d)
  = (Ok tt, stack_table (set_second name (VList l) d)).
Proof.
  unfold _update_rows, matching_positions. simpl.
  rewrite update_loop_unchecked.
  rewrite alter_positions by (intros; apply insert_idemp).
  by rewrite set_second_alt.
Qed.

Lemma insert_length_row name d :
  _insert [VStr name; VInt 0] [] (length_table d)
  = (Ok tt, length_table (d ++ [[VStr name; VInt 0]])).
Proof. reflexivity. Qed.

Lemma update_length_row name n d :
  _update_rows (VInt n) "no_of_rows" (eq_cond "table_name" name) (length_table d)
  = (Ok tt, length_table (set_second name (VInt n) d)).
Proof.
  unfold _update_rows, matching_positions. simpl.
  rewrite update_loop_unchecked.
  rewrite alter_positions by (intros; apply insert_idemp).
  by rewrite set_second_alt.
Qed.

(** ** The lock protocol *)

Section Locks.
Context `{IndexStructures}.
Implicit Types (s : Database) (d : list row) (name : string).

Lemma table_ok name s t : tables s !! name = Some t → table name s = (Ok t, s).
Proof. intros Ht. unfold table. by rewrite Ht. Qed.

Lemma on_table_run {A} name (m : M Table A) s t :
  tables s !! name = Some t →
  on_table name m s = ((m t).1, set_tables (<[name := (m t).2]>) s).
Proof. intros Ht. unfold on_table. rewrite Ht. by destruct (m t). Qed.

Lemma lock_owner_spec name s d :
  tables s !! "meta_locks" = Some (locks_table d) →
  lock_owner name s = (Ok (owner_of name d), s).
Proof.
  intros Ht. unfold lock_owner, bind. rewrite (table_ok _ _ _ Ht).
  unfold lift. rewrite select_pid. unfold ret, owner_of. simpl.
  by destruct (records name d).
Qed.

Lemma reload_locks_spec s d :
  files s !! "meta_locks" = Some (locks_table d) →
  reload_locks s = (Ok tt, remember_locks d s).
Proof. intros Hf. unfold reload_locks. by rewrite Hf. Qed.

Lemma remember_locks_lookup d s :
  tables (remember_locks d s) !! "meta_locks" = Some (locks_table d).
Proof. apply lookup_insert_eq. Qed.

Lemma persist_locks_alt d d' s :
  set_files (<["meta_locks" := locks_table d']>)
    (set_tables (<["meta_locks" := locks_table d']>) (remember_locks d s))
  = persist_locks d' s.
Proof.
  unfold persist_locks, remember_locks, set_files, set_tables. simpl.
  by rewrite insert_insert_eq.
Qed.

Lemma lock_table_run name s d :
  Py.is_meta name = false →
  name ∈ dom (tables s) →
  files s !! "meta_locks" = Some (locks_table d) →
  lock_table name "x" s =
    match owner_of name d with
    | None => (Ok (Some true), persist_locks (d ++ [lock_record name (getpid s)]) s)
    | Some pid =>
        if decide (pid = VInt (getpid s))
        then (Ok (Some false), remember_locks d s)
        else (Raise (Locked pid), remember_locks d s)
    end.
Proof.
  intros Hmeta Hdom Hf. unfold lock_table, bind at 1, get.
  rewrite Hmeta, (bool_decide_eq_true_2 _ Hdom). simpl.
  unfold bind at 1. rewrite (reload_locks_spec _ _ Hf).
  unfold bind at 1. rewrite (lock_owner_spec _ _ _ (remember_locks_lookup d s)).
  destruct (owner_of name d) as [pid|].
  - destruct (decide (pid = VInt (getpid s))) as [->|Hne].
    + by rewrite bool_decide_eq_true_2.
    + by rewrite bool_decide_eq_false_2.
  - unfold bind. rewrite (on_table_run _ _ _ _ (remember_locks_lookup d s)).
    rewrite insert_lock_record. simpl.
    unfold _save_locks, bind, table. simpl. rewrite lookup_insert_eq.
    unfold modify, ret. by rewrite persist_locks_alt.
Qed.

Lemma others_no_records name d : owner_of name d = None → others name d = d.
Proof.
  unfold owner_of, records, others. intros Hnone.
  destruct (filter _ d) as [|r rs] eqn:Hrs; [|done].
  induction d as [|r d IH]; [done|].
  rewrite filter_cons in Hrs. rewrite filter_cons.
  destruct (decide (cell 0 r = VStr name)); [done|].
  rewrite decide_True by done. f_equal. by apply IH.
Qed.

Lemma records_others name d : records name (others name d) = [].
Proof.
  unfold records, others. induction d as [|r d IH]; [done|].
  rewrite filter_cons. destruct (decide (cell 0 r ≠ VStr name)); [|done].
  rewrite filter_cons. by rewrite decide_False.
Qed.

Lemma unlock_table_run name force s d :
  name ∈ dom (tables s) →
  tables s !! "meta_locks" = Some (locks_table d) →
  unlock_table name force s =
    (if force then (Ok tt, persist_locks (others name d) s)
     else match owner_of name d with
          | None => (Ok tt, persist_locks (others name d) s)
          | Some pid =>
              if decide (pid = VInt (getpid s))
              then (Ok tt, persist_locks (others name d) s)
              else (Raise (Locked pid), s)
          end)
  ∧ owner_of name (others name d) = None
  ∧ (owner_of name d = None → others name d = d).
Proof.
  intros Hdom Ht. split; [|split].
  - assert (∀ s', tables s' = tables s → files s' = files s → attrs s' = attrs s →
              index_files s' = index_files s → getpid s' = getpid s →
              (let! _ := on_table "meta_locks" (_delete_where (eq_cond "table_name" name)) in
               _save_locks) s' = (Ok tt, persist_locks (others name d) s)) as Hrelease.
    { intros s' Htb Hfl Hat Hix Hpid. unfold bind.
      rewrite (on_table_run _ _ s' (locks_table d)) by (by rewrite Htb).
      rewrite delete_lock_records. simpl.
      unfold _save_locks, bind, table. simpl. rewrite lookup_insert_eq.
      unfold modify, persist_locks, remember_locks, set_files, set_tables. simpl.
      by rewrite Htb, Hfl, Hat, Hix, Hpid. }
    unfold unlock_table, bind at 1, get.
    rewrite (bool_decide_eq_true_2 _ Hdom). simpl.
    destruct force; simpl.
    + unfold bind at 1, ret. by apply Hrelease.
    + unfold bind at 1. unfold bind at 1. rewrite (lock_owner_spec _ _ _ Ht).
      destruct (owner_of name d) as [pid|].
      * destruct (decide (pid = VInt (getpid s))) as [->|Hne].
        -- rewrite bool_decide_eq_true_2 by done. unfold ret. by apply Hrelease.
        -- by rewrite bool_decide_eq_false_2.
      * unfold ret. by apply Hrelease.
  - unfold owner_of. by rewrite records_others.
  - apply others_no_records.
Qed.

Lemma is_locked_run :
  (∀ table_name s, (is_locked table_name s).1 ≠ Ok true)
  ∧ (∀ name s d,
       Py.is_meta name = false →
       files s !! "meta_locks" = Some (locks_table d) →
       is_locked (ByName name) s =
         match owner_of name d with
         | None => (Ok false, remember_locks d s)
         | Some pid =>
             if decide (pid = VInt (getpid s))
             then (Ok false, remember_locks d s)
             else (Raise (Locked pid), remember_locks d s)
         end).
Proof.
  split.
  - intros [name|t] s; [|discriminate]. unfold is_locked.
    destruct (Py.is_meta name); [discriminate|].
    unfold bind, get. destruct (reload_locks s) as [[[]|e] s1]; [|discriminate].
    destruct (lock_owner name s1) as [[[pid|]|e] s2]; try discriminate.
    destruct (negb _); discriminate.
  - intros name s d Hmeta Hf. unfold is_locked. rewrite Hmeta.
    unfold bind at 1. rewrite (reload_locks_spec _ _ Hf).
    unfold bind at 1, get. unfold bind.
    rewrite (lock_owner_spec _ _ _ (remember_locks_lookup d s)).
    destruct (owner_of name d) as [pid|]; [|done].
    destruct (decide (pid = VInt (getpid s))) as [->|Hne].
    + by rewrite bool_decide_eq_true_2.
    + by rewrite bool_decide_eq_false_2.
Qed.
End Locks.

(** ** Loading and saving *)

Section LoadSave.
Context `{IndexStructures}.
Implicit Types (s : Database).

Lemma load_database_run s : load_database s = (Ok tt, loaded s).
Proof. reflexivity. Qed.

(** what a name is bound to after loading a list of files: the last
    file loaded under that name, or what it was bound to before *)
Lemma lookup_load (l : list (string * Table)) (tb : gmap string Table) n :
  foldl (λ tb (f : string * Table), <[loaded_name (f.1 ++ ".pkl") := f.2]> tb) tb l !! n
  = match last (filter (λ f : string * Table, loaded_name (f.1 ++ ".pkl") = n) l) with
    | Some f => Some f.2
    | None => tb !! n
    end.
Proof.
  induction l as [|f l IH] using rev_ind; [done|].
  rewrite foldl_app, filter_app. simpl. rewrite filter_cons, filter_nil.
  destruct (decide (loaded_name (f.1 ++ ".pkl") = n)) as [<-|Hne].
  - by rewrite lookup_insert_eq, last_snoc.
  - by rewrite lookup_insert_ne, app_nil_r.
Qed.

Lemma loaded_idemp s : loaded (loaded s) = loaded s.
Proof.
  unfold loaded, exec, load_database, modify, set_tables. simpl. f_equal.
  apply map_eq. intros n. rewrite !lookup_load.
  by destruct (last _).
Qed.

Lemma reload_absorbed {A} (rest : DB A) s :
  (load_database ;; rest) (loaded s) = (load_database ;; rest) s.
Proof. unfold bind. by rewrite !load_database_run, loaded_idemp. Qed.


Lemma saves_save_database : saves save_database.
Proof.
  intros s s' [= <-]. simpl. apply map_union_subseteq_l.
Qed.

Lemma saves_bind {A} (m : DB A) (k : A → DB unit) :
  (∀ a, saves (k a)) → saves (bind m k).
Proof.
  intros Hk s s'. unfold bind. destruct (m s) as [[a|e] s1]; [|discriminate].
  apply Hk.
Qed.

Lemma saves_raise e : saves (raise e).
Proof. intros s s'. discriminate. Qed.

Lemma reload_absorbed_and_saved (o : operation) s :
  (is_create o = false →
     (run o (loaded s)).1 = (run o s).1
     ∧ ((run o s).1 = Ok tt → exec (run o) (loaded s) = exec (run o) s))
  ∧ ((run o s).1 = Ok tt → tables (exec (run o) s) ⊆ files (exec (run o) s)).
Proof.
  split.
  - intros Hcreate.
    assert (run o (loaded s) = run o s ∨ ∃ e, ∀ s', run o s' = (Raise e, s')) as [Heq|[e He]].
    { destruct o; try discriminate; simpl; try (left; apply reload_absorbed).
      unfold update. destruct (Py.split _ _) as [|? [|? [|]]];
        try (right; by exists ValueError).
      left. apply reload_absorbed. }
    + unfold exec. by rewrite Heq.
    + rewrite !He. split; [done|discriminate].
  - assert (saves (run o)) as Hsaves.
    { destruct o; simpl; try (repeat (apply saves_bind; intros); apply saves_save_database).
      unfold update. destruct (Py.split _ _) as [|? [|? [|]]]; try apply saves_raise.
      repeat (apply saves_bind; intros). apply saves_save_database. }
    intros Hok. apply (Hsaves s). unfold exec.
    destruct (run o s) as [r s']. simpl in *. by subst r.
Qed.
End LoadSave.

(** ** What an operation leaves of the lock table *)

Section Frame.
Context `{IndexStructures}.
Implicit Types (s : Database) (d : list row) (name : string).


Lemma preserves_bind {A B} I (m : DB A) (k : A → DB B) :
  preserves I m → (∀ a, preserves I (k a)) → preserves I (bind m k).
Proof.
  intros Hm Hk s Hs. unfold bind. specialize (Hm s Hs).
  destruct (m s) as [[a|e] s1]; simpl in *; [by apply Hk|done].
Qed.

Lemma preserves_ret {A} I (a : A) : preserves I (ret a).
Proof. by intros s. Qed.
Lemma preserves_raise {A} I e : preserves I (raise (A := A) e).
Proof. by intros s. Qed.
Lemma preserves_get I : preserves I get.
Proof. by intros s. Qed.
Lemma preserves_lift {A} I (r : result A) : preserves I (lift r).
Proof. by intros s. Qed.
Lemma preserves_from_option {A} I e (o : option A) : preserves I (from_option e o).
Proof. by destruct o; intros s. Qed.
Lemma preserves_table I name : preserves I (table name).
Proof. intros s Hs. unfold table. by destruct (tables s !! name). Qed.

Lemma preserves_when I b (m : DB unit) : preserves I m → preserves I (when b m).
Proof. intros Hm. destruct b; [done|apply preserves_ret]. Qed.

Lemma preserves_for_each {A} I (xs : list A) (body : A → DB unit) :
  (∀ x, preserves I (body x)) → preserves I (for_each xs body).
Proof.
  intros Hbody. induction xs as [|x xs IH]; [apply preserves_ret|].
  simpl. apply preserves_bind; [apply Hbody|done].
Qed.

Lemma preserves_try_except {A} I (m : DB A) (h : exn → DB A) :
  preserves I m → (∀ e, preserves I (h e)) → preserves I (try_except m h).
Proof.
  intros Hm Hh s Hs. unfold try_except. specialize (Hm s Hs).
  destruct (m s) as [[a|e] s1]; simpl in *; [done|by apply Hh].
Qed.


Lemma preserves_calculate_tables_statistics I : preserves I calculate_tables_statistics.
Proof.
  unfold calculate_tables_statistics. apply preserves_bind; [apply preserves_get|intros s0].
  destruct (bool_decide _); [apply preserves_ret|].
  apply preserves_for_each. intros kt. apply preserves_for_each. intros col_name.
  apply preserves_bind; [apply preserves_lift|intros values].
  destruct (forallb _ _); [apply preserves_ret|apply preserves_raise].
Qed.

Lemma pure_calculate_tables_statistics s : (calculate_tables_statistics s).2 = s.
Proof. by apply (preserves_calculate_tables_statistics (λ s', s' = s)). Qed.

Lemma preserves_on_table {A} t name (m : M Table A) :
  name ≠ "meta_locks" → preserves (locks_are t) (on_table name m).
Proof.
  intros Hne s [Ht Hf]. unfold on_table.
  destruct (tables s !! name); [|done]. destruct (m _) as [r t'].
  split; [|done]. simpl. by rewrite lookup_insert_ne.
Qed.

Lemma preserves_save_database t : preserves (locks_are t) save_database.
Proof.
  intros s [Ht Hf]. split; [done|]. simpl.
  by apply lookup_union_Some_l.
Qed.


Ltac preserve :=
  repeat first
    [ apply preserves_ret | apply preserves_raise | apply preserves_get
    | apply preserves_lift | apply preserves_from_option | apply preserves_table
    | apply preserves_save_database
    | apply preserves_on_table; done
    | apply preserves_when
    | apply preserves_for_each; intros
    | apply preserves_try_except; [|intros]
    | apply preserves_bind; [|intros] ].


Lemma preserves__get_insert_stack_for_table I name :
  preserves I (_get_insert_stack_for_table name).
Proof. unfold _get_insert_stack_for_table. preserve. Qed.



Lemma table_absent name s :
  name ∉ dom (tables s) → table name s = (Raise (KeyError name), s).
Proof. intros Hdom. apply not_elem_of_dom in Hdom. unfold table. by rewrite Hdom. Qed.


Lemma lock_table_absent name s :
  name ∉ dom (tables s) → lock_table name "x" s = (Ok None, s).
Proof.
  intros Hdom. unfold lock_table, bind, get.
  rewrite (bool_decide_eq_false_2 _ Hdom). simpl. by rewrite orb_true_r.
Qed.

Lemma files_loaded s : files (loaded s) = files s.
Proof. reflexivity. Qed.
Lemma getpid_loaded s : getpid (loaded s) = getpid s.
Proof. reflexivity. Qed.




End Frame.

(** ** The meta tables after an operation *)

Lemma stack_of_app name d extra v :
  stack_of name d = Some v → stack_of name (d ++ extra) = Some v.
Proof.
  unfold stack_of, records. rewrite filter_app.
  by destruct (filter _ d).
Qed.

Lemma stack_of_set_second name v d :
  Forall (λ r : row, length r = 2%nat) d →
  is_Some (stack_of name d) →
  stack_of name (set_second name v d) = Some v.
Proof.
  unfold stack_of, records, set_second. intros Hwidth.
  induction Hwidth as [|r d Hr _ IH]; [by intros [? ?]|].
  rewrite fmap_cons, !filter_cons.
  destruct (decide (cell 0 r = VStr name)) as [Hname|Hname].
  - intros _. destruct r as [|a [|b [|]]]; try done. simpl in *.
    by rewrite decide_True.
  - by rewrite decide_False.
Qed.

Lemma set_second_width name v d :
  Forall (λ r : row, length r = 2%nat) d →
  Forall (λ r : row, length r = 2%nat) (set_second name v d).
Proof.
  unfold set_second. intros Hwidth. apply Forall_fmap.
  eapply Forall_impl; [done|]. intros r Hr. simpl.
  case_decide; [|done]. etrans; [apply length_insert|done].
Qed.

Section Meta.
Context `{IndexStructures}.
Implicit Types (s : Database) (d : list row) (name : string).

Lemma set_tables_id s k t : tables s !! k = Some t → set_tables (<[k := t]>) s = s.
Proof. intros Ht. destruct s. unfold set_tables. simpl in *. by rewrite insert_id. Qed.

Lemma set_tables_twice s k (t t' : Table) :
  set_tables (<[k := t']>) (set_tables (<[k := t]>) s) = set_tables (<[k := t']>) s.
Proof. unfold set_tables. simpl. by rewrite insert_insert_eq. Qed.

(** a loop whose body rewrites one table of the registry rewrites that
    table *)
Lemma for_each_rewrites {A} (P : Table → Prop) k (xs : list A) (body : A → DB unit) :
  (∀ x s t, tables s !! k = Some t → P t →
     ∃ t', body x s = (Ok tt, set_tables (<[k := t']>) s) ∧ P t') →
  ∀ s t, tables s !! k = Some t → P t →
    ∃ t', for_each xs body s = (Ok tt, set_tables (<[k := t']>) s) ∧ P t'.
Proof.
  intros Hbody. induction xs as [|x xs IH]; intros s t Ht HP.
  - exists t. by rewrite set_tables_id.
  - destruct (Hbody x s t Ht HP) as (t1 & Hrun & HP1).
    destruct (IH (set_tables (<[k := t1]>) s) t1) as (t2 & Hrest & HP2);
      [apply lookup_insert_eq|done|].
    exists t2. split; [|done]. simpl. unfold bind. rewrite Hrun, Hrest.
    by rewrite set_tables_twice.
Qed.

Lemma _update_meta_length_spec s dl :
  tables s !! "meta_length" = Some (length_table dl) →
  ∃ dl', _update_meta_length s
         = (Ok tt, set_tables (<["meta_length" := length_table dl']>) s).
Proof.
  intros Ht. unfold _update_meta_length, bind at 1, get.
  destruct (for_each_rewrites (λ t, ∃ d, t = length_table d) "meta_length"
              (non_meta_tables s)
              (λ t,
                 let! meta_length := table "meta_length" in
                 let! known := lift (column_by_name "table_name" meta_length) in
                 when (negb (bool_decide (VStr (_name t) ∈ known)))
                   (on_table "meta_length" (_insert [VStr (_name t); VInt 0] [])) ;;
                 on_table "meta_length"
                   (_update_rows
                      (VInt (Z.of_nat
                         (length (filter (λ r, existsb truthy r = true) (data t)))))
                      "no_of_rows" (eq_cond "table_name" (_name t))))
              ) with s (length_table dl) as (t' & Hrun & [dl' ->]); [|done|by eexists|].
  - clear. intros t s ? Ht [d ->].
    unfold bind at 1. rewrite (table_ok _ _ _ Ht).
    unfold bind at 1, lift. simpl.
    unfold bind at 1.
    destruct (negb _); simpl.
    + rewrite (on_table_run _ _ _ _ Ht), insert_length_row. simpl.
      rewrite (on_table_run _ _ _ (length_table (d ++ [[VStr (_name t); VInt 0]])))
        by apply lookup_insert_eq.
      rewrite update_length_row. simpl. rewrite set_tables_twice. eauto.
    + unfold ret. rewrite (on_table_run _ _ _ _ Ht), update_length_row. simpl. eauto.
  - exists dl'. apply Hrun.
Qed.

Lemma _update_meta_insert_stack_spec s ds :
  tables s !! "meta_insert_stack" = Some (stack_table ds) →
  ∃ extra, _update_meta_insert_stack s
           = (Ok tt, set_tables (<["meta_insert_stack" := stack_table (ds ++ extra)]>) s)
           ∧ Forall (λ r : row, length r = 2%nat) extra.
Proof.
  intros Ht. unfold _update_meta_insert_stack, bind at 1, get.
  destruct (for_each_rewrites
              (λ t, ∃ extra, t = stack_table (ds ++ extra)
                             ∧ Forall (λ r : row, length r = 2%nat) extra)
              "meta_insert_stack" (non_meta_tables s)
              (λ t,
                 let! meta_insert_stack := table "meta_insert_stack" in
                 let! known := lift (column_by_name "table_name" meta_insert_stack) in
                 when (negb (bool_decide (VStr (_name t) ∈ known)))
                   (on_table "meta_insert_stack" (_insert [VStr (_name t); VList []] [])))
              ) with s (stack_table ds) as (t' & Hrun & (extra & -> & Hwidth)); [|done| |].
  - clear. intros t s ? Ht (extra & -> & Hwidth).
    unfold bind at 1. rewrite (table_ok _ _ _ Ht).
    unfold bind at 1, lift. simpl.
    destruct (negb _); simpl.
    + rewrite (on_table_run _ _ _ _ Ht), insert_stack_row. simpl.
      eexists. split; [done|]. exists (extra ++ [[VStr (_name t); VList []]])%list.
      rewrite <- app_assoc. split; [done|].
      apply Forall_app. split; [done|]. by apply Forall_singleton.
    + unfold ret. eexists. rewrite set_tables_id by done. split; [done|]. eauto.
  - exists []. by rewrite app_nil_r.
  - exists extra. split; [apply Hrun|done].
Qed.

Lemma _update_spec s dl ds :
  tables s !! "meta_length" = Some (length_table dl) →
  tables s !! "meta_insert_stack" = Some (stack_table ds) →
  ∃ dl' extra,
    _update s = (Ok tt, set_tables (λ tb, <["meta_insert_stack" := stack_table (ds ++ extra)]>
                                           (<["meta_length" := length_table dl']> tb)) s)
    ∧ Forall (λ r : row, length r = 2%nat) extra.
Proof.
  intros Hl Hs. destruct (_update_meta_length_spec s dl Hl) as [dl' Hlen].
  destruct (_update_meta_insert_stack_spec
              (set_tables (<["meta_length" := length_table dl']>) s) ds)
    as (extra & Hstack & Hwidth); [simpl; by rewrite lookup_insert_ne|].
  exists dl', extra. split; [|done].
  unfold _update, bind. by rewrite Hlen, Hstack.
Qed.

Lemma _get_insert_stack_for_table_spec name s ds :
  tables s !! "meta_insert_stack" = Some (stack_table ds) →
  _get_insert_stack_for_table name s
  = (match stack_of name ds with Some v => Ok v | None => Raise IndexError end, s).
Proof.
  intros Ht. unfold _get_insert_stack_for_table, bind at 1.
  rewrite (table_ok _ _ _ Ht). unfold bind at 1, lift. rewrite select_stack.
  unfold bind, lift. simpl. unfold stack_of.
  by destruct (records name ds).
Qed.

Lemma _update_meta_insert_stack_for_tb_spec name l s ds :
  tables s !! "meta_insert_stack" = Some (stack_table ds) →
  _update_meta_insert_stack_for_tb name (VList l) s
  = (Ok tt, set_tables (<["meta_insert_stack" := stack_table (set_second name (VList l) ds)]>) s).
Proof.
  intros Ht. unfold _update_meta_insert_stack_for_tb.
  by rewrite (on_table_run _ _ _ _ Ht), update_stack_row.
Qed.
End Meta.

(** ** The lock step and the release step *)



Lemma others_released name pid dk :
  owner_of name dk = None → others name (dk ++ [lock_record name pid]) = dk.
Proof.
  intros Hfree. unfold others. rewrite filter_app.
  fold (others name dk). rewrite (others_no_records _ _ Hfree).
  rewrite filter_cons, filter_nil. rewrite decide_False; [apply app_nil_r|].
  intros Hne. by apply Hne.
Qed.

Lemma owner_acquired name pid dk :
  owner_of name dk = None → owner_of name (dk ++ [lock_record name pid]) = Some (VInt pid).
Proof.
  unfold owner_of, records. intros Hfree. rewrite filter_app.
  destruct (filter _ dk); [|done]. simpl.
  rewrite filter_cons, decide_True; done.
Qed.

Section Steps.
Context `{IndexStructures}.
Implicit Types (s : Database) (d : list row) (name : string).

Lemma persist_locks_id d s :
  tables s !! "meta_locks" = Some (locks_table d) →
  files s !! "meta_locks" = Some (locks_table d) →
  persist_locks d s = s.
Proof.
  intros Ht Hf. destruct s. unfold persist_locks, remember_locks, set_files, set_tables.
  simpl in *. by rewrite !insert_id.
Qed.

Lemma lock_step name s dk :
  Py.is_meta name = false →
  name ∈ dom (tables s) →
  files s !! "meta_locks" = Some (locks_table dk) →
  owner_of name dk = None ∨ owner_of name dk = Some (VInt (getpid s)) →
  ∃ lock_ownership dk',
    lock_table name "x" s = (Ok lock_ownership, persist_locks dk' s)
    ∧ lock_outcome name (getpid s) dk lock_ownership dk'.
Proof.
  intros Hmeta Hdom Hf Howner.
  rewrite (lock_table_run name s dk Hmeta Hdom Hf).
  destruct Howner as [Hfree|Hown]; [rewrite Hfree|rewrite Hown].
  - eexists _, _. split; [done|]. by left.
  - rewrite decide_True by done. exists (Some false), dk. split; [|by right].
    f_equal. unfold persist_locks. destruct s. unfold remember_locks, set_files, set_tables.
    simpl in *. by rewrite (insert_id _ _ _ Hf).
Qed.

Lemma release_step name s dk lock_ownership dk' :
  lock_outcome name (getpid s) dk lock_ownership dk' →
  name ∈ dom (tables s) →
  tables s !! "meta_locks" = Some (locks_table dk') →
  files s !! "meta_locks" = Some (locks_table dk') →
  release_if_owner lock_ownership name s = (Ok tt, persist_locks dk s).
Proof.
  intros [(-> & Hfree & ->)|[-> ->]] Hdom Ht Hf; unfold release_if_owner; simpl.
  - destruct (unlock_table_run name false s _ Hdom Ht) as [-> _].
    rewrite (owner_acquired _ _ _ Hfree), decide_True by done.
    by rewrite (others_released _ _ _ Hfree).
  - unfold ret. by rewrite persist_locks_id.
Qed.
End Steps.

(** ** Deleting and inserting rows *)

Lemma delete_where_frees c t deleted :
  Py.is_meta (_name t) = false →
  matching_positions t c = Ok deleted →
  _delete_where c t = (Ok deleted, freed deleted t).
Proof. intros Hmeta Hpos. unfold _delete_where. by rewrite Hpos, Hmeta. Qed.

Lemma not_meta_key name k : Py.is_meta name = false → Py.is_meta k = true → name ≠ k.
Proof. intros Hname Hk ->. congruence. Qed.

Lemma insert_reuses (r r' : row) stack p t :
  convert_row (column_types t) r = Some r' →
  violates t r' (Some p) = false →
  last stack = Some p →
  (p < length (data t))%nat →
  _insert r stack t = (Ok tt, set_data (<[p := r']> (data t)) t).
Proof.
  intros Hconv Hviol Hlast Hp. unfold _insert. rewrite Hconv, Hlast, Hviol.
  by rewrite (proj2 (Nat.ltb_lt _ _) Hp).
Qed.

Section Operations.
Context `{IndexStructures}.
Implicit Types (s : Database) (d : list row) (name : string).

Lemma delete_from_frees name c s t dk dl ds old deleted :
  Py.is_meta name = false →
  tables (loaded s) !! name = Some t →
  _name t = name →
  files s !! "meta_locks" = Some (locks_table dk) →
  owner_of name dk = None ∨ owner_of name dk = Some (VInt (getpid s)) →
  tables (loaded s) !! "meta_length" = Some (length_table dl) →
  tables (loaded s) !! "meta_insert_stack" = Some (stack_table ds) →
  Forall (λ r : row, length r = 2%nat) ds →
  stack_of name ds = Some (VList old) →
  matching_positions t c = Ok deleted →
  ∃ s' ds',
    delete_from name c s = (Ok tt, s')
    ∧ tables s' !! name = Some (freed deleted t)
    ∧ tables s' !! "meta_insert_stack" = Some (stack_table ds')
    ∧ Forall (λ r : row, length r = 2%nat) ds'
    ∧ stack_of name ds' = Some (VList (old ++ deleted))
    ∧ tables s' ⊆ files s'
    ∧ files s' !! "meta_locks" = Some (locks_table dk).
Proof.
  intros Hmeta Ht Hname Hf Howner Hl Hs Hwidth Hstack Hpos.
  pose proof (not_meta_key name "meta_locks" Hmeta eq_refl) as Hne1.
  pose proof (not_meta_key name "meta_length" Hmeta eq_refl) as Hne2.
  pose proof (not_meta_key name "meta_insert_stack" Hmeta eq_refl) as Hne3.
  set (s1 := loaded s) in *.
  assert (name ∈ dom (tables s1)) as Hdom1 by (apply elem_of_dom; eauto).
  destruct (lock_step name s1 dk Hmeta Hdom1 Hf Howner) as (lo & dk' & Hlock & Hout).
  unfold delete_from, bind at 1. rewrite load_database_run. fold s1.
  unfold bind at 1. rewrite Hlock. cbv beta iota.
  set (s2 := persist_locks dk' s1).
  assert (tables s2 !! name = Some t) as Ht2 by (simpl; by rewrite lookup_insert_ne).
  unfold bind at 1. rewrite (on_table_run _ _ _ _ Ht2).
  rewrite (delete_where_frees c t deleted) by (done || by rewrite Hname).
  cbn [fst snd].
  set (s3 := set_tables (<[name := freed deleted t]>) s2).
  unfold bind at 1.
  rewrite (release_step name s3 dk lo dk' Hout);
    [|apply elem_of_dom; simpl; rewrite lookup_insert_eq; eauto
     |simpl; rewrite lookup_insert_ne by done; apply lookup_insert_eq
     |simpl; apply lookup_insert_eq].
  set (s4 := persist_locks dk s3).
  destruct (_update_spec s4 dl ds) as (dl' & extra & Hupd & Hextra).
  { simpl. rewrite !lookup_insert_ne by done. done. }
  { simpl. rewrite !lookup_insert_ne by done. done. }
  unfold bind at 1. rewrite Hupd.
  set (s5 := set_tables _ s4).
  unfold bind at 1, save_database at 1, modify.
  set (s6 := set_files (λ f, tables s5 ∪ f) s5).
  rewrite Hmeta. unfold when, negb, bind at 1, _add_to_insert_stack, bind at 1.
  rewrite (_get_insert_stack_for_table_spec name s6 (ds ++ extra));
    [|simpl; apply lookup_insert_eq].
  rewrite (stack_of_app _ _ _ _ Hstack).
  rewrite (_update_meta_insert_stack_for_tb_spec name _ s6 (ds ++ extra));
    [|simpl; apply lookup_insert_eq].
  unfold save_database, modify.
  eexists _, _. split; [reflexivity|].
  split; [|split; [|split; [|split; [|split]]]].
  - simpl. rewrite !lookup_insert_ne by done. apply lookup_insert_eq.
  - simpl. apply lookup_insert_eq.
  - apply set_second_width. apply Forall_app. split; [done|done].
  - apply stack_of_set_second.
    + apply Forall_app. by split.
    + rewrite (stack_of_app _ _ _ _ Hstack). eauto.
  - simpl. apply map_union_subseteq_l.
  - simpl. apply lookup_union_Some_l. rewrite !lookup_insert_ne by done.
    apply lookup_insert_eq.
Qed.

Lemma insert_into_reuses name row_str s t dk dl ds stack p r :
  Py.is_meta name = false →
  tables (loaded s) !! name = Some t →
  files s !! "meta_locks" = Some (locks_table dk) →
  owner_of name dk = None ∨ owner_of name dk = Some (VInt (getpid s)) →
  tables (loaded s) !! "meta_length" = Some (length_table dl) →
  tables (loaded s) !! "meta_insert_stack" = Some (stack_table ds) →
  Forall (λ r : row, length r = 2%nat) ds →
  stack_of name ds = Some (VList stack) →
  last stack = Some p →
  (p < length (data t))%nat →
  convert_row (column_types t) (VStr <$> Py.split "," (Py.strip row_str)) = Some r →
  violates t r (Some p) = false →
  ∃ s' ds',
    insert_into name row_str s = (Ok tt, s')
    ∧ tables s' !! name = Some (set_data (<[p := r]> (data t)) t)
    ∧ tables s' !! "meta_insert_stack" = Some (stack_table ds')
    ∧ Forall (λ r : row, length r = 2%nat) ds'
    ∧ stack_of name ds' = Some (VList (removelast stack))
    ∧ tables s' ⊆ files s'
    ∧ files s' !! "meta_locks" = Some (locks_table dk).
Proof.
  intros Hmeta Ht Hf Howner Hl Hs Hwidth Hstack Hlast Hp Hconv Hviol.
  pose proof (not_meta_key name "meta_locks" Hmeta eq_refl) as Hne1.
  pose proof (not_meta_key name "meta_length" Hmeta eq_refl) as Hne2.
  pose proof (not_meta_key name "meta_insert_stack" Hmeta eq_refl) as Hne3.
  set (s1 := loaded s) in *.
  assert (name ∈ dom (tables s1)) as Hdom1 by (apply elem_of_dom; eauto).
  destruct (lock_step name s1 dk Hmeta Hdom1 Hf Howner) as (lo & dk' & Hlock & Hout).
  unfold insert_into, bind at 1. rewrite load_database_run. fold s1.
  unfold bind at 1. rewrite Hlock.
  set (s2 := persist_locks dk' s1).
  assert (tables s2 !! name = Some t) as Ht2 by (simpl; by rewrite lookup_insert_ne).
  unfold bind at 1.
  rewrite (_get_insert_stack_for_table_spec name s2 ds)
    by (simpl; by rewrite lookup_insert_ne).
  rewrite Hstack.
  unfold bind at 1, try_except. rewrite (on_table_run _ _ _ _ Ht2).
  rewrite (insert_reuses _ r stack p t Hconv Hviol Hlast Hp). cbn [fst snd].
  set (s3 := set_tables (<[name := set_data (<[p := r]> (data t)) t]>) s2).
  unfold bind at 1.
  rewrite (_update_meta_insert_stack_for_tb_spec name _ s3 ds)
    by (simpl; rewrite !lookup_insert_ne by done; done).
  set (s4 := set_tables _ s3).
  unfold bind at 1.
  rewrite (release_step name s4 dk lo dk' Hout);
    [|apply elem_of_dom; simpl; rewrite lookup_insert_ne by done;
      rewrite lookup_insert_eq; eauto
     |simpl; rewrite !lookup_insert_ne by done; apply lookup_insert_eq
     |simpl; apply lookup_insert_eq].
  set (s5 := persist_locks dk s4).
  destruct (_update_spec s5 dl (set_second name (VList (removelast stack)) ds))
    as (dl' & extra & Hupd & Hextra).
  { simpl. rewrite !lookup_insert_ne by done. done. }
  { simpl. rewrite !lookup_insert_ne by done. apply lookup_insert_eq. }
  unfold bind at 1. rewrite Hupd.
  unfold save_database, modify.
  eexists _, _. split; [reflexivity|].
  split; [|split; [|split; [|split; [|split]]]].
  - simpl. rewrite !lookup_insert_ne by done. apply lookup_insert_eq.
  - simpl. apply lookup_insert_eq.
  - apply Forall_app. split; [by apply set_second_width|done].
  - apply stack_of_app, stack_of_set_second; [done|]. rewrite Hstack. eauto.
  - simpl. apply map_union_subseteq_l.
  - simpl. apply lookup_union_Some_l. rewrite !lookup_insert_ne by done.
    apply lookup_insert_eq.
Qed.

(** A row that the table rejects is not inserted, and the lock taken
    for it is given back: the files are as they were. *)
Lemma insert_into_rejected name row_str s t dk ds stack e :
  Py.is_meta name = false →
  tables (loaded s) !! name = Some t →
  files s !! "meta_locks" = Some (locks_table dk) →
  owner_of name dk = None ∨ owner_of name dk = Some (VInt (getpid s)) →
  tables (loaded s) !! "meta_insert_stack" = Some (stack_table ds) →
  stack_of name ds = Some (VList stack) →
  (_insert (VStr <$> Py.split "," (Py.strip row_str)) stack t).1 = Raise e →
  (insert_into name row_str s).1 = Raise e
  ∧ files (exec (insert_into name row_str) s) = files s.
Proof.
  intros Hmeta Ht Hf Howner Hs Hstack Hreject.
  pose proof (not_meta_key name "meta_locks" Hmeta eq_refl) as Hne1.
  set (s1 := loaded s) in *.
  assert (name ∈ dom (tables s1)) as Hdom1 by (apply elem_of_dom; eauto).
  destruct (lock_step name s1 dk Hmeta Hdom1 Hf Howner) as (lo & dk' & Hlock & Hout).
  cut (∃ s', insert_into name row_str s = (Raise e, s') ∧ files s' = files s).
  { intros (s' & Hrun & Hfiles). unfold exec. by rewrite Hrun. }
  unfold insert_into, bind at 1. rewrite load_database_run. fold s1.
  unfold bind at 1. rewrite Hlock.
  set (s2 := persist_locks dk' s1).
  assert (tables s2 !! name = Some t) as Ht2 by (simpl; by rewrite lookup_insert_ne).
  unfold bind at 1.
  rewrite (_get_insert_stack_for_table_spec name s2 ds)
    by (simpl; by rewrite lookup_insert_ne).
  rewrite Hstack.
  unfold bind at 1, try_except. rewrite (on_table_run _ _ _ _ Ht2).
  rewrite Hreject.
  set (s3 := set_tables _ s2).
  unfold bind at 1.
  rewrite (release_step name s3 dk lo dk' Hout);
    [|apply elem_of_dom; simpl; rewrite lookup_insert_eq; eauto
     |simpl; rewrite !lookup_insert_ne by done; apply lookup_insert_eq
     |simpl; apply lookup_insert_eq].
  eexists. split; [reflexivity|].
  subst s3 s2. simpl. rewrite insert_insert_eq. by apply insert_id.
Qed.
End Operations.

(** ** Indexes and joins *)

Section Indexes.
Context `{IndexStructures}.
Implicit Types (s : Database) (t : Table).

Lemma create_index_run index_name table_name column_name index_type s t k i :
  tables s !! table_name = Some t →
  pk t = Some k → pk_idx t = Some i → unique_columns t = None →
  column_name ≠ k →
  ∃ e, create_index index_name table_name column_name index_type s = (Raise e, s)
       ∧ (index_type ∈ ["btree"; "hash"] → e = TypeError).
Proof.
  intros Ht Hpk Hidx Huniq Hne. unfold create_index, bind at 1, get.
  rewrite bool_decide_eq_true_2 by (apply elem_of_dom; eauto). simpl.
  case_bool_decide as Hty; simpl.
  - exists TypeError. split; [|done].
    unfold bind at 1. rewrite (table_ok _ _ _ Ht). rewrite Hidx, Huniq, Hpk. simpl.
    rewrite bool_decide_eq_false_2 by congruence.
    reflexivity.
  - exists (IndexTypeNotSupported index_type). by split.
Qed.

Lemma tombstone_cell r i : is_tombstone r = true → cell i r = VNone.
Proof.
  unfold is_tombstone, cell. intros Hall.
  destruct (r !! i) as [v|] eqn:Hv; [|done]. simpl.
  apply list_elem_of_lookup_2, list_elem_of_In in Hv.
  rewrite forallb_forall in Hall. specialize (Hall v Hv).
  unfold value_eqb in Hall. by apply bool_decide_eq_true in Hall.
Qed.

Lemma construct_loop_entries index_type keys i key idx :
  (key, idx) ∈ index_entries (construct_loop index_type keys i)
  ↔ ((idx, key) ∈ keys ∧ key ≠ VNone) ∨ (key, idx) ∈ index_entries i.
Proof.
  revert i. induction keys as [|[idx' key'] keys IH]; intros i; simpl.
  - rewrite elem_of_nil. tauto.
  - rewrite elem_of_cons. destruct (decide (key' = VNone)) as [->|Hkey].
    + rewrite IH. split; [tauto|]. intros [[[Heq|Hin] Hne]|Hin]; [|tauto..].
      by injection Heq as -> ->.
    + destruct (decide (index_type = "btree")); rewrite IH.
      * rewrite Btree_insert_entries, elem_of_cons. split.
        -- intros [Hin|[Heq|Hin]]; [tauto| |tauto]. injection Heq as -> ->. tauto.
        -- intros [[[Heq|Hin] Hne]|Hin]; [|tauto..]. injection Heq as -> ->. tauto.
      * rewrite EH_add_entries, elem_of_cons. split.
        -- intros [Hin|[Heq|Hin]]; [tauto| |tauto]. injection Heq as -> ->. tauto.
        -- intros [[[Heq|Hin] Hne]|Hin]; [|tauto..]. injection Heq as -> ->. tauto.
Qed.

Lemma _construct_index_run table_name column_name index_name index_type
    s t column :
  tables s !! table_name = Some t →
  column_by_name column_name t = Ok column →
  ∃ i, _construct_index table_name column_name index_name index_type s
         = (Ok tt, set_index_files (<[index_name := i]>) s)
       ∧ (∀ key idx, (key, idx) ∈ index_entries i ↔ column !! idx = Some key ∧ key ≠ VNone)
       ∧ (∀ key idx, idx ∈ index_find key i →
            ∃ r, data t !! idx = Some r ∧ is_tombstone r = false).
Proof.
  intros Ht Hcol. eexists. split; [|split].
  - unfold _construct_index, bind. rewrite (table_ok _ _ _ Ht).
    unfold lift. rewrite Hcol. reflexivity.
  - intros key idx. rewrite construct_loop_entries, elem_of_enumerate.
    destruct (decide (index_type = "btree")).
    + rewrite Btree_entries, elem_of_nil. tauto.
    + rewrite ExtendibleHashing_entries, elem_of_nil. tauto.
  - intros key idx Hfind. apply index_find_entries in Hfind.
    apply construct_loop_entries in Hfind as [[Hin Hkey]|Hin].
    + apply elem_of_enumerate in Hin. unfold column_by_name in Hcol.
      destruct (column_index t column_name) as [ci|]; [|done].
      injection Hcol as <-. rewrite list_lookup_fmap in Hin.
      destruct (data t !! idx) as [r|]; [|done]. injection Hin as Hcell.
      exists r. split; [done|]. destruct (is_tombstone r) eqn:Htomb; [|done].
      by rewrite tombstone_cell in Hcell.
    + destruct (decide (index_type = "btree")).
      * by rewrite Btree_entries, elem_of_nil in Hin.
      * by rewrite ExtendibleHashing_entries, elem_of_nil in Hin.
Qed.
End Indexes.

Section Join.
Context `{JoinAlgorithms}.

Lemma join_inl_on_other_column :
  (_has_index "l" (Some "name") indexed_on_id).1 = Ok false
  ∧ (_has_index "r" (Some "name") indexed_on_id).1 = Ok false
  ∧ (join "inl" (ByName "l") (ByName "r") "name=name" None true indexed_on_id).1
    = Raise (UnboundLocalError "res").
Proof. split; [|split]; vm_compute; reflexivity. Qed.
End Join.

(** ** Failures that write nothing *)

Section RefusedLock.
Context `{IndexStructures}.
Implicit Types (s : Database) (d : list row) (name : string).

(** An operation on the rows of a table that another process has locked
    raises [Locked] before anything is written. *)
Lemma row_operation_refused o name s d pid :
  row_operation_on o = Some name →
  Py.is_meta name = false →
  name ∈ dom (tables (loaded s)) →
  files s !! "meta_locks" = Some (locks_table d) →
  owner_of name d = Some pid →
  pid ≠ VInt (getpid s) →
  ((run o s).1 = Raise (Locked pid) ∨ (run o s).1 = Raise ValueError)
  ∧ files (exec (run o) s) = files s.
Proof.
  intros Ho Hmeta Hdom Hf Howner Hforeign.
  assert (lock_table name "x" (loaded s)
          = (Raise (Locked pid), remember_locks d (loaded s))) as Hlock.
  { rewrite (lock_table_run name (loaded s) d Hmeta Hdom Hf), Howner.
    by rewrite decide_False. }
  unfold exec.
  destruct o; simplify_eq/=.
  - unfold insert_into, bind. rewrite load_database_run, Hlock. by split; [left|].
  - unfold update. destruct (Py.split _ _) as [|? [|? [|]]];
      try (by split; [right|]).
    unfold bind. rewrite load_database_run, Hlock. by split; [left|].
  - unfold delete_from, bind. rewrite load_database_run, Hlock. by split; [left|].
  - unfold sort, bind. rewrite load_database_run, Hlock. by split; [left|].
  - unfold cast, bind. rewrite load_database_run, Hlock. by split; [left|].
Qed.
End RefusedLock.

Section NoIndex.
Context `{JoinAlgorithms}.
Implicit Types (s : Database) (d : list row).

(** With no index at all on either table, the index-nested-loop join
    raises the exception the code has for it. *)
Lemma join_inl_without_index left_name right_name condition save_as return_object
    s d left_table right_table meta_indexes names :
  Py.is_meta left_name = false →
  Py.is_meta right_name = false →
  files s !! "meta_locks" = Some (locks_table d) →
  owner_of left_name d = None ∨ owner_of left_name d = Some (VInt (getpid s)) →
  owner_of right_name d = None ∨ owner_of right_name d = Some (VInt (getpid s)) →
  tables (loaded s) !! left_name = Some left_table →
  tables (loaded s) !! right_name = Some right_table →
  tables (loaded s) !! "meta_indexes" = Some meta_indexes →
  column_by_name "table_name" meta_indexes = Ok names →
  VStr (_name left_table) ∉ names →
  VStr (_name right_table) ∉ names →
  (join "inl" (ByName left_name) (ByName right_name) condition save_as return_object s).1
  = Raise IndexUnavailable.
Proof.
  intros Hmeta_l Hmeta_r Hf Hown_l Hown_r Hl Hr Hmi Hnames Hnot_l Hnot_r.
  pose proof (not_meta_key _ "meta_locks" Hmeta_l eq_refl) as Hne_l.
  pose proof (not_meta_key _ "meta_locks" Hmeta_r eq_refl) as Hne_r.
  assert (∀ name s', Py.is_meta name = false →
            files s' !! "meta_locks" = Some (locks_table d) → getpid s' = getpid s →
            owner_of name d = None ∨ owner_of name d = Some (VInt (getpid s)) →
            is_locked (ByName name) s' = (Ok false, remember_locks d s')) as Hfree.
  { intros name s' Hmeta Hf' Hpid Hown.
    rewrite (proj2 is_locked_run name s' d Hmeta Hf').
    destruct Hown as [->| ->]; [done|]. by rewrite Hpid, decide_True. }
  unfold join, bind at 1. rewrite load_database_run.
  unfold bind at 1. rewrite (Hfree left_name (loaded s)) by done.
  unfold bind at 1, ret at 1.
  rewrite (Hfree right_name (remember_locks d (loaded s))) by done.
  set (s1 := remember_locks d (remember_locks d (loaded s))).
  assert (tables s1 !! left_name = Some left_table) as Hl1
    by (simpl; by rewrite !lookup_insert_ne).
  assert (tables s1 !! right_name = Some right_table) as Hr1
    by (simpl; by rewrite !lookup_insert_ne).
  assert (tables s1 !! "meta_indexes" = Some meta_indexes) as Hmi1
    by (simpl; by rewrite !lookup_insert_ne).
  unfold bind at 1, resolve at 1. rewrite (table_ok _ _ _ Hl1).
  unfold bind at 1, resolve at 1. rewrite (table_ok _ _ _ Hr1).
  unfold bind at 1.
  assert (∀ t, VStr (_name t) ∉ names → _has_index (_name t) None s1 = (Ok false, s1))
    as Hnone.
  { intros t Hnot. unfold _has_index, bind at 1. rewrite (table_ok _ _ _ Hmi1).
    unfold bind, lift. rewrite Hnames. unfold ret. by rewrite bool_decide_eq_false_2. }
  simpl. unfold join_inl, bind at 1. rewrite (Hnone left_table Hnot_l).
  unfold bind at 1. by rewrite (Hnone right_table Hnot_r).
Qed.
End NoIndex.

(** ** File names *)

Lemma string_app_cons c (a b : string) : String c a ++ b = String c (a ++ b).
Proof. reflexivity. Qed.

Lemma string_app_assoc (a b c : string) : (a ++ b) ++ c = a ++ (b ++ c).
Proof.
  induction a as [|x a IH]; [done|]. rewrite !string_app_cons. by f_equal.
Qed.

Lemma string_app_nil_r (a : string) : a ++ "" = a.
Proof. induction a as [|x a IH]; [done|]. rewrite string_app_cons. by f_equal. Qed.

Lemma string_rev_app a b : String.rev_app a b = String.rev a ++ b.
Proof.
  unfold String.rev. revert b. induction a as [|x a IH]; intros b; [done|].
  cbn [String.rev_app]. rewrite (IH (String x b)), (IH (String x "")).
  by rewrite string_app_assoc.
Qed.

Lemma string_rev_cons c s : String.rev (String c s) = String.rev s ++ String c EmptyString.
Proof. unfold String.rev at 1. cbn [String.rev_app]. apply string_rev_app. Qed.

Lemma head_split_aux sep acc s :
  head (Py.split_aux sep acc s) = Some (String.rev acc ++ text_before sep s).
Proof.
  revert acc. induction s as [|c s IH]; intros acc; cbn [Py.split_aux text_before].
  - by rewrite string_app_nil_r.
  - destruct (Ascii.eqb c sep).
    + by rewrite string_app_nil_r.
    + rewrite IH, string_rev_cons. by rewrite string_app_assoc.
Qed.

Lemma text_before_app sep k rest :
  text_before sep (k ++ String sep rest) = text_before sep k.
Proof.
  induction k as [|c k IH].
  - change ("" ++ String sep rest) with (String sep rest). cbn [text_before].
    by rewrite Ascii.eqb_refl.
  - rewrite string_app_cons. cbn [text_before].
    destruct (Ascii.eqb c sep); [done|]. by rewrite IH.
Qed.

Lemma text_before_no_char sep k : has_char sep k = false → text_before sep k = k.
Proof.
  induction k as [|c k IH]; cbn [has_char text_before]; [done|].
  destruct (Ascii.eqb c sep); [done|]. intros Hk. by rewrite IH.
Qed.

Lemma text_before_has_no_char sep k : has_char sep (text_before sep k) = false.
Proof.
  induction k as [|c k IH]; cbn [has_char text_before]; [done|].
  destruct (Ascii.eqb c sep) eqn:Hc; [done|]. cbn [has_char]. by rewrite Hc.
Qed.

Lemma text_before_shorter sep k : has_char sep k = true → text_before sep k ≠ k.
Proof.
  intros Hk Heq. pose proof (text_before_has_no_char sep k) as Hno.
  rewrite Heq in Hno. congruence.
Qed.

(** a table is loaded under the part of its file name before the first
    dot *)
Lemma loaded_name_pkl k : loaded_name (k ++ ".pkl") = text_before "." k.
Proof.
  unfold loaded_name, Py.split. rewrite head_split_aux.
  apply (text_before_app "." k "pkl").
Qed.

Section Reload.
Context `{IndexStructures}.
Implicit Types (s : Database) (n k : string).

Lemma tables_loaded s n :
  tables (loaded s) !! n
  = match last (filter (λ f : string * Table, text_before "." f.1 = n)
                  (map_to_list (files s))) with
    | Some f => Some f.2
    | None => tables s !! n
    end.
Proof.
  unfold loaded, exec, load_database, modify. simpl. rewrite lookup_load.
  rewrite (list_filter_iff _ (λ f : string * Table, text_before "." f.1 = n)); [done|].
  intros f. by rewrite loaded_name_pkl.
Qed.

(** When no table on disk has a dot in its name, loading reads every one
    of them under its own name, and what was in memory under these names
    does not count. *)
Lemma loaded_forgets_memory s s' :
  no_dotted_file s → same_but_memory s' s → loaded s' = loaded s.
Proof.
  intros Hplain (Hpid & Hattrs & Hfiles & Hindex & Hrest).
  assert (tables (loaded s') = tables (loaded s)) as Htables.
  { apply map_eq. intros n. rewrite !tables_loaded, Hfiles.
    destruct (last _) as [f|] eqn:Hlast; [done|].
    apply Hrest. intros [t Ht]%elem_of_dom.
    apply last_None in Hlast.
    assert ((n, t) ∈ filter (λ f : string * Table, text_before "." f.1 = n)
                       (map_to_list (files s))) as Hin.
    { apply list_elem_of_filter. split; [|by apply elem_of_map_to_list].
      simpl. apply text_before_no_char, Hplain. apply elem_of_dom. eauto. }
    rewrite Hlast in Hin. by apply elem_of_nil in Hin. }
  unfold loaded, exec, load_database, modify in *. simpl in *.
  destruct s, s'. unfold set_tables in *. simpl in *. subst. by f_equal.
Qed.
End Reload.

(** * The claims *)

Section Claims.
Context `{IndexStructures}.
Implicit Types (s : Database) (d : list row) (name : string).

(** C1 (as amended). Lock acquisition is tri-state for every table that
    is not internal and is in the registry: with the persisted lock table
    holding the rows [d], [lock_table] inserts a record for the caller's
    pid, persists it and returns [True] if no record is about the table;
    returns [False] and inserts nothing if the first record about the table
    is the caller's; raises [Locked] with the owner's pid and inserts
    nothing if it is another process's. *)
Theorem acquire_tri_state name s d :
  Py.is_meta name = false →
  name ∈ dom (tables s) →
  files s !! "meta_locks" = Some (locks_table d) →
  lock_table name "x" s =
    match owner_of name d with
    | None => (Ok (Some true), persist_locks (d ++ [lock_record name (getpid s)]) s)
    | Some pid =>
        if decide (pid = VInt (getpid s))
        then (Ok (Some false), remember_locks d s)
        else (Raise (Locked pid), remember_locks d s)
    end.
Proof. apply lock_table_run. Qed.

(** C2 (as amended). [is_locked] never returns true. For a table that is
    not internal it returns false when no lock record is about the table
    or when the first one is the caller's own, and raises [Locked] with the
    owner's pid when it is another process's. *)
Theorem is_locked_reports :
  (∀ table_name s, (is_locked table_name s).1 ≠ Ok true)
  ∧ (∀ name s d,
       Py.is_meta name = false →
       files s !! "meta_locks" = Some (locks_table d) →
       is_locked (ByName name) s =
         match owner_of name d with
         | None => (Ok false, remember_locks d s)
         | Some pid =>
             if decide (pid = VInt (getpid s))
             then (Ok false, remember_locks d s)
             else (Raise (Locked pid), remember_locks d s)
         end).
Proof. apply is_locked_run. Qed.


(** C5 (as amended). Drop, insert, update, delete, sort and cast reload
    the persisted tables before acting. Reloading first changes neither
    their outcome nor, when they return, the state they leave; and when no
    table on disk has a dot in its name they act on what is on disk: a
    caller with any other copies in memory of the tables that are on disk
    gets the same outcome and, when they return, leaves the same state.
    Every mutating operation, create included, persists the complete
    registry when it returns: every table in memory is then on disk. *)
Theorem reload_and_persist (o : operation) s :
  (is_create o = false →
     ((run o (loaded s)).1 = (run o s).1
      ∧ ((run o s).1 = Ok tt → exec (run o) (loaded s) = exec (run o) s))
     ∧ (no_dotted_file s →
        ∀ s', same_but_memory s' s →
          (run o s').1 = (run o s).1
          ∧ ((run o s).1 = Ok tt → exec (run o) s' = exec (run o) s)))
  ∧ ((run o s).1 = Ok tt → tables (exec (run o) s) ⊆ files (exec (run o) s)).
Proof.
  destruct (reload_absorbed_and_saved o s) as [Hreload Hsaved].
  split; [|done]. intros Hcreate. split; [by apply Hreload|].
  intros Hplain s' Hsame.
  destruct (reload_absorbed_and_saved o s') as [Hreload' _].
  destruct (Hreload Hcreate) as [Hr Hs]. destruct (Hreload' Hcreate) as [Hr' Hs'].
  rewrite (loaded_forgets_memory s s' Hplain Hsame) in Hr', Hs'.
  assert ((run o s').1 = (run o s).1) as Heq by congruence.
  split; [done|]. intros Hok.
  rewrite <- Hs by done. symmetry. apply Hs'. congruence.
Qed.


(** C9. If a table has a primary key and no unique columns, [create_index]
    on a column other than the primary key raises and changes nothing:
    no row is added to [meta_indexes] and no index is built. With a
    supported index type the error is the [TypeError] of the membership
    test on the absent set. *)
Theorem create_index_without_unique_set index_name table_name column_name index_type s t k i :
  tables s !! table_name = Some t →
  pk t = Some k → pk_idx t = Some i → unique_columns t = None →
  column_name ≠ k →
  ∃ e, create_index index_name table_name column_name index_type s = (Raise e, s)
       ∧ (index_type ∈ ["btree"; "hash"] → e = TypeError).
Proof. apply create_index_run. Qed.

(** C10. [_construct_index] skips the rows whose key is [None]: the
    index it builds and saves holds an entry (key, position) exactly for
    the positions whose value in the indexed column is not empty, so a
    lookup in it never yields the position of a tombstone. *)
Theorem index_skips_empty_keys table_name column_name index_name index_type s t column :
  tables s !! table_name = Some t →
  column_by_name column_name t = Ok column →
  ∃ i, _construct_index table_name column_name index_name index_type s
         = (Ok tt, set_index_files (<[index_name := i]>) s)
       ∧ (∀ key idx, (key, idx) ∈ index_entries i ↔ column !! idx = Some key ∧ key ≠ VNone)
       ∧ (∀ key idx, idx ∈ index_find key i →
            ∃ r, data t !! idx = Some r ∧ is_tombstone r = false).
Proof. apply _construct_index_run. Qed.

End Claims.

Section JoinClaim.
Context `{JoinAlgorithms}.

(** C3 (the code departs from it). Neither [l] nor [r] carries an index
    on the join column [name], [l] carries one on [id]: the
    index-nested-loop join does not fail with [IndexUnavailable]; no
    branch assigns [res], and reading it raises [UnboundLocalError]. *)
Theorem inl_join_unbound_result :
  (_has_index "l" (Some "name") indexed_on_id).1 = Ok false
  ∧ (_has_index "r" (Some "name") indexed_on_id).1 = Ok false
  ∧ (join "inl" (ByName "l") (ByName "r") "name=name" None true indexed_on_id).1
    = Raise (UnboundLocalError "res").
Proof. apply join_inl_on_other_column. Qed.

End JoinClaim.

(** * The claims on concrete databases *)

Section ConcreteClaims.
#[local] Existing Instance entries_index.

Ltac compute_it := vm_compute; reflexivity.
Ltac decide_it :=
  lazymatch goal with |- ?P => apply (bool_decide_unpack P) end; vm_compute; exact I.

(** C1 as stated fails: no lock record is about [meta_length] or about
    [ghost], a table that is not in the registry, and [lock_table] neither
    inserts a record nor returns [True] for them. *)
Lemma acquire_exempt_table :
  files db_t !! "meta_locks" = Some (locks_table [])
  ∧ owner_of "meta_length" [] = None
  ∧ owner_of "ghost" [] = None
  ∧ lock_table "meta_length" "x" db_t = (Ok None, db_t)
  ∧ lock_table "ghost" "x" db_t = (Ok None, db_t).
Proof. repeat split; compute_it. Qed.

Lemma acquire_tri_state_witness :
  lock_table "t" "x" db_rows
  = (Ok (Some true), persist_locks ([] ++ [lock_record "t" (getpid db_rows)]) db_rows).
Proof.
  apply (acquire_tri_state "t" db_rows []).
  - reflexivity.
  - decide_it.
  - compute_it.
Defined.

(** C2 as stated fails: the lock record of [t] is owned by process 5,
    the caller is process 7, and [is_locked] raises instead of returning
    true. *)
Lemma is_locked_foreign_lock_raises :
  files other_process !! "meta_locks" = Some (locks_table [lock_record "t" 5])
  ∧ getpid other_process = 7%Z
  ∧ (is_locked (ByName "t") other_process).1 = Raise (Locked (VInt 5)).
Proof. repeat split; compute_it. Qed.

Lemma is_locked_reports_witness :
  is_locked (ByName "t") other_process
  = (Raise (Locked (VInt 5)), remember_locks [lock_record "t" 5] other_process).
Proof.
  apply (proj2 is_locked_reports "t" other_process [lock_record "t" 5]).
  - reflexivity.
  - compute_it.
Defined.


(** C5 as stated fails for create: process 7 holds [t] in memory as it
    was before process 5 inserted two rows; its [create_table] does not
    reload [t], and saving writes the old [t] over the new one. *)
Lemma create_table_skips_reload :
  data <$> files stale_process !! "t" = Some [[VInt 1; VStr "a"]; [VInt 2; VStr "b"]]
  ∧ (run (Create "u" "k" "int" None None) stale_process).1 = Ok tt
  ∧ data <$> files (exec (run (Create "u" "k" "int" None None)) stale_process) !! "t"
    = Some []
  ∧ exec (run (Create "u" "k" "int" None None)) (loaded stale_process)
    ≠ exec (run (Create "u" "k" "int" None None)) stale_process.
Proof.
  repeat split; try compute_it.
  intros Heq. apply (f_equal (λ s, data <$> files s !! "t")) in Heq.
  vm_compute in Heq. discriminate.
Qed.

Lemma reload_and_persist_witness :
  ((run (Insert "t" "3,c") (loaded db_rows)).1 = (run (Insert "t" "3,c") db_rows).1
   ∧ exec (run (Insert "t" "3,c")) (loaded db_rows) = exec (run (Insert "t" "3,c")) db_rows)
  ∧ ((run (Insert "t" "3,c") (seen_by db_t db_rows)).1 = (run (Insert "t" "3,c") db_rows).1
     ∧ exec (run (Insert "t" "3,c")) (seen_by db_t db_rows)
       = exec (run (Insert "t" "3,c")) db_rows)
  ∧ tables (exec (run (Insert "t" "3,c")) db_rows)
    ⊆ files (exec (run (Insert "t" "3,c")) db_rows).
Proof.
  destruct (reload_and_persist (Insert "t" "3,c") db_rows) as [Hreload Hsaved].
  destruct (Hreload eq_refl) as [[Hsame Hstate] Hdisk].
  assert (no_dotted_file db_rows) as Hplain.
  { apply (bool_decide_unpack
             (set_Forall (λ k, has_char "." k = false) (dom (files db_rows)))).
    vm_compute. exact I. }
  assert (same_but_memory (seen_by db_t db_rows) db_rows) as Hmemory.
  { split; [compute_it|]. split; [compute_it|]. split; [compute_it|]. split; [compute_it|].
    intros n Hn.
    assert (dom (tables (seen_by db_t db_rows)) ⊆ dom (files db_rows)) as Hsub1
      by decide_it.
    assert (dom (tables db_rows) ⊆ dom (files db_rows)) as Hsub2 by decide_it.
    transitivity (@None Table); [|symmetry]; apply not_elem_of_dom; intros Hin;
      apply Hn; [by apply Hsub1|by apply Hsub2]. }
  destruct (Hdisk Hplain _ Hmemory) as [Hsame' Hstate'].
  split; [split|split; [split|]].
  - exact Hsame.
  - apply Hstate. compute_it.
  - exact Hsame'.
  - apply Hstate'. compute_it.
  - apply Hsaved. compute_it.
Defined.

(** C6 (the code departs from it). A cast that fails, on a value that
    does not convert or on a type name that does not evaluate, has taken
    the lock and persisted its record, and raises without releasing it:
    the record stays on disk, and another process finds the table locked. *)
Theorem failed_cast_keeps_lock :
  files db_rows !! "meta_locks" = Some (locks_table [])
  ∧ (cast "name" "t" "int" db_rows).1 = Raise SchemaMismatch
  ∧ files (exec (cast "name" "t" "int") db_rows) !! "meta_locks"
    = Some (locks_table [lock_record "t" 5])
  ∧ (cast "name" "t" "integer" db_rows).1 = Raise (NameError "integer")
  ∧ files (exec (cast "name" "t" "integer") db_rows) !! "meta_locks"
    = Some (locks_table [lock_record "t" 5])
  ∧ (lock_table "t" "x"
       (seen_by other_process (exec (cast "name" "t" "int") db_rows))).1
    = Raise (Locked (VInt 5)).
Proof. repeat split; compute_it. Qed.

(** C7 (the code departs from it). The rows of [t] are saved as the
    table [a.b]; its file is loaded under the name [a]. [delete_from] on
    [a] puts a tombstone at position 0 and saves it, then raises
    [IndexError]: there is no stack record under the name [a], the
    position is recorded nowhere, and the next [insert_into] raises
    [IndexError] as well instead of writing at position 0. *)
Theorem freed_position_lost :
  data <$> tables (loaded db_saved_as) !! "a" = Some [[VInt 1; VStr "a"]; [VInt 2; VStr "b"]]
  ∧ (delete_from "a" (Cond "id" OpEq (VInt 1)) db_saved_as).1 = Raise IndexError
  ∧ data <$> files (exec (delete_from "a" (Cond "id" OpEq (VInt 1))) db_saved_as) !! "a"
    = Some [[VNone; VNone]; [VInt 2; VStr "b"]]
  ∧ data <$> files (exec (delete_from "a" (Cond "id" OpEq (VInt 1))) db_saved_as)
             !! "meta_insert_stack"
    = Some [[VStr "t"; VList []]; [VStr "a.b"; VList []]]
  ∧ (insert_into "a" "3,c"
       (exec (delete_from "a" (Cond "id" OpEq (VInt 1))) db_saved_as)).1
    = Raise IndexError.
Proof. repeat split; compute_it. Qed.



Lemma create_index_without_unique_set_witness :
  ∃ e, create_index "t_name" "t" "name" "btree" db_rows = (Raise e, db_rows)
       ∧ ("btree" ∈ ["btree"; "hash"] → e = TypeError).
Proof.
  apply (create_index_without_unique_set "t_name" "t" "name" "btree" db_rows t_rows "id" 0).
  - compute_it.
  - reflexivity.
  - reflexivity.
  - reflexivity.
  - decide_it.
Defined.

Lemma index_skips_empty_keys_witness :
  ∃ i, _construct_index "t" "id" "t_id" "btree" db_deleted
         = (Ok tt, set_index_files (<["t_id" := i]>) db_deleted)
       ∧ (∀ key idx, (key, idx) ∈ index_entries i
                     ↔ [VNone; VInt 2] !! idx = Some key ∧ key ≠ VNone)
       ∧ (∀ key idx, idx ∈ index_find key i →
            ∃ r, data t_deleted !! idx = Some r ∧ is_tombstone r = false).
Proof.
  apply (index_skips_empty_keys "t" "id" "t_id" "btree" db_deleted t_deleted [VNone; VInt 2]).
  - compute_it.
  - reflexivity.
Defined.

End ConcreteClaims.

(** * Further properties *)

(** ** Loading, saving and names *)

Section LoadAgain.
Context `{IndexStructures}.
Implicit Types (s : Database) (n k : string).

(** X1. [load_database] binds the table of every file to the part of the
    file name before its first dot: the table of the file [k.pkl] is in
    the registry under that name after loading, when no other file of the
    directory is loaded under the same name. *)
Theorem load_binds_before_dot s k t :
  files s !! k = Some t →
  (∀ k', k' ∈ dom (files s) →
     loaded_name (k' ++ ".pkl") = loaded_name (k ++ ".pkl") → k' = k) →
  tables (loaded s) !! loaded_name (k ++ ".pkl") = Some t.
Proof.
  intros Hk Honly. rewrite tables_loaded, loaded_name_pkl.
  destruct (last _) as [f|] eqn:Hlast.
  - apply last_Some_elem_of, list_elem_of_filter in Hlast as [Hname Hin].
    destruct f as [k' t']. apply elem_of_map_to_list in Hin. simpl in *.
    assert (k' = k) as ->.
    { apply Honly; [apply elem_of_dom; eauto|by rewrite !loaded_name_pkl]. }
    congruence.
  - apply last_None in Hlast.
    assert ((k, t) ∈ filter (λ f : string * Table, text_before "." f.1 = text_before "." k)
                       (map_to_list (files s))) as Hin.
    { apply list_elem_of_filter. split; [done|]. by apply elem_of_map_to_list. }
    rewrite Hlast in Hin. by apply elem_of_nil in Hin.
Qed.

(** X2. A name of the registry that contains a dot is never refreshed:
    after [load_database] it is bound to what it was bound to in memory,
    whatever the directory holds. *)
Theorem load_keeps_dotted_name s n :
  has_char "." n = true →
  tables (loaded s) !! n = tables s !! n.
Proof.
  intros Hdot. rewrite tables_loaded.
  destruct (last _) as [f|] eqn:Hlast; [|done].
  apply last_Some_elem_of, list_elem_of_filter in Hlast as [Hname _].
  pose proof (text_before_has_no_char "." f.1) as Hno. rewrite Hname in Hno. congruence.
Qed.

Lemma load_own_file s n t :
  files s !! n = Some t →
  (∀ k, k ∈ dom (files s) → loaded_name (k ++ ".pkl") = n → k = n) →
  has_char "." n = false →
  tables (loaded s) !! n = Some t.
Proof.
  intros Hn Honly Hclean. rewrite tables_loaded.
  destruct (last _) as [f|] eqn:Hlast.
  - apply last_Some_elem_of, list_elem_of_filter in Hlast as [Hname Hin].
    destruct f as [k t']. apply elem_of_map_to_list in Hin. simpl in *.
    assert (k = n) as ->.
    { apply Honly; [apply elem_of_dom; eauto|by rewrite loaded_name_pkl]. }
    congruence.
  - apply last_None in Hlast.
    assert ((n, t) ∈ filter (λ f : string * Table, text_before "." f.1 = n)
                       (map_to_list (files s))) as Hin.
    { apply list_elem_of_filter. split; [by apply text_before_no_char|].
      by apply elem_of_map_to_list. }
    rewrite Hlast in Hin. by apply elem_of_nil in Hin.
Qed.

(** X3. Saving and loading again gives a table back: a table of the
    registry whose name has no dot is bound to the same table after
    [save_database] and [load_database], when no other name of the
    registry or of the directory is loaded under its name. *)
Theorem save_then_load s n t :
  tables s !! n = Some t →
  (∀ k, k ∈ dom (tables s) ∪ dom (files s) → loaded_name (k ++ ".pkl") = n → k = n) →
  has_char "." n = false →
  tables (loaded (exec save_database s)) !! n = Some t.
Proof.
  intros Hn Honly Hclean. apply load_own_file; [| |done].
  - simpl. by apply lookup_union_Some_l.
  - intros k Hk. apply Honly. simpl in Hk. by rewrite dom_union_L in Hk.
Qed.

(** X4. Loading twice is loading once. *)
Theorem load_database_twice s :
  (load_database ;; load_database) s = load_database s.
Proof. unfold bind. by rewrite !load_database_run, loaded_idemp. Qed.
End LoadAgain.

Lemma insert_appends (r r' : row) t :
  convert_row (column_types t) r = Some r' →
  violates t r' None = false →
  _insert r [] t = (Ok tt, set_data (data t ++ [r']) t).
Proof. intros Hconv Hviol. unfold _insert. simpl. by rewrite Hconv, Hviol. Qed.

Section Locking.
Context `{IndexStructures}.
Implicit Types (s : Database) (d : list row) (name : string).

Lemma lock_unlock_run name s d :
  Py.is_meta name = false →
  name ∈ dom (tables s) →
  files s !! "meta_locks" = Some (locks_table d) →
  owner_of name d = None →
  (lock_table name "x" ;; unlock_table name false) s = (Ok tt, persist_locks d s)
  ∧ files (persist_locks d s) = files s.
Proof.
  intros Hmeta Hdom Hf Hfree. split.
  - unfold bind. rewrite (lock_table_run name s d Hmeta Hdom Hf), Hfree.
    set (s1 := persist_locks _ s).
    pose proof (not_meta_key name "meta_locks" Hmeta eq_refl) as Hne.
    apply elem_of_dom in Hdom as [t Ht].
    destruct (unlock_table_run name false s1 (d ++ [lock_record name (getpid s)]))
      as [-> _].
    { apply elem_of_dom. simpl. rewrite lookup_insert_ne by done. eauto. }
    { apply lookup_insert_eq. }
    rewrite (owner_acquired _ _ _ Hfree), decide_True by done.
    rewrite (others_released _ _ _ Hfree).
    unfold s1, persist_locks, remember_locks, set_files, set_tables. simpl.
    by rewrite !insert_insert_eq.
  - simpl. by apply insert_id.
Qed.

(** X5. Taking a free lock and releasing it leaves the directory as it
    was: [lock_table] followed by [unlock_table] returns, and the lock
    table on disk is again the one found. *)
Theorem lock_then_unlock name s d :
  Py.is_meta name = false →
  name ∈ dom (tables s) →
  files s !! "meta_locks" = Some (locks_table d) →
  owner_of name d = None →
  (lock_table name "x" ;; unlock_table name false) s = (Ok tt, persist_locks d s)
  ∧ files (persist_locks d s) = files s.
Proof. apply lock_unlock_run. Qed.

(** X6. The lock excludes other processes: once a process has taken the
    free lock of a table, [lock_table] of a process with another pid on
    the same directory raises [Locked] with the owner's pid; once the
    owner has released it, the other process takes it. *)
Theorem lock_excludes_other_process name sa sb d :
  Py.is_meta name = false →
  name ∈ dom (tables sa) →
  name ∈ dom (tables sb) →
  files sa !! "meta_locks" = Some (locks_table d) →
  owner_of name d = None →
  getpid sb ≠ getpid sa →
  (lock_table name "x" sa).1 = Ok (Some true)
  ∧ (lock_table name "x" (seen_by sb (exec (lock_table name "x") sa))).1
    = Raise (Locked (VInt (getpid sa)))
  ∧ (lock_table name "x"
       (seen_by sb (exec (lock_table name "x" ;; unlock_table name false) sa))).1
    = Ok (Some true).
Proof.
  intros Hmeta Hdoma Hdomb Hf Hfree Hpid.
  destruct (lock_unlock_run name sa d Hmeta Hdoma Hf Hfree) as [Hboth Hfiles].
  pose proof (lock_table_run name sa d Hmeta Hdoma Hf) as Hlock. rewrite Hfree in Hlock.
  split; [by rewrite Hlock|]. split.
  - unfold exec. rewrite Hlock. simpl.
    rewrite (lock_table_run name _ (d ++ [lock_record name (getpid sa)]) Hmeta);
      [|done|simpl; apply lookup_insert_eq].
    rewrite (owner_acquired _ _ _ Hfree). simpl.
    rewrite decide_False; [done|]. intros [= Heq]. by apply Hpid.
  - unfold exec. rewrite Hboth. simpl.
    rewrite (lock_table_run name _ d Hmeta); [|done|simpl; apply lookup_insert_eq].
    by rewrite Hfree.
Qed.
End Locking.

Section RowOperations.
Context `{IndexStructures}.
Implicit Types (s : Database) (d : list row) (name : string).

(** X7. With an empty insert stack, [insert_into] appends the row: for
    a table that is not internal, whose lock is free or the caller's own,
    and a row that the table accepts, it returns with the row added at the
    end of the table, the stack still empty, the registry saved and the
    lock table on disk as it found it. ([Table._insert] as modelled from
    the specification.) *)
Theorem insert_into_appends name row_str s t dk dl ds r :
  Py.is_meta name = false →
  tables (loaded s) !! name = Some t →
  files s !! "meta_locks" = Some (locks_table dk) →
  owner_of name dk = None ∨ owner_of name dk = Some (VInt (getpid s)) →
  tables (loaded s) !! "meta_length" = Some (length_table dl) →
  tables (loaded s) !! "meta_insert_stack" = Some (stack_table ds) →
  Forall (λ r : row, length r = 2%nat) ds →
  stack_of name ds = Some (VList []) →
  convert_row (column_types t) (VStr <$> Py.split "," (Py.strip row_str)) = Some r →
  violates t r None = false →
  ∃ s' ds',
    insert_into name row_str s = (Ok tt, s')
    ∧ tables s' !! name = Some (set_data (data t ++ [r]) t)
    ∧ tables s' !! "meta_insert_stack" = Some (stack_table ds')
    ∧ stack_of name ds' = Some (VList [])
    ∧ tables s' ⊆ files s'
    ∧ files s' !! "meta_locks" = Some (locks_table dk).
Proof.
  intros Hmeta Ht Hf Howner Hl Hs Hwidth Hstack Hconv Hviol.
  pose proof (not_meta_key name "meta_locks" Hmeta eq_refl) as Hne1.
  pose proof (not_meta_key name "meta_length" Hmeta eq_refl) as Hne2.
  pose proof (not_meta_key name "meta_insert_stack" Hmeta eq_refl) as Hne3.
  set (s1 := loaded s) in *.
  assert (name ∈ dom (tables s1)) as Hdom1 by (apply elem_of_dom; eauto).
  destruct (lock_step name s1 dk Hmeta Hdom1 Hf Howner) as (lo & dk' & Hlock & Hout).
  unfold insert_into, bind at 1. rewrite load_database_run. fold s1.
  unfold bind at 1. rewrite Hlock.
  set (s2 := persist_locks dk' s1).
  assert (tables s2 !! name = Some t) as Ht2 by (simpl; by rewrite lookup_insert_ne).
  unfold bind at 1.
  rewrite (_get_insert_stack_for_table_spec name s2 ds)
    by (simpl; by rewrite lookup_insert_ne).
  rewrite Hstack.
  unfold bind at 1, try_except. rewrite (on_table_run _ _ _ _ Ht2).
  rewrite (insert_appends _ r t Hconv Hviol). cbn [fst snd].
  set (s3 := set_tables (<[name := set_data (data t ++ [r]) t]>) s2).
  unfold bind at 1.
  rewrite (_update_meta_insert_stack_for_tb_spec name _ s3 ds)
    by (simpl; rewrite !lookup_insert_ne by done; done).
  set (s4 := set_tables _ s3).
  unfold bind at 1.
  rewrite (release_step name s4 dk lo dk' Hout);
    [|apply elem_of_dom; simpl; rewrite lookup_insert_ne by done;
      rewrite lookup_insert_eq; eauto
     |simpl; rewrite !lookup_insert_ne by done; apply lookup_insert_eq
     |simpl; apply lookup_insert_eq].
  set (s5 := persist_locks dk s4).
  destruct (_update_spec s5 dl (set_second name (VList (removelast [])) ds))
    as (dl' & extra & Hupd & Hextra).
  { simpl. rewrite !lookup_insert_ne by done. done. }
  { simpl. rewrite !lookup_insert_ne by done. apply lookup_insert_eq. }
  unfold bind at 1. rewrite Hupd.
  unfold save_database, modify.
  eexists _, _. split; [reflexivity|].
  split; [|split; [|split; [|split]]].
  - simpl. rewrite !lookup_insert_ne by done. apply lookup_insert_eq.
  - simpl. apply lookup_insert_eq.
  - apply stack_of_app, stack_of_set_second; [done|]. rewrite Hstack. eauto.
  - simpl. apply map_union_subseteq_l.
  - simpl. apply lookup_union_Some_l. rewrite !lookup_insert_ne by done.
    apply lookup_insert_eq.
Qed.

(** X8. [insert_into] reads the insert stack outside its [try]: without
    a stack record for the table it raises [IndexError], for an internal
    table with nothing written, for another table with the lock it has
    just taken left on disk. *)
Theorem insert_into_without_stack name row_str s ds :
  tables (loaded s) !! "meta_insert_stack" = Some (stack_table ds) →
  stack_of name ds = None →
  (Py.is_meta name = true →
     insert_into name row_str s = (Raise IndexError, loaded s))
  ∧ (∀ dk, Py.is_meta name = false →
       name ∈ dom (tables (loaded s)) →
       files s !! "meta_locks" = Some (locks_table dk) →
       owner_of name dk = None →
       (insert_into name row_str s).1 = Raise IndexError
       ∧ files (exec (insert_into name row_str) s)
         = <["meta_locks" := locks_table (dk ++ [lock_record name (getpid s)])]> (files s)).
Proof.
  intros Hs Hstack. split.
  - intros Hmeta. unfold insert_into, bind at 1. rewrite load_database_run.
    unfold bind at 1, lock_table, bind at 1, get. rewrite Hmeta. simpl.
    unfold bind at 1. rewrite (_get_insert_stack_for_table_spec name _ ds Hs).
    by rewrite Hstack.
  - intros dk Hmeta Hdom Hf Hfree.
    cut (∃ s', insert_into name row_str s = (Raise IndexError, s')
               ∧ files s' = <["meta_locks" := locks_table
                                (dk ++ [lock_record name (getpid s)])]> (files s)).
    { intros (s' & Hrun & Hfiles). unfold exec. by rewrite Hrun. }
    unfold insert_into, bind at 1. rewrite load_database_run.
    unfold bind at 1. rewrite (lock_table_run name (loaded s) dk Hmeta Hdom Hf), Hfree.
    unfold bind at 1.
    rewrite (_get_insert_stack_for_table_spec name _ ds)
      by (simpl; by rewrite lookup_insert_ne).
    rewrite Hstack. eexists. split; [reflexivity|done].
Qed.

(** X9. A row that the table rejects is not inserted and the lock taken
    for it is given back: [insert_into] raises the table's exception and
    the files are as they were. *)
Theorem rejected_insert_restores_files name row_str s t dk ds stack e :
  Py.is_meta name = false →
  tables (loaded s) !! name = Some t →
  files s !! "meta_locks" = Some (locks_table dk) →
  owner_of name dk = None ∨ owner_of name dk = Some (VInt (getpid s)) →
  tables (loaded s) !! "meta_insert_stack" = Some (stack_table ds) →
  stack_of name ds = Some (VList stack) →
  (_insert (VStr <$> Py.split "," (Py.strip row_str)) stack t).1 = Raise e →
  (insert_into name row_str s).1 = Raise e
  ∧ files (exec (insert_into name row_str) s) = files s.
Proof. apply insert_into_rejected. Qed.

(** X10. An insert, update, delete, sort or cast on a table that another
    process has locked raises [Locked] with the owner's pid and writes
    nothing; only an update whose assignment does not read as a column and
    a value raises [ValueError] instead, before it asks for the lock, and
    writes nothing either. *)
Theorem locked_table_refuses_writes o name s d pid :
  row_operation_on o = Some name →
  Py.is_meta name = false →
  name ∈ dom (tables (loaded s)) →
  files s !! "meta_locks" = Some (locks_table d) →
  owner_of name d = Some pid →
  pid ≠ VInt (getpid s) →
  (run o s).1 = Raise (if parses o then Locked pid else ValueError)
  ∧ files (exec (run o) s) = files s.
Proof.
  intros Ho Hmeta Hdom Hf Howner Hforeign.
  assert (lock_table name "x" (loaded s)
          = (Raise (Locked pid), remember_locks d (loaded s))) as Hlock.
  { rewrite (lock_table_run name (loaded s) d Hmeta Hdom Hf), Howner.
    by rewrite decide_False. }
  unfold exec.
  destruct o; simplify_eq/=.
  - unfold insert_into, bind. by rewrite load_database_run, Hlock.
  - unfold update. destruct (Py.split _ _) as [|? [|? [|]]]; try done.
    unfold bind. by rewrite load_database_run, Hlock.
  - unfold delete_from, bind. by rewrite load_database_run, Hlock.
  - unfold sort, bind. by rewrite load_database_run, Hlock.
  - unfold cast, bind. by rewrite load_database_run, Hlock.
Qed.

(** X11. An exception that the table raises inside update, delete, sort
    or cast (the cast to one of the three column types) escapes with the
    lock that the operation has taken still on disk, and nothing else
    written: the four have no handler that releases it. *)
Theorem failed_step_keeps_lock o name s t dk e t' :
  row_operation_on o = Some name →
  Py.is_meta name = false →
  tables (loaded s) !! name = Some t →
  files s !! "meta_locks" = Some (locks_table dk) →
  owner_of name dk = None →
  table_step o t = Some (Raise e, t') →
  (run o s).1 = Raise e
  ∧ files (exec (run o) s)
    = <["meta_locks" := locks_table (dk ++ [lock_record name (getpid s)])]> (files s).
Proof.
  intros Ho Hmeta Ht Hf Hfree Hstep.
  pose proof (not_meta_key name "meta_locks" Hmeta eq_refl) as Hne.
  assert (name ∈ dom (tables (loaded s))) as Hdom by (apply elem_of_dom; eauto).
  pose proof (lock_table_run name (loaded s) dk Hmeta Hdom Hf) as Hlock.
  rewrite Hfree in Hlock.
  set (s2 := persist_locks (dk ++ [lock_record name (getpid (loaded s))]) (loaded s)) in *.
  assert (tables s2 !! name = Some t) as Ht2 by (simpl; by rewrite lookup_insert_ne).
  cut (∃ s', run o s = (Raise e, s') ∧ files s' = files s2).
  { intros (s' & Hrun & Hfiles). unfold exec. by rewrite Hrun. }
  destruct o; cbn [row_operation_on] in Ho; try discriminate; injection Ho as ->;
    cbn [table_step] in Hstep; cbn [run].
  - unfold update. destruct (Py.split _ _) as [|? [|? [|]]]; try done.
    injection Hstep as Hstep.
    unfold bind at 1. rewrite load_database_run.
    unfold bind at 1. rewrite Hlock.
    unfold bind at 1. rewrite (on_table_run _ _ _ _ Ht2), Hstep. eauto.
  - unfold delete_from, bind at 1. rewrite load_database_run.
    unfold bind at 1. rewrite Hlock.
    unfold bind at 1. rewrite (on_table_run _ _ _ _ Ht2).
    destruct (_delete_where c t) as [[?|?] ?]; cbn [fst snd forget] in *; simplify_eq.
    eauto.
  - unfold sort, bind at 1. rewrite load_database_run.
    unfold bind at 1. rewrite Hlock.
    unfold bind at 1. rewrite (on_table_run _ _ _ _ Ht2).
    destruct (_sort column_name asc t) as [[?|?] ?]; cbn [fst snd forget] in *;
      simplify_eq.
    eauto.
  - unfold cast, bind at 1. rewrite load_database_run.
    unfold bind at 1. rewrite Hlock.
    unfold bind at 1. rewrite (table_ok _ _ _ Ht2).
    unfold bind at 1, lift.
    destruct (eval_type cast_type) as [ty|e0]; [|discriminate]. injection Hstep as Hstep.
    unfold bind at 1. rewrite (on_table_run _ _ _ _ Ht2), Hstep. eauto.
Qed.
End RowOperations.

Section CreateIndex.
Context `{IndexStructures}.
Implicit Types (s : Database) (d : list row) (name : string).

(** X12. [create_index] on the primary key or on a unique column, under
    a new index name and for a column that has no index yet, returns with
    the index recorded in [meta_indexes], the registry saved, and an index
    file that [_load_idx] reads back and that holds exactly the pairs of a
    value of the column that is not [None] and its row position;
    [_has_index] then finds the index. *)
Theorem create_index_registers index_name table_name column_name index_type s t d column :
  tables s !! table_name = Some t →
  table_name ≠ "meta_indexes" →
  index_type ∈ ["btree"; "hash"] →
  (Some column_name = pk t ∧ is_Some (pk_idx t))
  ∨ (∃ u, unique_columns t = Some u ∧ column_name ∈ u) →
  tables s !! "meta_indexes" = Some (indexes_table d) →
  VStr index_name ∉ cell 2 <$> d →
  (VStr table_name, VStr column_name) ∉ first_two (indexes_table d) →
  column_by_name column_name t = Ok column →
  ∃ i s',
    create_index index_name table_name column_name index_type s = (Ok tt, s')
    ∧ tables s' !! "meta_indexes"
      = Some (indexes_table
                (d ++ [[VStr table_name; VStr column_name; VStr index_name; VStr index_type]]))
    ∧ tables s' ⊆ files s'
    ∧ (∀ key idx, (key, idx) ∈ index_entries i ↔ column !! idx = Some key ∧ key ≠ VNone)
    ∧ _load_idx index_name s' = (Ok i, s')
    ∧ _has_index table_name (Some column_name) s' = (Ok true, s')
    ∧ _has_index table_name None s' = (Ok true, s').
Proof.
  intros Ht Hne Hty Hcol Hmi Hname Hpair Hcolumn.
  destruct (_construct_index_run table_name column_name index_name index_type
              (set_tables (<["meta_indexes" := indexes_table
                 (d ++ [[VStr table_name; VStr column_name; VStr index_name;
                         VStr index_type]])]>) s) t column)
    as (i & Hbuild & Hentries & _); [simpl; by rewrite lookup_insert_ne|done|].
  eexists i, _. split; [|split; [|split; [|split; [|split; [|split]]]]].
  - unfold create_index, bind at 1, get.
    rewrite bool_decide_eq_true_2 by (apply elem_of_dom; eauto).
    rewrite (bool_decide_eq_true_2 _ Hty). cbn [negb].
    unfold bind at 1. rewrite (table_ok _ _ _ Ht).
    assert (bool_decide (pk_idx t = None) && bool_decide (unique_columns t = None) = false)
      as ->.
    { destruct Hcol as [[_ [? Hidx]]|(u & Hu & _)].
      - rewrite Hidx. done.
      - rewrite Hu. apply andb_false_r. }
    unfold bind at 1.
    assert ((if bool_decide (Some column_name = pk t) then ret tt
             else match unique_columns t with
                  | Some u => if bool_decide (column_name ∈ u) then ret tt
                              else raise NotKeyOrUniqueColumn
                  | None => raise TypeError
                  end) s = (Ok tt, s)) as ->.
    { case_bool_decide as Hpk; [done|].
      destruct Hcol as [[Hpk' _]|(u & -> & Hu)]; [done|].
      by rewrite bool_decide_eq_true_2. }
    unfold bind at 1. rewrite (table_ok _ _ _ Hmi).
    unfold bind at 1, lift.
    change (column_by_name "index_name" (indexes_table d)) with (Ok (cell 2 <$> d)).
    cbv beta iota.
    rewrite (bool_decide_eq_false_2 _ Hname).
    unfold bind at 1. rewrite (table_ok _ _ _ Hmi).
    rewrite (bool_decide_eq_false_2 _ Hpair).
    unfold bind at 1. rewrite (on_table_run _ _ _ _ Hmi).
    change (_insert [VStr table_name; VStr column_name; VStr index_name; VStr index_type] []
              (indexes_table d))
      with (Ok tt, indexes_table (d ++ [[VStr table_name; VStr column_name; VStr index_name;
                                         VStr index_type]])).
    cbn [fst snd]. unfold bind at 1. rewrite Hbuild.
    unfold save_database, modify. reflexivity.
  - simpl. apply lookup_insert_eq.
  - simpl. apply map_union_subseteq_l.
  - done.
  - unfold _load_idx. simpl. by rewrite lookup_insert_eq.
  - unfold _has_index, bind, table. simpl. rewrite lookup_insert_eq.
    unfold ret. f_equal. f_equal. apply bool_decide_eq_true_2.
    unfold first_two. simpl. rewrite fmap_app. apply elem_of_app. right.
    apply list_elem_of_singleton. done.
  - unfold _has_index, bind, table. simpl. rewrite lookup_insert_eq.
    unfold lift, ret.
    change (column_by_name "table_name" (indexes_table ?x)) with (Ok (cell 0 <$> x)).
    f_equal. f_equal. apply bool_decide_eq_true_2.
    rewrite fmap_app. apply elem_of_app. right. apply list_elem_of_singleton. done.
Qed.
End CreateIndex.

(** ** What reaches the directory *)

Section OffDisk.
Context `{JoinAlgorithms}.
Variable I : Database → Prop.
Hypothesis I_tables : ∀ g s, I s → I (set_tables g s).

Lemma keeps_on_table {A} name (m : M Table A) : preserves I (on_table name m).
Proof.
  intros s Hs. unfold on_table. destruct (tables s !! name); [|done].
  destruct (m _) as [r t']. by apply I_tables.
Qed.

Lemma keeps_load_database : preserves I load_database.
Proof. intros s Hs. by apply I_tables. Qed.

Lemma keeps_reload_locks : preserves I reload_locks.
Proof.
  intros s Hs. unfold reload_locks. destruct (files s !! "meta_locks"); [|done].
  by apply I_tables.
Qed.

Lemma keeps__load_idx name : preserves I (_load_idx name).
Proof. intros s Hs. unfold _load_idx. by destruct (index_files s !! name). Qed.

Lemma keeps_as_str v : preserves I (as_str v).
Proof. destruct v; by intros st. Qed.

Ltac keep :=
  repeat first
    [ apply preserves_ret | apply preserves_raise | apply preserves_get
    | apply preserves_lift | apply preserves_from_option | apply preserves_table
    | apply keeps_on_table | apply keeps_load_database | apply keeps_reload_locks
    | apply keeps__load_idx | apply keeps_as_str
    | apply preserves_when
    | apply preserves_for_each; intros
    | apply preserves_try_except; [|intros]
    | apply preserves_bind; [|intros] ].

Lemma keeps_lock_owner name : preserves I (lock_owner name).
Proof. unfold lock_owner. keep. Qed.

Lemma keeps_is_locked r : preserves I (is_locked r).
Proof.
  unfold is_locked. destruct r as [name|t]; [|keep].
  destruct (Py.is_meta name); [keep|].
  apply preserves_bind; [keep|intros].
  apply preserves_bind; [keep|intros].
  apply preserves_bind; [apply keeps_lock_owner|intros [pid|]]; [|keep].
  destruct (negb _); keep.
Qed.

Lemma keeps__has_index name column : preserves I (_has_index name column).
Proof. unfold _has_index. destruct column; keep. Qed.

Lemma keeps_load_indexes records btree_list hash_list :
  preserves I (load_indexes records btree_list hash_list).
Proof.
  revert btree_list hash_list.
  induction records as [|[[index_name indexed_column] index_type] records IH];
    intros btree_list hash_list; simpl; [keep|].
  apply preserves_bind; [keep|intros].
  apply preserves_bind; [keep|intros].
  apply preserves_bind; [keep|intros].
  destruct (decide _); apply IH.
Qed.

Lemma keeps_select_rec depth columns table_name c distinct order_by limit desc return_object :
  preserves I
    (select_rec depth columns table_name c distinct order_by limit desc None return_object).
Proof.
  revert columns table_name c distinct order_by limit desc return_object.
  induction depth as [|depth IH]; intros; simpl; [keep|].
  apply preserves_bind; [keep|intros _].
  destruct table_name as [name|t]; [|keep].
  apply preserves_bind; [apply keeps_is_locked|intros locked].
  destruct locked; [keep|].
  apply preserves_bind; [apply keeps__has_index|intros indexed].
  apply preserves_bind; [|intros; destruct return_object; keep].
  destruct indexed, c; [|keep..].
  apply preserves_bind; [apply IH|intros].
  apply preserves_bind; [keep|intros].
  apply preserves_bind; [keep|intros].
  apply preserves_bind; [keep|intros].
  apply preserves_bind; [keep|intros].
  apply preserves_bind; [apply keeps_load_indexes|intros]. keep.
Qed.

Lemma keeps_index_records t : preserves I (index_records t).
Proof. unfold index_records, select. apply preserves_bind; [apply keeps_select_rec|intros; keep]. Qed.

Lemma keeps_join_inl left_table right_table condition :
  preserves I (join_inl left_table right_table condition).
Proof.
  unfold join_inl.
  apply preserves_bind; [apply keeps__has_index|intros l].
  apply preserves_bind; [apply keeps__has_index|intros r].
  destruct (negb l && negb r); [keep|].
  apply preserves_bind.
  { destruct r; [|keep]. apply preserves_bind; [apply keeps_index_records|intros; keep]. }
  intros table_indexes_r.
  apply preserves_bind.
  { destruct l; [|keep]. apply preserves_bind; [apply keeps_index_records|intros; keep]. }
  intros table_indexes_l. unfold local.
  repeat (first [destruct (bool_decide _) | destruct table_indexes_r | destruct table_indexes_l ];
          try solve [keep]).
Qed.

Lemma keeps_join mode left_table right_table condition return_object :
  preserves I (join mode left_table right_table condition None return_object).
Proof.
  unfold join.
  apply preserves_bind; [keep|intros _].
  apply preserves_bind; [apply keeps_is_locked|intros left_locked].
  apply preserves_bind; [destruct left_locked; [keep|apply keeps_is_locked]|intros locked].
  destruct locked; [keep|].
  apply preserves_bind; [destruct left_table; keep|intros l].
  apply preserves_bind; [destruct right_table; keep|intros r].
  apply preserves_bind.
  { repeat (destruct (decide _); [try solve [keep]|]); [|keep]. apply keeps_join_inl. }
  intros res. unfold local. apply preserves_bind; [keep|intros]. destruct return_object; keep.
Qed.

Lemma keeps__update : preserves I _update.
Proof. unfold _update, _update_meta_length, _update_meta_insert_stack. keep. Qed.

Lemma keeps_show_table name : preserves I (show_table name).
Proof.
  unfold show_table.
  apply preserves_bind; [keep|intros].
  apply preserves_bind; [keep|intros].
  apply preserves_bind; [apply keeps_is_locked|intros]. keep.
Qed.
End OffDisk.

Section Disk.
Context `{JoinAlgorithms}.
Implicit Types (s : Database).

Lemma disk_is_tables f x g s : disk_is f x s → disk_is f x (set_tables g s).
Proof. by intros [? ?]. Qed.

Lemma fails_keeping_preserves {A} I (m : DB A) : preserves I m → fails_keeping I m.
Proof. intros Hm s Hs. specialize (Hm s Hs). by destruct (m s) as [[a|e] s']. Qed.

Lemma fails_keeping_bind {A B} I (m : DB A) (k : A → DB B) :
  preserves I m → (∀ a, fails_keeping I (k a)) → fails_keeping I (bind m k).
Proof.
  intros Hm Hk s Hs. unfold bind. specialize (Hm s Hs).
  destruct (m s) as [[a|e] s1]; simpl in *; [by apply Hk|done].
Qed.

Lemma fails_keeping_create_index I index_name table_name column_name index_type :
  (∀ g s, I s → I (set_tables g s)) →
  fails_keeping I (create_index index_name table_name column_name index_type).
Proof.
  intros I_tables. unfold create_index.
  apply fails_keeping_bind; [apply preserves_get|intros s0].
  destruct (negb _); [apply fails_keeping_preserves, preserves_raise|].
  destruct (negb _); [apply fails_keeping_preserves, preserves_raise|].
  apply fails_keeping_bind; [apply preserves_table|intros t].
  destruct (_ && _); [apply fails_keeping_preserves, preserves_raise|].
  apply fails_keeping_bind.
  { destruct (bool_decide _); [apply preserves_ret|].
    destruct (unique_columns t); [|apply preserves_raise].
    destruct (bool_decide _); [apply preserves_ret|apply preserves_raise]. }
  intros _.
  apply fails_keeping_bind; [apply preserves_table|intros meta_indexes].
  apply fails_keeping_bind; [apply preserves_lift|intros index_names].
  destruct (bool_decide _); [apply fails_keeping_preserves, preserves_raise|].
  apply fails_keeping_bind; [apply preserves_table|intros meta_indexes'].
  destruct (bool_decide _); [apply fails_keeping_preserves, preserves_raise|].
  apply fails_keeping_bind; [by apply keeps_on_table|intros _].
  intros s Hs. unfold _construct_index, bind, table, lift, _save_index, save_database, modify.
  destruct (tables s !! table_name); [|done].
  by destruct (column_by_name column_name _).
Qed.
End Disk.

Section ReadOnly.
Context `{JoinAlgorithms}.
Implicit Types (s : Database).

(** X13. A select that saves no result writes nothing to the directory,
    whether it returns or raises. *)
Theorem select_writes_nothing columns table_name c distinct order_by limit desc
    return_object s :
  files (exec (select columns table_name c distinct order_by limit desc None return_object) s)
  = files s
  ∧ index_files
      (exec (select columns table_name c distinct order_by limit desc None return_object) s)
    = index_files s.
Proof.
  apply (keeps_select_rec (disk_is (files s) (index_files s)) (disk_is_tables _ _)
           recursion_limit columns table_name c distinct order_by limit desc return_object s).
  by split.
Qed.

(** X14. A join that saves no result writes nothing to the directory,
    whether it returns or raises. *)
Theorem join_writes_nothing mode left_table right_table condition return_object s :
  files (exec (join mode left_table right_table condition None return_object) s) = files s
  ∧ index_files (exec (join mode left_table right_table condition None return_object) s)
    = index_files s.
Proof.
  apply (keeps_join (disk_is (files s) (index_files s)) (disk_is_tables _ _)
           mode left_table right_table condition return_object s).
  by split.
Qed.

(** X15. [show_table] and [is_locked] write nothing to the directory. *)
Theorem show_table_writes_nothing table_name r s :
  (files (exec (show_table table_name) s) = files s
   ∧ index_files (exec (show_table table_name) s) = index_files s)
  ∧ (files (exec (is_locked r) s) = files s
     ∧ index_files (exec (is_locked r) s) = index_files s).
Proof.
  split.
  - apply (keeps_show_table (disk_is (files s) (index_files s)) (disk_is_tables _ _)
             table_name s). by split.
  - apply (keeps_is_locked (disk_is (files s) (index_files s)) (disk_is_tables _ _) r s).
    by split.
Qed.

(** X16. A [create_index] that raises has written nothing to the directory. *)
Theorem failed_create_index_writes_nothing index_name table_name column_name index_type s e :
  (create_index index_name table_name column_name index_type s).1 = Raise e →
  files (exec (create_index index_name table_name column_name index_type) s) = files s
  ∧ index_files (exec (create_index index_name table_name column_name index_type) s)
    = index_files s.
Proof.
  intros Hraise.
  pose proof (fails_keeping_create_index (disk_is (files s) (index_files s))
                index_name table_name column_name index_type (disk_is_tables _ _) s) as Hk.
  unfold exec.
  destruct (create_index index_name table_name column_name index_type s) as [[[]|e'] s'];
    [done|]. by apply Hk.
Qed.
End ReadOnly.

Section Views.
Context `{IndexStructures}.
Implicit Types (s : Database) (t : Table).

Lemma table_from_object_registers t s s' :
  table_from_object t s = (Ok tt, s') → _name t ∈ attrs s'.
Proof.
  unfold table_from_object, bind at 1, modify. unfold bind at 1, get.
  intros Hrun.
  destruct (bool_decide (_name t ∈ class_attrs) || bool_decide (_name t ∈ attrs _)) eqn:Hc.
  { unfold bind, raise in Hrun. discriminate. }
  unfold bind at 1, modify in Hrun.
  match type of Hrun with ?m ?s1 = _ =>
    pose proof (preserves_bind (λ s, _name t ∈ attrs s) _update (λ _, save_database)
                  (keeps__update (λ s, _name t ∈ attrs s) (λ _ _ H, H)) (λ _ _ H, H) s1)
      as Hp
  end.
  rewrite Hrun in Hp. apply Hp. simpl. set_solver.
Qed.

(** X17. A view name is used once: after a [create_view] that returned,
    a second one under the same name raises, having replaced the table of
    that name in memory. *)
Theorem view_name_used_once n t t' s s' :
  create_view n t s = (Ok tt, s') →
  create_view n t' s'
  = (Raise (AttributeExists n), set_tables (<[n := set_name n t']>) s').
Proof.
  unfold create_view. intros Hrun. apply table_from_object_registers in Hrun.
  simpl in Hrun. unfold table_from_object, bind at 1, modify. unfold bind at 1, get.
  simpl. rewrite (bool_decide_eq_true_2 (n ∈ attrs s')) by done.
  by rewrite orb_true_r.
Qed.

End Views.

(** ** The meta tables after [_update] *)

Lemma records_app name (d e : list row) : records name (d ++ e) = (records name d ++ records name e)%list.
Proof. apply filter_app. Qed.

Lemma records_set_second_ne n m v (d : list row) :
  n ≠ m → records n (set_second m v d) = records n d.
Proof.
  intros Hne. unfold records, set_second. induction d as [|r d IH]; [done|].
  rewrite fmap_cons, !filter_cons, IH.
  destruct (decide (cell 0 r = VStr m)) as [Hm|Hm]; [|done].
  assert (cell 0 (<[1%nat := v]> r) = VStr m) as Hm' by (by destruct r).
  rewrite (decide_False (P := cell 0 (<[1%nat := v]> r) = VStr n)) by congruence.
  by rewrite (decide_False (P := cell 0 r = VStr n)) by congruence.
Qed.

Lemma records_known name (d : list row) :
  VStr name ∈ cell 0 <$> d → is_Some (head (records name d)).
Proof.
  intros (r & Hr & Hin)%list_elem_of_fmap.
  assert (r ∈ records name d) as Hrec by (apply list_elem_of_filter; done).
  destruct (records name d); [by apply elem_of_nil in Hrec|by eexists].
Qed.

Lemma length_step_width d t :
  Forall (λ r : row, length r = 2%nat) d →
  Forall (λ r : row, length r = 2%nat) (length_step d t).
Proof.
  intros Hd. unfold length_step. apply set_second_width.
  case_bool_decide; [done|]. apply Forall_app. split; [done|]. by apply Forall_singleton.
Qed.

Lemma length_step_counts d t :
  Forall (λ r : row, length r = 2%nat) d →
  length_of (_name t) (length_step d t) = Some (VInt (Z.of_nat (non_none_rows t))).
Proof.
  intros Hd. unfold length_step.
  apply (stack_of_set_second (_name t)).
  - case_bool_decide; [done|]. apply Forall_app. split; [done|]. by apply Forall_singleton.
  - unfold stack_of. apply fmap_is_Some. case_bool_decide as Hk.
    + by apply records_known.
    + rewrite records_app. unfold records at 2. rewrite filter_cons, decide_True by done.
      by destruct (records _ d).
Qed.

Lemma length_step_frame n d t :
  n ≠ _name t → records n (length_step d t) = records n d.
Proof.
  intros Hne. unfold length_step. rewrite records_set_second_ne by done.
  case_bool_decide; [done|]. rewrite records_app. unfold records at 2.
  rewrite filter_cons, decide_False, filter_nil; [apply app_nil_r|].
  intros [= Hc]. by apply Hne.
Qed.

Lemma length_steps_frame n (xs : list Table) d :
  n ∉ _name <$> xs → records n (foldl length_step d xs) = records n d.
Proof.
  revert d. induction xs as [|x xs IH]; intros d Hn; [done|].
  rewrite fmap_cons in Hn. apply not_elem_of_cons in Hn as [Hx Hxs].
  simpl. rewrite IH by done. by apply length_step_frame.
Qed.

Lemma length_steps_count (xs : list Table) d t :
  Forall (λ r : row, length r = 2%nat) d →
  NoDup (_name <$> xs) →
  t ∈ xs →
  length_of (_name t) (foldl length_step d xs) = Some (VInt (Z.of_nat (non_none_rows t))).
Proof.
  revert d. induction xs as [|x xs IH]; intros d Hd Hnd Hin; [by apply elem_of_nil in Hin|].
  rewrite fmap_cons in Hnd. apply NoDup_cons in Hnd as [Hx Hnd].
  simpl. apply elem_of_cons in Hin as [->|Hin].
  - unfold length_of. rewrite length_steps_frame by done. by apply length_step_counts.
  - apply IH; [by apply length_step_width|done|done].
Qed.

Lemma stack_step_keeps n v d t :
  stack_of n d = Some v → stack_of n (stack_step d t) = Some v.
Proof.
  intros Hs. unfold stack_step. case_bool_decide; [done|]. by apply stack_of_app.
Qed.

Lemma stack_step_known d t : is_Some (stack_of (_name t) (stack_step d t)).
Proof.
  unfold stack_step, stack_of. apply fmap_is_Some. case_bool_decide as Hk.
  - by apply records_known.
  - rewrite records_app. unfold records at 2. rewrite filter_cons, decide_True by done.
    by destruct (records _ d).
Qed.

Lemma stack_steps_keep n v (xs : list Table) d :
  stack_of n d = Some v → stack_of n (foldl stack_step d xs) = Some v.
Proof.
  revert d. induction xs as [|x xs IH]; intros d Hs; [done|].
  simpl. by apply IH, stack_step_keeps.
Qed.

Lemma stack_steps_known (xs : list Table) d t :
  t ∈ xs → is_Some (stack_of (_name t) (foldl stack_step d xs)).
Proof.
  revert d. induction xs as [|x xs IH]; intros d Hin; [by apply elem_of_nil in Hin|].
  simpl. apply elem_of_cons in Hin as [->|Hin]; [|by apply IH].
  destruct (stack_step_known d x) as [v Hv]. exists v. by apply stack_steps_keep.
Qed.

Section UpdateLoops.
Context `{IndexStructures}.
Implicit Types (s : Database) (d : list row) (name : string).

Lemma for_each_folds {A} (mk : list row → Table) (step : list row → A → list row) k
    (xs : list A) (body : A → DB unit) :
  (∀ x s d, tables s !! k = Some (mk d) →
     body x s = (Ok tt, set_tables (<[k := mk (step d x)]>) s)) →
  ∀ s d, tables s !! k = Some (mk d) →
    for_each xs body s = (Ok tt, set_tables (<[k := mk (foldl step d xs)]>) s).
Proof.
  intros Hbody. induction xs as [|x xs IH]; intros s d Ht.
  - simpl. unfold ret. by rewrite set_tables_id.
  - simpl. unfold bind. rewrite (Hbody x s d Ht).
    rewrite (IH _ (step d x)) by apply lookup_insert_eq.
    by rewrite set_tables_twice.
Qed.

Lemma _update_meta_length_run s dl :
  tables s !! "meta_length" = Some (length_table dl) →
  _update_meta_length s
  = (Ok tt, set_tables (<["meta_length" :=
                           length_table (foldl length_step dl (non_meta_tables s))]>) s).
Proof.
  intros Ht. unfold _update_meta_length, bind at 1, get.
  apply (for_each_folds length_table length_step); [|done].
  clear. intros t s d Ht.
  unfold bind at 1. rewrite (table_ok _ _ _ Ht).
  unfold bind at 1, lift.
  change (column_by_name "table_name" (length_table d)) with (Ok (cell 0 <$> d)).
  cbv beta iota. unfold bind at 1, length_step. fold (non_none_rows t).
  case_bool_decide as Hk; simpl.
  - unfold ret. by rewrite (on_table_run _ _ _ _ Ht), update_length_row.
  - rewrite (on_table_run _ _ _ _ Ht), insert_length_row. simpl.
    rewrite (on_table_run _ _ _ (length_table (d ++ [[VStr (_name t); VInt 0]])))
      by apply lookup_insert_eq.
    rewrite update_length_row. simpl. by rewrite set_tables_twice.
Qed.

Lemma _update_meta_insert_stack_run s ds :
  tables s !! "meta_insert_stack" = Some (stack_table ds) →
  _update_meta_insert_stack s
  = (Ok tt, set_tables (<["meta_insert_stack" :=
                           stack_table (foldl stack_step ds (non_meta_tables s))]>) s).
Proof.
  intros Ht. unfold _update_meta_insert_stack, bind at 1, get.
  apply (for_each_folds stack_table stack_step); [|done].
  clear. intros t s d Ht.
  unfold bind at 1. rewrite (table_ok _ _ _ Ht).
  unfold bind at 1, lift.
  change (column_by_name "table_name" (stack_table d)) with (Ok (cell 0 <$> d)).
  cbv beta iota. unfold stack_step.
  case_bool_decide as Hk; simpl.
  - unfold ret. by rewrite set_tables_id.
  - by rewrite (on_table_run _ _ _ _ Ht), insert_stack_row.
Qed.

Lemma elem_of_non_meta_tables s k t :
  tables s !! k = Some t → Py.is_meta (_name t) = false → t ∈ non_meta_tables s.
Proof.
  intros Ht Hmeta. unfold non_meta_tables. apply list_elem_of_filter. split; [done|].
  apply list_elem_of_fmap. exists (k, t). split; [done|]. by apply elem_of_map_to_list.
Qed.

Lemma _update_run s dl ds :
  tables s !! "meta_length" = Some (length_table dl) →
  tables s !! "meta_insert_stack" = Some (stack_table ds) →
  ∃ xs,
    _update s
    = (Ok tt, set_tables (λ tb, <["meta_insert_stack" := stack_table (foldl stack_step ds xs)]>
                                  (<["meta_length" :=
                                       length_table (foldl length_step dl (non_meta_tables s))]>
                                     tb)) s)
    ∧ ∀ k t, tables s !! k = Some t → Py.is_meta (_name t) = false → t ∈ xs.
Proof.
  intros Hl Hs. unfold _update, bind. rewrite (_update_meta_length_run s dl Hl).
  rewrite (_update_meta_insert_stack_run _ ds) by (simpl; by rewrite lookup_insert_ne).
  eexists. split; [reflexivity|].
  intros k t Ht Hmeta.
  apply (elem_of_non_meta_tables _ k); [|done].
  simpl. rewrite lookup_insert_ne; [done|]. intros <-.
  rewrite Hl in Ht. by injection Ht as <-.
Qed.

(** X18. [_update] gives every table of the registry that is not internal
    an insert stack (an empty one if it had none) and keeps the recorded
    stacks as they are. *)
Theorem _update_gives_stacks s dl ds :
  tables s !! "meta_length" = Some (length_table dl) →
  tables s !! "meta_insert_stack" = Some (stack_table ds) →
  ∃ s', _update s = (Ok tt, s')
    ∧ (∀ k t, tables s !! k = Some t → Py.is_meta (_name t) = false →
         ∃ v, _get_insert_stack_for_table (_name t) s' = (Ok v, s'))
    ∧ (∀ n v, _get_insert_stack_for_table n s = (Ok v, s) →
         _get_insert_stack_for_table n s' = (Ok v, s')).
Proof.
  intros Hl Hs. destruct (_update_run s dl ds Hl Hs) as (xs & Hrun & Hxs).
  eexists. split; [apply Hrun|].
  set (s' := set_tables _ s).
  assert (tables s' !! "meta_insert_stack" = Some (stack_table (foldl stack_step ds xs)))
    as Hs' by apply lookup_insert_eq.
  split.
  - intros k t Ht Hmeta. rewrite (_get_insert_stack_for_table_spec _ s' _ Hs').
    destruct (stack_steps_known xs ds t (Hxs k t Ht Hmeta)) as [v ->]. eauto.
  - intros n v. rewrite (_get_insert_stack_for_table_spec _ s ds Hs).
    rewrite (_get_insert_stack_for_table_spec _ s' _ Hs').
    destruct (stack_of n ds) as [v'|] eqn:Hv; [|discriminate].
    intros [= <-]. by rewrite (stack_steps_keep n v' xs ds Hv).
Qed.

(** X19. After [_update] the row count recorded for a table of the registry
    that is not internal is the number of its rows that hold a truthy
    value, when no two such tables share a name. *)
Theorem _update_counts_rows s dl ds k t :
  tables s !! "meta_length" = Some (length_table dl) →
  Forall (λ r : row, length r = 2%nat) dl →
  tables s !! "meta_insert_stack" = Some (stack_table ds) →
  NoDup (_name <$> non_meta_tables s) →
  tables s !! k = Some t →
  Py.is_meta (_name t) = false →
  ∃ s' dl', _update s = (Ok tt, s')
    ∧ tables s' !! "meta_length" = Some (length_table dl')
    ∧ length_of (_name t) dl'
      = Some (VInt (Z.of_nat (length (filter (λ r, existsb truthy r = true) (data t))))).
Proof.
  intros Hl Hwidth Hs Hnd Ht Hmeta.
  destruct (_update_run s dl ds Hl Hs) as (xs & Hrun & Hxs).
  eexists _, _. split; [apply Hrun|]. split.
  - simpl. rewrite lookup_insert_ne by done. apply lookup_insert_eq.
  - apply length_steps_count; [done|done|]. by apply (elem_of_non_meta_tables s k).
Qed.
End UpdateLoops.

(** ** The names an operation binds *)

Lemma text_before_idemp sep k : text_before sep (text_before sep k) = text_before sep k.
Proof. apply text_before_no_char, text_before_has_no_char. Qed.

Lemma bind_ok {S A B} (m : M S A) (k : A → M S B) s b s' :
  bind m k s = (Ok b, s') → ∃ a s1, m s = (Ok a, s1) ∧ k a s1 = (Ok b, s').
Proof. unfold bind. destruct (m s) as [[a|e] s1]; [eauto|discriminate]. Qed.

Section Names.
Context `{IndexStructures}.
Variable P : string → Prop.
Hypothesis P_before : ∀ k, P k → P (text_before "." k).
Implicit Types (s : Database) (name : string).

Lemma names_on_table {A} name (m : M Table A) : preserves (every_name P) (on_table name m).
Proof.
  intros s Hs. unfold on_table. destruct (tables s !! name) as [t|] eqn:Ht; [|done].
  destruct (m t) as [r t']. intros k Hk. apply Hs. simpl in Hk.
  rewrite dom_insert_lookup_L in Hk by eauto. done.
Qed.

Lemma names_load_database : preserves (every_name P) load_database.
Proof.
  intros s Hs k Hk. change ((load_database s).2) with (loaded s) in Hk.
  rewrite files_loaded in Hk. apply elem_of_union in Hk as [Hk|Hk]; [|apply Hs; set_solver].
  apply elem_of_dom in Hk as [t Ht]. rewrite tables_loaded in Ht.
  destruct (last _) as [f|] eqn:Hlast.
  - apply last_Some_elem_of, list_elem_of_filter in Hlast as [<- Hf].
    apply P_before, Hs, elem_of_union_r, elem_of_dom. exists f.2.
    apply elem_of_map_to_list. by destruct f.
  - apply Hs, elem_of_union_l, elem_of_dom. eauto.
Qed.

Lemma names_reload_locks : preserves (every_name P) reload_locks.
Proof.
  intros s Hs. unfold reload_locks. destruct (files s !! "meta_locks") as [t|] eqn:Hf; [|done].
  intros k Hk. simpl in Hk. rewrite dom_insert_L in Hk.
  apply Hs. apply elem_of_union in Hk as [Hk|Hk]; [|set_solver].
  apply elem_of_union in Hk as [Hk|Hk]; [|set_solver].
  apply elem_of_singleton in Hk as ->. apply elem_of_union_r, elem_of_dom. eauto.
Qed.

Lemma names__save_locks : preserves (every_name P) _save_locks.
Proof.
  intros s Hs. unfold _save_locks, bind, table.
  destruct (tables s !! "meta_locks") as [t|] eqn:Ht; [|done].
  intros k Hk. simpl in Hk. rewrite dom_insert_L in Hk.
  apply Hs. apply elem_of_union in Hk as [Hk|Hk]; [set_solver|].
  apply elem_of_union in Hk as [Hk|Hk]; [|set_solver].
  apply elem_of_singleton in Hk as ->. apply elem_of_union_l, elem_of_dom. eauto.
Qed.

Lemma names_save_database : preserves (every_name P) save_database.
Proof.
  intros s Hs k Hk. simpl in Hk. rewrite dom_union_L in Hk. apply Hs.
  apply elem_of_union in Hk as [Hk|Hk]; [by apply elem_of_union_l|done].
Qed.

Lemma names_set_index_files g : preserves (every_name P) (modify (set_index_files g)).
Proof. by intros s Hs. Qed.

Lemma names_set_attrs g : preserves (every_name P) (modify (set_attrs g)).
Proof. by intros s Hs. Qed.

Ltac keep :=
  repeat first
    [ apply preserves_ret | apply preserves_raise | apply preserves_get
    | apply preserves_lift | apply preserves_from_option | apply preserves_table
    | apply names_on_table | apply names_load_database | apply names_reload_locks
    | apply names__save_locks | apply names_save_database
    | apply names_set_index_files | apply names_set_attrs
    | apply preserves_when
    | apply preserves_for_each; intros
    | apply preserves_try_except; [|intros]
    | apply preserves_bind; [|intros] ].

Lemma names_lock_owner name : preserves (every_name P) (lock_owner name).
Proof. unfold lock_owner. keep. Qed.

Lemma names_lock_table name mode : preserves (every_name P) (lock_table name mode).
Proof.
  unfold lock_table. apply preserves_bind; [keep|intros s0].
  destruct (_ || _); [keep|].
  apply preserves_bind; [keep|intros _].
  apply preserves_bind; [apply names_lock_owner|intros [pid|]].
  - destruct (negb _); keep.
  - apply preserves_bind; [destruct (decide _); keep|intros]. keep.
Qed.

Lemma names_unlock_table name force : preserves (every_name P) (unlock_table name force).
Proof.
  unfold unlock_table. apply preserves_bind; [keep|intros s0].
  destruct (negb _); [keep|].
  apply preserves_bind; [|intros; keep].
  destruct (negb force); [|keep].
  apply preserves_bind; [apply names_lock_owner|intros [pid|]]; [|keep].
  destruct (negb _); keep.
Qed.

Lemma names_release_if_owner lo name : preserves (every_name P) (release_if_owner lo name).
Proof. unfold release_if_owner. apply preserves_when, names_unlock_table. Qed.

Lemma names__update : preserves (every_name P) _update.
Proof. unfold _update, _update_meta_length, _update_meta_insert_stack. keep. Qed.

Lemma names__add_to_insert_stack name l :
  preserves (every_name P) (_add_to_insert_stack name l).
Proof.
  unfold _add_to_insert_stack. apply preserves_bind.
  - apply preserves__get_insert_stack_for_table.
  - intros [| | |?]; unfold _update_meta_insert_stack_for_tb; keep.
Qed.

Lemma names_delete_from name c : preserves (every_name P) (delete_from name c).
Proof.
  unfold delete_from.
  apply preserves_bind; [keep|intros _].
  apply preserves_bind; [apply names_lock_table|intros lo].
  apply preserves_bind; [keep|intros deleted].
  apply preserves_bind; [apply names_release_if_owner|intros _].
  apply preserves_bind; [apply names__update|intros _].
  apply preserves_bind; [keep|intros _].
  apply preserves_bind; [|intros _; keep].
  apply preserves_when, names__add_to_insert_stack.
Qed.

Lemma names__has_index name column : preserves (every_name P) (_has_index name column).
Proof. unfold _has_index. destruct column; keep. Qed.

Lemma names_drop_index name : preserves (every_name P) (drop_index name).
Proof.
  unfold drop_index.
  apply preserves_bind; [keep|intros].
  apply preserves_bind; [keep|intros].
  apply preserves_when.
  apply preserves_bind; [apply names_delete_from|intros].
  keep.
Qed.

(** what [drop_table] does once the table is out of the registry and
    its file is removed *)
Lemma names_after_pop name s r s' :
  (delete_from "meta_locks" (eq_cond "table_name" name) ;;
     delete_from "meta_length" (eq_cond "table_name" name) ;;
     delete_from "meta_insert_stack" (eq_cond "table_name" name) ;;
     let! indexed := _has_index name None in
     when indexed
       (let! meta_indexes := table "meta_indexes" in
        let! names := lift (column_by_name "table_name" meta_indexes) in
        let to_be_deleted :=
          omap (λ kt : nat * value, if decide (kt.2 = VStr name) then Some kt.1 else None)
               (Py.enumerate names) in
        for_each (reverse to_be_deleted) (λ i,
          let! meta_indexes := table "meta_indexes" in
          match data meta_indexes !! i ≫= (.!! 2%nat) with
          | Some (VStr index_name) => drop_index index_name
          | Some _ => raise TypeError
          | None => raise IndexError
          end)) ;;
     modify (set_attrs (λ a, a ∖ {[name]})) ;;
     save_database) s = (r, s') →
  every_name P s → every_name P s'.
Proof.
  intros Hrun Hs.
  match type of Hrun with ?m _ = _ => assert (preserves (every_name P) m) as Hp end.
  { apply preserves_bind; [apply names_delete_from|intros _].
    apply preserves_bind; [apply names_delete_from|intros _].
    apply preserves_bind; [apply names_delete_from|intros _].
    apply preserves_bind; [apply names__has_index|intros indexed].
    apply preserves_bind; [|intros _; keep].
    apply preserves_when.
    apply preserves_bind; [keep|intros].
    apply preserves_bind; [keep|intros].
    apply preserves_for_each. intros i.
    apply preserves_bind; [keep|intros].
    destruct (_ ≫= _) as [[| |index_name|]|]; try (by keep).
    apply names_drop_index. }
  pose proof (Hp s Hs) as Hq. by rewrite Hrun in Hq.
Qed.
End Names.

Section Drop.
Context `{IndexStructures}.
Implicit Types (s : Database) (name : string).

Lemma attrs_kept_out name :
  ∀ s s', save_database s = (Ok tt, s') → name ∉ attrs s → name ∉ attrs s'.
Proof. by intros s s' [= <-]. Qed.

(** X20. When [drop_table] returns, the table is in the registry and in
    the directory no more, and its name is not among the attributes that
    [table_from_object] has set on the object (nothing is said of an
    attribute of the class of that name), provided no other name of the
    registry or of the directory is loaded under its name. *)
Theorem drop_table_removes name s s' :
  drop_table name s = (Ok tt, s') →
  (∀ k, k ∈ dom (tables s) ∪ dom (files s) → k ≠ name →
     loaded_name (k ++ ".pkl") ≠ name) →
  tables s' !! name = None ∧ files s' !! name = None ∧ name ∉ attrs s'.
Proof.
  intros Hrun Hnames.
  assert (∀ k, k ∈ dom (tables s) ∪ dom (files s) → k ≠ name → text_before "." k ≠ name)
    as Hnames'.
  { intros k Hk Hne. rewrite <- loaded_name_pkl. by apply Hnames. }
  clear Hnames. rename Hnames' into Hnames.
  set (P1 := λ k : string, k ≠ name → text_before "." k ≠ name).
  set (P2 := λ k : string, k ≠ name ∧ text_before "." k ≠ name).
  assert (∀ k, P1 k → P1 (text_before "." k)) as HP1.
  { intros k _ Hne. by rewrite text_before_idemp. }
  assert (∀ k, P2 k → P2 (text_before "." k)) as HP2.
  { intros k [_ Hne]. split; [done|by rewrite text_before_idemp]. }
  unfold drop_table in Hrun.
  apply bind_ok in Hrun as ([] & s1 & Hload & Hrun).
  apply bind_ok in Hrun as (lo & s2 & Hlock & Hrun).
  apply bind_ok in Hrun as (t & s2' & Htable & Hrun).
  apply bind_ok in Hrun as ([] & s3 & Hpop & Hrun).
  apply bind_ok in Hrun as ([] & s4 & Hremove & Hrun).
  assert (every_name P1 s2) as H2.
  { pose proof (names_lock_table P1 HP1 name "x" s1) as Hp. rewrite Hlock in Hp. apply Hp.
    pose proof (names_load_database P1 HP1 s) as Hp'. rewrite Hload in Hp'. by apply Hp'. }
  unfold table in Htable. destruct (tables s2 !! name) eqn:Ht; [|discriminate].
  injection Htable as -> <-. injection Hpop as <-.
  assert (every_name P2 (set_files (delete name) (set_tables (delete name) s2))) as H3.
  { intros k Hk. simpl in Hk. rewrite !dom_delete_L in Hk.
    assert (k ≠ name ∧ k ∈ dom (tables s2) ∪ dom (files s2)) as [Hne Hin].
    { apply elem_of_union in Hk as [Hk|Hk]; apply elem_of_difference in Hk as [Hk Hne];
        rewrite elem_of_singleton in Hne;
        (split; [done|]); [by apply elem_of_union_l|by apply elem_of_union_r]. }
    split; [done|]. by apply H2. }
  assert (every_name P2 s4) as H4.
  { unfold bind at 1, get in Hremove. simpl in Hremove.
    destruct (bool_decide (name ∈ dom (files s2))) eqn:Hfile.
    - unfold bind, modify in Hremove.
      pose proof (pure_calculate_tables_statistics
                    (set_files (delete name) (set_tables (delete name) s2))) as Hpure.
      destruct (calculate_tables_statistics _) as [[[]|e] s4']; [|discriminate].
      injection Hremove as <-. simpl in Hpure. by subst s4'.
    - injection Hremove as <-. apply bool_decide_eq_false in Hfile.
      apply not_elem_of_dom in Hfile.
      replace (set_tables (delete name) s2)
        with (set_files (delete name) (set_tables (delete name) s2)); [done|].
      clear -Hfile. destruct s2 as [? ? ? f ?]. unfold set_files, set_tables. simpl in *.
      f_equal. by apply delete_id. }
  pose proof (names_after_pop P2 HP2 name _ _ _ Hrun H4) as Hrest.
  split; [|split].
  - apply not_elem_of_dom. intros Hin. by destruct (Hrest name (elem_of_union_l _ _ _ Hin)).
  - apply not_elem_of_dom. intros Hin. by destruct (Hrest name (elem_of_union_r _ _ _ Hin)).
  - do 4 (apply bind_ok in Hrun as (? & ? & _ & Hrun)).
    apply bind_ok in Hrun as ([] & s5 & _ & Hrun).
    apply bind_ok in Hrun as ([] & s6 & Hattrs & Hsave).
    injection Hattrs as <-. injection Hsave as <-. simpl.
    intros Hin. apply elem_of_difference in Hin as [_ Hne]. by apply Hne, elem_of_singleton.
Qed.

(** X21. [drop_table] on a table that another process has locked, or that is
    not in the registry after loading, raises and removes nothing. *)
Theorem drop_table_refused name s :
  (∀ d pid, Py.is_meta name = false →
     name ∈ dom (tables (loaded s)) →
     files s !! "meta_locks" = Some (locks_table d) →
     owner_of name d = Some pid →
     pid ≠ VInt (getpid s) →
     drop_table name s = (Raise (Locked pid), remember_locks d (loaded s)))
  ∧ (name ∉ dom (tables (loaded s)) →
     drop_table name s = (Raise (KeyError name), loaded s)).
Proof.
  split.
  - intros d pid Hmeta Hdom Hf Howner Hforeign.
    unfold drop_table, bind. rewrite load_database_run.
    rewrite (lock_table_run name (loaded s) d Hmeta Hdom Hf), Howner.
    by rewrite decide_False.
  - intros Hdom. unfold drop_table, bind. rewrite load_database_run.
    rewrite lock_table_absent by done. by rewrite table_absent.
Qed.
End Drop.

(** ** Dropping an index *)

Lemma satisfies_eq_cond_at i column name r :
  satisfies i (eq_cond column name) r = true ↔ cell i r = VStr name.
Proof.
  unfold satisfies, eq_cond. simpl. split.
  - intros [_ Hop]%andb_true_iff. destruct (cell i r); simpl in Hop; try discriminate.
    unfold value_eqb in Hop. by apply bool_decide_eq_true in Hop.
  - intros Hcell. apply andb_true_iff. split.
    + destruct (is_tombstone r) eqn:Htomb; [|done].
      by rewrite (tombstone_cell r i Htomb) in Hcell.
    + rewrite Hcell. simpl. unfold value_eqb. by apply bool_decide_eq_true.
Qed.

Section DropIndex.
Context `{IndexStructures}.
Implicit Types (s : Database) (d : list row) (name : string).

Lemma delete_index_records index_name d :
  ∃ ps, _delete_where (eq_cond "index_name" index_name) (indexes_table d)
        = (Ok ps, indexes_table (filter (λ r, cell 2 r ≠ VStr index_name) d)).
Proof.
  eexists. unfold _delete_where, matching_positions. simpl.
  rewrite rows_off_positions. f_equal. unfold set_data, indexes_table. simpl. f_equal.
  apply list_filter_iff. intros r. rewrite <- (satisfies_eq_cond_at 2 "index_name").
  by destruct (satisfies 2 (eq_cond "index_name" index_name) r).
Qed.

Lemma lock_table_meta name mode s :
  Py.is_meta name = true → lock_table name mode s = (Ok None, s).
Proof. intros Hmeta. unfold lock_table, bind, get. by rewrite Hmeta. Qed.

(** X22. [drop_index] of an index that the registry records removes its
    records from the reloaded [meta_indexes] and its file from the
    directory, and saves. ([Table._delete_where] as modelled from the
    specification.) *)
Theorem drop_index_removes index_name s d0 d dl ds :
  tables s !! "meta_indexes" = Some (indexes_table d0) →
  VStr index_name ∈ cell 2 <$> d0 →
  tables (loaded s) !! "meta_indexes" = Some (indexes_table d) →
  tables (loaded s) !! "meta_length" = Some (length_table dl) →
  tables (loaded s) !! "meta_insert_stack" = Some (stack_table ds) →
  ∃ s', drop_index index_name s = (Ok tt, s')
    ∧ tables s' !! "meta_indexes"
      = Some (indexes_table (filter (λ r, cell 2 r ≠ VStr index_name) d))
    ∧ index_files s' = delete index_name (index_files s)
    ∧ tables s' ⊆ files s'.
Proof.
  intros Hmi0 Hin Hmi Hl Hs.
  unfold drop_index, bind at 1. rewrite (table_ok _ _ _ Hmi0).
  unfold bind at 1, lift.
  change (column_by_name "index_name" (indexes_table d0)) with (Ok (cell 2 <$> d0)).
  cbv beta iota. rewrite (bool_decide_eq_true_2 _ Hin). unfold when.
  unfold bind at 1, delete_from. unfold bind at 1. rewrite load_database_run.
  set (s1 := loaded s) in *.
  unfold bind at 1. rewrite (lock_table_meta "meta_indexes" "x" s1 eq_refl).
  unfold bind at 1. rewrite (on_table_run _ _ _ _ Hmi).
  destruct (delete_index_records index_name d) as [ps ->]. cbn [fst snd].
  set (s2 := set_tables _ s1).
  unfold bind at 1, release_if_owner. simpl bool_decide. unfold when at 1, ret at 1.
  destruct (_update_spec s2 dl ds) as (dl' & extra & Hupd & _).
  { simpl. by rewrite lookup_insert_ne. }
  { simpl. by rewrite lookup_insert_ne. }
  unfold bind at 1. rewrite Hupd.
  set (s3 := set_tables _ s2).
  unfold bind, save_database, modify, when, ret. simpl negb. cbv iota.
  eexists. split; [reflexivity|]. split; [|split].
  - simpl. rewrite !lookup_insert_ne by done. apply lookup_insert_eq.
  - done.
  - simpl. apply map_union_subseteq_l.
Qed.
End DropIndex.

(** ** A row operation that succeeds *)

Section Succeeds.
Context `{IndexStructures}.
Implicit Types (s : Database) (d : list row) (name : string).

(** X23. An update, delete, sort or cast whose table method returns
    does return: the table of the registry is the one the method leaves,
    the registry is saved, and the lock table on disk is as found, the
    lock taken for the operation being released. *)
Theorem row_operation_succeeds o name s t dk dl ds old t' :
  row_operation_on o = Some name →
  Py.is_meta name = false →
  tables (loaded s) !! name = Some t →
  files s !! "meta_locks" = Some (locks_table dk) →
  owner_of name dk = None ∨ owner_of name dk = Some (VInt (getpid s)) →
  tables (loaded s) !! "meta_length" = Some (length_table dl) →
  tables (loaded s) !! "meta_insert_stack" = Some (stack_table ds) →
  stack_of name ds = Some (VList old) →
  table_step o t = Some (Ok tt, t') →
  ∃ s', run o s = (Ok tt, s')
    ∧ tables s' !! name = Some t'
    ∧ tables s' ⊆ files s'
    ∧ files s' !! "meta_locks" = Some (locks_table dk).
Proof.
  intros Ho Hmeta Ht Hf Howner Hl Hs Hstack Hstep.
  pose proof (not_meta_key name "meta_locks" Hmeta eq_refl) as Hne1.
  pose proof (not_meta_key name "meta_length" Hmeta eq_refl) as Hne2.
  pose proof (not_meta_key name "meta_insert_stack" Hmeta eq_refl) as Hne3.
  set (s1 := loaded s) in *.
  assert (name ∈ dom (tables s1)) as Hdom1 by (apply elem_of_dom; eauto).
  destruct (lock_step name s1 dk Hmeta Hdom1 Hf Howner) as (lo & dk' & Hlock & Hout).
  set (s2 := persist_locks dk' s1) in *.
  assert (tables s2 !! name = Some t) as Ht2 by (simpl; by rewrite lookup_insert_ne).
  set (s3 := set_tables (<[name := t']>) s2).
  assert (release_if_owner lo name s3 = (Ok tt, persist_locks dk s3)) as Hrel.
  { apply (release_step name s3 dk lo dk' Hout);
      [apply elem_of_dom; simpl; rewrite lookup_insert_eq; eauto
      |simpl; rewrite lookup_insert_ne by done; apply lookup_insert_eq
      |simpl; apply lookup_insert_eq]. }
  set (s4 := persist_locks dk s3) in *.
  destruct (_update_spec s4 dl ds) as (dl' & extra & Hupd & Hextra).
  { simpl. rewrite !lookup_insert_ne by done. done. }
  { simpl. rewrite !lookup_insert_ne by done. done. }
  set (s5 := set_tables _ s4) in *.
  assert (∀ s6, tables s6 = tables s5 → files s6 = tables s5 ∪ files s5 →
            tables s6 !! name = Some t' ∧ tables s6 ⊆ files s6
            ∧ files s6 !! "meta_locks" = Some (locks_table dk)) as Hfinal.
  { intros s6 Htb Hfl. rewrite Htb, Hfl. split; [|split].
    - simpl. rewrite !lookup_insert_ne by done. apply lookup_insert_eq.
    - apply map_union_subseteq_l.
    - apply lookup_union_Some_l. simpl. rewrite !lookup_insert_ne by done.
      apply lookup_insert_eq. }
  assert ((release_if_owner lo name ;; _update ;; save_database) s3
          = (Ok tt, set_files (λ f, tables s5 ∪ f) s5)) as Htail.
  { unfold bind at 1. rewrite Hrel. unfold bind at 1. by rewrite Hupd. }
  destruct o; cbn [row_operation_on] in Ho; try discriminate; injection Ho as ->;
    cbn [table_step] in Hstep; cbn [run].
  - unfold update. destruct (Py.split _ _) as [|? [|? [|]]]; try done.
    injection Hstep as Hstep.
    unfold bind at 1. rewrite load_database_run. fold s1.
    unfold bind at 1. rewrite Hlock.
    unfold bind at 1. rewrite (on_table_run _ _ _ _ Ht2), Hstep. cbn [fst snd].
    cbv beta. fold s3. rewrite Htail. eexists. split; [reflexivity|]. by apply Hfinal.
  - unfold delete_from, bind at 1. rewrite load_database_run. fold s1.
    unfold bind at 1. rewrite Hlock.
    unfold bind at 1. rewrite (on_table_run _ _ _ _ Ht2).
    destruct (_delete_where c t) as [[deleted|?] ?]; cbn [fst snd forget] in *;
      simplify_eq.
    cbv beta. fold s3.
    unfold bind at 1. rewrite Hrel. unfold bind at 1. rewrite Hupd.
    unfold bind at 1, save_database at 1, modify.
    set (s6 := set_files (λ f, tables s5 ∪ f) s5).
    rewrite Hmeta. unfold when, negb, bind at 1, _add_to_insert_stack, bind at 1.
    rewrite (_get_insert_stack_for_table_spec name s6 (ds ++ extra));
      [|simpl; apply lookup_insert_eq].
    rewrite (stack_of_app _ _ _ _ Hstack).
    rewrite (_update_meta_insert_stack_for_tb_spec name _ s6 (ds ++ extra));
      [|simpl; apply lookup_insert_eq].
    unfold save_database, modify.
    eexists. split; [reflexivity|]. split; [|split].
    + simpl. rewrite !lookup_insert_ne by done. apply lookup_insert_eq.
    + simpl. apply map_union_subseteq_l.
    + simpl. apply lookup_union_Some_l. rewrite !lookup_insert_ne by done.
      apply lookup_insert_eq.
  - unfold sort, bind at 1. rewrite load_database_run. fold s1.
    unfold bind at 1. rewrite Hlock.
    unfold bind at 1. rewrite (on_table_run _ _ _ _ Ht2).
    destruct (_sort column_name asc t) as [[?|?] ?]; cbn [fst snd forget] in *;
      simplify_eq.
    cbv beta. fold s3. rewrite Htail. eexists. split; [reflexivity|]. by apply Hfinal.
  - unfold cast, bind at 1. rewrite load_database_run. fold s1.
    unfold bind at 1. rewrite Hlock.
    unfold bind at 1. rewrite (table_ok _ _ _ Ht2).
    unfold bind at 1, lift.
    destruct (eval_type cast_type) as [ty|e0]; [|discriminate]. injection Hstep as Hstep.
    unfold bind at 1. rewrite (on_table_run _ _ _ _ Ht2), Hstep. cbn [fst snd].
    cbv beta. fold s3. rewrite Htail. eexists. split; [reflexivity|]. by apply Hfinal.
Qed.
End Succeeds.

(** ** Reading a table that another process has locked *)

Section RefusedRead.
Context `{IndexStructures}.
Implicit Types (s : Database) (d : list row) (name : string).

(** X24. Readers are locked out too: on a table that another process
    has locked, [select] and [show_table] raise [Locked] with the owner's
    pid, having only reloaded the registry. *)
Theorem reads_refused name s d pid :
  Py.is_meta name = false →
  files s !! "meta_locks" = Some (locks_table d) →
  owner_of name d = Some pid →
  pid ≠ VInt (getpid s) →
  (∀ columns c distinct order_by limit desc save_as return_object,
     select columns (ByName name) c distinct order_by limit desc save_as return_object s
     = (Raise (Locked pid), remember_locks d (loaded s)))
  ∧ (name ∈ dom (tables (loaded s)) →
       show_table name s = (Raise (Locked pid), remember_locks d (loaded s))).
Proof.
  intros Hmeta Hf Howner Hforeign.
  assert (is_locked (ByName name) (loaded s)
          = (Raise (Locked pid), remember_locks d (loaded s))) as Hlocked.
  { rewrite (proj2 is_locked_run name (loaded s) d Hmeta Hf), Howner.
    by rewrite decide_False. }
  split.
  - intros. unfold select. change recursion_limit with (S 999). generalize 999%nat. intros depth.
    cbn [select_rec]. unfold bind at 1. rewrite load_database_run.
    unfold bind at 1. by rewrite Hlocked.
  - intros [t Ht]%elem_of_dom. unfold show_table, bind at 1. rewrite load_database_run.
    unfold bind at 1. rewrite (table_ok _ _ _ Ht). unfold bind at 1. by rewrite Hlocked.
Qed.
End RefusedRead.

(** ** Creating and importing a table *)

Lemma Table_init_name name names types primary_key unique t :
  Table_init name names types primary_key unique = Ok t → _name t = name.
Proof.
  unfold Table_init. destruct (eval_types types); [|discriminate].
  destruct (negb _); [discriminate|].
  destruct primary_key as [k|]; [|by intros [= <-]].
  destruct (fst <$> _); [by intros [= <-]|discriminate].
Qed.

Lemma Table_init_empty name names types primary_key unique t :
  Table_init name names types primary_key unique = Ok t → data t = [].
Proof.
  unfold Table_init. destruct (eval_types types); [|discriminate].
  destruct (negb _); [discriminate|].
  destruct primary_key as [k|]; [|by intros [= <-]].
  destruct (fst <$> _); [by intros [= <-]|discriminate].
Qed.

Lemma stack_of_None name d : stack_of name d = None → VStr name ∉ cell 0 <$> d.
Proof.
  unfold stack_of. intros Hnone Hin. apply records_known in Hin as [r Hr].
  by rewrite Hr in Hnone.
Qed.

Lemma stack_step_frame n d t :
  n ≠ _name t → stack_of n (stack_step d t) = stack_of n d.
Proof.
  intros Hne. unfold stack_step, stack_of. case_bool_decide; [done|].
  rewrite records_app. unfold records at 2.
  rewrite filter_cons, decide_False, filter_nil; [by rewrite app_nil_r|].
  intros [= Hc]. by apply Hne.
Qed.

Lemma stack_steps_new name (xs : list Table) d t :
  t ∈ xs → _name t = name → stack_of name d = None →
  stack_of name (foldl stack_step d xs) = Some (VList []).
Proof.
  revert d. induction xs as [|x xs IH]; intros d Hin Hname Hnone;
    [by apply elem_of_nil in Hin|].
  simpl. destruct (decide (_name x = name)) as [Hx|Hx].
  - apply stack_steps_keep. unfold stack_step.
    rewrite bool_decide_eq_false_2 by (rewrite Hx; by apply stack_of_None).
    unfold stack_of in *. rewrite records_app.
    destruct (records name d); [|done].
    unfold records. rewrite filter_cons, decide_True by (by rewrite Hx). done.
  - apply elem_of_cons in Hin as [->|Hin]; [done|].
    apply IH; [done|done|]. rewrite stack_step_frame by done. done.
Qed.

Section Statistics.
Context `{IndexStructures}.
Implicit Types (s : Database) (t : Table).

Lemma for_each_passes {A} (xs : list A) (body : A → DB unit) s :
  (∀ x, x ∈ xs → body x s = (Ok tt, s)) → for_each xs body s = (Ok tt, s).
Proof.
  induction xs as [|x xs IH]; intros Hbody; [done|].
  simpl. unfold bind. rewrite Hbody by left. apply IH. intros y Hy. apply Hbody. by right.
Qed.

Lemma for_each_passed {A} (xs : list A) (body : A → DB unit) s :
  (∀ x, (body x s).2 = s) →
  (for_each xs body s).1 = Ok tt → ∀ x, x ∈ xs → body x s = (Ok tt, s).
Proof.
  intros Hpure. induction xs as [|x xs IH]; intros Hrun y Hy; [by apply elem_of_nil in Hy|].
  simpl in Hrun. unfold bind in Hrun. pose proof (Hpure x) as Hx.
  destruct (body x s) as [[[]|e] s1] eqn:Hb; simpl in Hx; subst s1; [|done].
  apply elem_of_cons in Hy as [->|Hy]; [done|]. by apply IH.
Qed.

Lemma count_columns (cs : list string) t s :
  let counting :=
    for_each cs
      (λ col_name : string,
         let! distinct_values := lift (column_by_name col_name t) in
         if forallb hashable distinct_values then ret tt else raise TypeError) in
  (counting s).2 = s
  ∧ ((counting s).1 = Ok tt
     ↔ forallb (λ c, match column_by_name c t with
                     | Ok distinct_values => forallb hashable distinct_values
                     | Raise _ => false
                     end) cs = true).
Proof.
  induction cs as [|c cs IH]; [done|].
  simpl in *. unfold bind, lift. simpl.
  destruct (column_by_name c t) as [vs|e]; simpl; [|split; [done|split; discriminate]].
  destruct (forallb hashable vs); simpl; [|split; [done|split; discriminate]].
  exact IH.
Qed.

Lemma count_table t s :
  for_each (column_names t)
    (λ col_name : string,
       let! distinct_values := lift (column_by_name col_name t) in
       if forallb hashable distinct_values then ret tt else raise TypeError) s
  = (Ok tt, s) ↔ counted t = true.
Proof.
  destruct (count_columns (column_names t) t s) as [Hpure Hrun]. simpl in *.
  unfold counted. rewrite <- Hrun.
  destruct (for_each _ _ s) as [r s1]. simpl in *. subst s1. split; [by intros [= ->]|by intros ->].
Qed.

(** The statistics pass exactly when every table registered under a name
    that is no meta name can be counted; they change nothing. *)
Lemma calculate_tables_statistics_run s :
  (calculate_tables_statistics s).1 = Ok tt
  ↔ ∀ k t, tables s !! k = Some t → Py.is_meta k = false → counted t = true.
Proof.
  unfold calculate_tables_statistics, bind at 1, get.
  case_bool_decide as Hempty.
  { split; [|done]. intros _ k t Hk. by rewrite Hempty in Hk. }
  split.
  - intros Hrun k t Hk Hmeta.
    apply (count_table t s).
    apply (for_each_passed _ _ s
             (λ kt, proj1 (count_columns (column_names kt.2) kt.2 s)) Hrun (k, t)).
    apply list_elem_of_filter. split; [done|]. by apply elem_of_map_to_list.
  - intros Hall. rewrite for_each_passes; [done|].
    intros [k t] [Hmeta Hk%elem_of_map_to_list]%list_elem_of_filter. simpl in *.
    apply count_table. by apply (Hall k t).
Qed.

Lemma calculate_tables_statistics_passes s :
  (∀ k t, tables s !! k = Some t → Py.is_meta k = false → counted t = true) →
  calculate_tables_statistics s = (Ok tt, s).
Proof.
  intros Hall%calculate_tables_statistics_run.
  pose proof (pure_calculate_tables_statistics s) as Hpure.
  destruct (calculate_tables_statistics s) as [r s1]. simpl in *. by subst.
Qed.

Lemma calculate_tables_statistics_fails s k t :
  tables s !! k = Some t → Py.is_meta k = false → counted t = false →
  ∃ e, calculate_tables_statistics s = (Raise e, s).
Proof.
  intros Hk Hmeta Hc.
  pose proof (pure_calculate_tables_statistics s) as Hpure.
  pose proof (calculate_tables_statistics_run s) as [Hrun _].
  destruct (calculate_tables_statistics s) as [[[]|e] s1]; simpl in *; subst s1; [|eauto].
  rewrite (Hrun eq_refl k t Hk Hmeta) in Hc. discriminate.
Qed.

Lemma empty_counted t : data t = [] → counted t = true.
Proof.
  intros Hd. unfold counted. apply forallb_forall. intros c Hc%list_elem_of_In.
  unfold column_by_name, column_index.
  destruct (list_find_elem_of (λ x, x = c) (column_names t) c Hc eq_refl) as [[i x] ->].
  simpl. by rewrite Hd.
Qed.
End Statistics.

Section Create.
Context `{IndexStructures}.
Implicit Types (s : Database) (d : list row) (name : string).

Lemma create_table_run name column_names column_types primary_key unique_columns s t0 dl ds :
  Table_init name (Py.split "," column_names) (Py.split "," column_types) primary_key
    (Py.split "," <$> unique_columns) = Ok t0 →
  Py.is_meta name = false →
  tables s !! "meta_length" = Some (length_table dl) →
  tables s !! "meta_insert_stack" = Some (stack_table ds) →
  others_counted name s →
  ∃ dl' ds',
    let s1 := set_tables (λ tb, <["meta_insert_stack" := stack_table ds']>
                                  (<["meta_length" := length_table dl']>
                                     (<[name := t0]> tb))) s in
    create_table name column_names column_types primary_key unique_columns s
    = (Ok tt, set_files (λ f, tables s1 ∪ f) s1)
    ∧ stack_of name ds' = Some (default (VList []) (stack_of name ds)).
Proof.
  intros Hinit Hmeta Hl Hs Hothers.
  pose proof (not_meta_key name "meta_length" Hmeta eq_refl) as Hne2.
  pose proof (not_meta_key name "meta_insert_stack" Hmeta eq_refl) as Hne3.
  set (s0 := set_tables (<[name := t0]>) s).
  destruct (_update_run s0 dl ds) as (xs & Hupd & Hxs).
  { simpl. by rewrite lookup_insert_ne. }
  { simpl. by rewrite lookup_insert_ne. }
  eexists _, (foldl stack_step ds xs). split.
  - unfold create_table, bind at 1, lift. rewrite Hinit.
    unfold bind at 1, modify. fold s0. unfold bind at 1. rewrite Hupd.
    unfold bind at 1. rewrite calculate_tables_statistics_passes.
    { unfold save_database, modify. reflexivity. }
    intros k t Hk Hk_meta. simpl in Hk.
    rewrite !lookup_insert_ne in Hk by (intros <-; discriminate).
    destruct (decide (k = name)) as [->|Hne].
    + rewrite lookup_insert_eq in Hk. injection Hk as <-.
      apply empty_counted, (Table_init_empty _ _ _ _ _ _ Hinit).
    + rewrite lookup_insert_ne in Hk by done. by apply (Hothers k t).
  - assert (t0 ∈ xs) as Hin.
    { apply (Hxs name); [apply lookup_insert_eq|].
      by rewrite (Table_init_name _ _ _ _ _ _ Hinit). }
    destruct (stack_of name ds) as [v|] eqn:Hv; simpl.
    + by apply stack_steps_keep.
    + apply (stack_steps_new name xs ds t0); [done| |done].
      by apply (Table_init_name _ _ _ _ _ _ Hinit).
Qed.

Lemma create_table_stops name column_names column_types primary_key unique_columns
    s t0 dl ds k t :
  Table_init name (Py.split "," column_names) (Py.split "," column_types) primary_key
    (Py.split "," <$> unique_columns) = Ok t0 →
  Py.is_meta name = false →
  tables s !! "meta_length" = Some (length_table dl) →
  tables s !! "meta_insert_stack" = Some (stack_table ds) →
  tables s !! k = Some t → Py.is_meta k = false → k ≠ name → counted t = false →
  ∃ e s',
    create_table name column_names column_types primary_key unique_columns s = (Raise e, s')
    ∧ files s' = files s.
Proof.
  intros Hinit Hmeta Hl Hs Hk Hk_meta Hne Hc.
  pose proof (not_meta_key name "meta_length" Hmeta eq_refl) as Hne2.
  pose proof (not_meta_key name "meta_insert_stack" Hmeta eq_refl) as Hne3.
  set (s0 := set_tables (<[name := t0]>) s).
  destruct (_update_run s0 dl ds) as (xs & Hupd & Hxs).
  { simpl. by rewrite lookup_insert_ne. }
  { simpl. by rewrite lookup_insert_ne. }
  unfold create_table, bind at 1, lift. rewrite Hinit.
  unfold bind at 1, modify. fold s0. unfold bind at 1. rewrite Hupd.
  unfold bind at 1.
  edestruct (calculate_tables_statistics_fails) as [e ->]; [|exact Hk_meta|exact Hc|].
  { simpl. rewrite !lookup_insert_ne by (try done; intros <-; discriminate). exact Hk. }
  by eexists _, _.
Qed.

(** X25. [create_table] binds the name to an empty table in the registry and
    in the directory; the table has an insert stack, an empty one unless a
    stack was recorded under the name already. This is so when every
    other table registered under a name that is no meta name can be
    counted; when one of them cannot, the statistics raise and nothing is
    written. *)
Theorem create_table_registers name column_names column_types primary_key unique_columns
    s t0 dl ds :
  Table_init name (Py.split "," column_names) (Py.split "," column_types) primary_key
    (Py.split "," <$> unique_columns) = Ok t0 →
  Py.is_meta name = false →
  tables s !! "meta_length" = Some (length_table dl) →
  tables s !! "meta_insert_stack" = Some (stack_table ds) →
  (others_counted name s →
   ∃ s',
     create_table name column_names column_types primary_key unique_columns s = (Ok tt, s')
     ∧ tables s' !! name = Some t0
     ∧ files s' !! name = Some t0
     ∧ data t0 = []
     ∧ _get_insert_stack_for_table name s'
       = (Ok (default (VList []) (stack_of name ds)), s'))
  ∧ (∀ k t, tables s !! k = Some t → Py.is_meta k = false → k ≠ name → counted t = false →
     ∃ e s',
       create_table name column_names column_types primary_key unique_columns s
       = (Raise e, s')
       ∧ files s' = files s).
Proof.
  intros Hinit Hmeta Hl Hs. split; [|intros k t; by apply (create_table_stops _ _ _ _ _ s t0 dl ds k t)].
  intros Hothers.
  pose proof (not_meta_key name "meta_length" Hmeta eq_refl) as Hne2.
  pose proof (not_meta_key name "meta_insert_stack" Hmeta eq_refl) as Hne3.
  destruct (create_table_run name column_names column_types primary_key unique_columns
              s t0 dl ds Hinit Hmeta Hl Hs Hothers) as (dl' & ds' & Hrun & Hstack).
  eexists. split; [apply Hrun|]. split; [|split; [|split]].
  - simpl. rewrite !lookup_insert_ne by done. apply lookup_insert_eq.
  - simpl. apply lookup_union_Some_l. rewrite !lookup_insert_ne by done.
    apply lookup_insert_eq.
  - by apply (Table_init_empty _ _ _ _ _ _ Hinit).
  - rewrite (_get_insert_stack_for_table_spec name _ ds') by apply lookup_insert_eq.
    by rewrite Hstack.
Qed.

Lemma for_each_on_table {A} k (xs : list A) (f : A → M Table unit) s t :
  tables s !! k = Some t →
  for_each xs (λ x, on_table k (f x)) s
  = ((for_each xs f t).1, set_tables (<[k := (for_each xs f t).2]>) s).
Proof.
  revert s t. induction xs as [|x xs IH]; intros s t Ht.
  - simpl. unfold ret. simpl. by rewrite set_tables_id.
  - simpl. unfold bind. rewrite (on_table_run _ _ _ _ Ht).
    destruct (f x t) as [[[]|e] t1]; simpl; [|done].
    rewrite (IH _ t1) by apply lookup_insert_eq. by rewrite set_tables_twice.
Qed.

Lemma import_table_run name line rows column_types primary_key s t0 dk dl ds :
  Py.is_meta name = false →
  Table_init name (Py.split "," (strip_char newline line))
    (Py.split ","
       (default (join_with "," ((λ _, "str") <$> Py.split "," (strip_char newline line)))
          column_types))
    primary_key None = Ok t0 →
  tables s !! "meta_length" = Some (length_table dl) →
  tables s !! "meta_insert_stack" = Some (stack_table ds) →
  tables s !! "meta_locks" = Some (locks_table dk) →
  owner_of name dk = None →
  others_counted name s →
  ∃ s', import_table name (line :: rows) column_types primary_key s
        = ((import_rows rows t0).1, s')
    ∧ match (import_rows rows t0).1 with
      | Ok _ =>
          tables s' !! name = Some (import_rows rows t0).2
          ∧ tables s' ⊆ files s'
          ∧ files s' !! "meta_locks" = Some (locks_table dk)
      | Raise _ =>
          files s' !! name = Some t0
          ∧ files s' !! "meta_locks"
            = Some (locks_table (dk ++ [lock_record name (getpid s)]))
      end.
Proof.
  intros Hmeta Hinit Hl Hs Hk Hfree Hothers.
  pose proof (not_meta_key name "meta_locks" Hmeta eq_refl) as Hne1.
  pose proof (not_meta_key name "meta_length" Hmeta eq_refl) as Hne2.
  pose proof (not_meta_key name "meta_insert_stack" Hmeta eq_refl) as Hne3.
  unfold import_table.
  assert (match column_types with
          | Some tys => tys
          | None => join_with "," ((λ _, "str") <$> Py.split "," (strip_char newline line))
          end
          = default (join_with "," ((λ _, "str") <$> Py.split "," (strip_char newline line)))
              column_types) as -> by (by destruct column_types).
  destruct (create_table_run name _ _ primary_key None s t0 dl ds Hinit Hmeta Hl Hs Hothers)
    as (dl' & ds' & Hcreate & _).
  cbv zeta in Hcreate. unfold bind at 1. rewrite Hcreate.
  set (s1 := set_tables _ s).
  set (s2 := set_files _ s1).
  assert (tables s2 !! name = Some t0) as Ht2.
  { simpl. rewrite !lookup_insert_ne by done. apply lookup_insert_eq. }
  assert (files s2 !! "meta_locks" = Some (locks_table dk)) as Hf2.
  { simpl. apply lookup_union_Some_l. by rewrite !lookup_insert_ne. }
  assert (name ∈ dom (tables s2)) as Hdom2 by (apply elem_of_dom; eauto).
  unfold bind at 1. rewrite (lock_table_run name s2 dk Hmeta Hdom2 Hf2), Hfree.
  set (dk' := (dk ++ [lock_record name (getpid s2)])%list).
  set (s3 := persist_locks dk' s2).
  assert (tables s3 !! name = Some t0) as Ht3
    by (unfold s3; simpl; rewrite lookup_insert_ne by done; exact Ht2).
  unfold bind at 1. rewrite (for_each_on_table name rows _ s3 t0 Ht3).
  fold (import_rows rows). destruct (import_rows rows t0) as [[[]|e] t1]; cbn [fst snd].
  - set (s4 := set_tables (<[name := t1]>) s3).
    unfold bind at 1.
    rewrite (release_step name s4 dk (Some true) dk');
      [|left; done
       |apply elem_of_dom; simpl; rewrite lookup_insert_eq; eauto
       |simpl; rewrite lookup_insert_ne by done; apply lookup_insert_eq
       |simpl; apply lookup_insert_eq].
    set (s5 := persist_locks dk s4).
    destruct (_update_spec s5 dl' ds') as (dl'' & extra & Hupd & _).
    { simpl. rewrite !lookup_insert_ne by done. apply lookup_insert_eq. }
    { simpl. rewrite !lookup_insert_ne by done. apply lookup_insert_eq. }
    unfold bind at 1. rewrite Hupd. unfold save_database, modify.
    eexists. split; [reflexivity|]. split; [|split].
    + simpl. rewrite !lookup_insert_ne by done. apply lookup_insert_eq.
    + simpl. apply map_union_subseteq_l.
    + simpl. apply lookup_union_Some_l. rewrite !lookup_insert_ne by done.
      apply lookup_insert_eq.
  - eexists. split; [reflexivity|]. split.
    + simpl. rewrite lookup_insert_ne by done. apply lookup_union_Some_l.
      rewrite !lookup_insert_ne by done. apply lookup_insert_eq.
    + simpl. apply lookup_insert_eq.
Qed.

(** X26. [import_table] creates the table from the first line and
    inserts the other lines as rows, in order, when every other table
    registered under a name that is no meta name can be counted (so that
    the statistics of [create_table] pass). If every row is accepted it
    returns with the rows in the table, the registry saved and the lock
    released; if a row is rejected its exception escapes with the empty
    table and the lock of the import on disk. On a file with no line it
    raises [UnboundLocalError] with nothing done. *)
Theorem import_table_imports name line rows column_types primary_key s t0 dk dl ds :
  Py.is_meta name = false →
  Table_init name (Py.split "," (strip_char newline line))
    (Py.split ","
       (default (join_with "," ((λ _, "str") <$> Py.split "," (strip_char newline line)))
          column_types))
    primary_key None = Ok t0 →
  tables s !! "meta_length" = Some (length_table dl) →
  tables s !! "meta_insert_stack" = Some (stack_table ds) →
  tables s !! "meta_locks" = Some (locks_table dk) →
  owner_of name dk = None →
  others_counted name s →
  import_table name [] column_types primary_key s
  = (Raise (UnboundLocalError "lock_ownership"), s)
  ∧ ∃ s', import_table name (line :: rows) column_types primary_key s
          = ((import_rows rows t0).1, s')
      ∧ match (import_rows rows t0).1 with
        | Ok _ =>
            tables s' !! name = Some (import_rows rows t0).2
            ∧ tables s' ⊆ files s'
            ∧ files s' !! "meta_locks" = Some (locks_table dk)
        | Raise _ =>
            files s' !! name = Some t0
            ∧ files s' !! "meta_locks"
              = Some (locks_table (dk ++ [lock_record name (getpid s)]))
        end.
Proof. intros. split; [done|]. by eapply import_table_run. Qed.
End Create.

(** ** What select returns *)

Section SelectReturns.
Context `{IndexStructures}.
Implicit Types (s : Database) (d : list row) (name : string).

Lemma is_locked_free name s d :
  Py.is_meta name = false →
  files s !! "meta_locks" = Some (locks_table d) →
  owner_of name d = None ∨ owner_of name d = Some (VInt (getpid s)) →
  is_locked (ByName name) (loaded s) = (Ok false, remember_locks d (loaded s)).
Proof.
  intros Hmeta Hf Hown.
  rewrite (proj2 is_locked_run name (loaded s) d Hmeta Hf).
  destruct Hown as [->| ->]; [done|]. by rewrite getpid_loaded, decide_True.
Qed.

(** X27. Without a condition, or for a table on which no index is
    recorded, [select] on a table that no other process has locked yields
    what [Table._select_where] yields on the reloaded table, as an object
    if one is asked for; the ordering column, the direction and the limit
    are handed over in the table method's order. *)
Theorem select_returns columns name c distinct order_by limit desc return_object
    s d t meta_indexes names :
  Py.is_meta name = false →
  files s !! "meta_locks" = Some (locks_table d) →
  owner_of name d = None ∨ owner_of name d = Some (VInt (getpid s)) →
  tables (loaded s) !! name = Some t →
  tables (loaded s) !! "meta_indexes" = Some meta_indexes →
  column_by_name "table_name" meta_indexes = Ok names →
  c = None ∨ VStr name ∉ names →
  select columns (ByName name) c distinct order_by limit desc None return_object s
  = (match _select_where columns c distinct order_by desc limit None None t with
     | Ok r => Ok (if return_object then Some r else None)
     | Raise e => Raise e
     end, remember_locks d (loaded s)).
Proof.
  intros Hmeta Hf Hown Ht Hmi Hnames Hplain.
  pose proof (not_meta_key name "meta_locks" Hmeta eq_refl) as Hne.
  unfold select. change recursion_limit with (S 999). generalize 999%nat. intros depth. cbn [select_rec].
  unfold bind at 1. rewrite load_database_run.
  unfold bind at 1. rewrite (is_locked_free name s d Hmeta Hf Hown).
  set (s1 := remember_locks d (loaded s)).
  assert (tables s1 !! name = Some t) as Ht1 by (simpl; by rewrite lookup_insert_ne).
  assert (tables s1 !! "meta_indexes" = Some meta_indexes) as Hmi1
    by (simpl; by rewrite lookup_insert_ne).
  unfold bind at 1, _has_index, bind at 1. rewrite (table_ok _ _ _ Hmi1).
  unfold bind at 1, lift at 1. rewrite Hnames. unfold ret at 1.
  assert ((let! t := table name in
           lift (_select_where columns c distinct order_by desc limit None None t)) s1
          = (_select_where columns c distinct order_by desc limit None None t, s1)) as Hplain'.
  { unfold bind. by rewrite (table_ok _ _ _ Ht1). }
  unfold bind at 1.
  destruct Hplain as [->|Hnot].
  - destruct (bool_decide _); cbv beta iota; rewrite Hplain';
      destruct (_select_where _ _ _ _ _ _ _ _ _); by destruct return_object.
  - rewrite (bool_decide_eq_false_2 _ Hnot).
    destruct c; cbv beta iota; rewrite Hplain';
      destruct (_select_where _ _ _ _ _ _ _ _ _); by destruct return_object.
Qed.
End SelectReturns.

(** ** The index files under the row operations *)

Section IndexFiles.
Context `{IndexStructures}.
Variable I : Database → Prop.
Hypothesis I_tables : ∀ g s, I s → I (set_tables g s).
Hypothesis I_files : ∀ g s, I s → I (set_files g s).
Implicit Types (s : Database) (name : string).

Lemma off_save_database : preserves I save_database.
Proof. intros s Hs. by apply I_files. Qed.

Lemma off__save_locks : preserves I _save_locks.
Proof.
  intros s Hs. unfold _save_locks, bind, table.
  destruct (tables s !! "meta_locks"); [|done]. by apply I_files.
Qed.

Ltac keep :=
  repeat first
    [ apply preserves_ret | apply preserves_raise | apply preserves_get
    | apply preserves_lift | apply preserves_from_option | apply preserves_table
    | apply (keeps_on_table I I_tables) | apply (keeps_load_database I I_tables)
    | apply (keeps_reload_locks I I_tables)
    | apply off_save_database | apply off__save_locks
    | apply (keeps_lock_owner I I_tables) | apply (keeps__update I I_tables)
    | apply preserves__get_insert_stack_for_table
    | apply preserves_calculate_tables_statistics
    | apply preserves_when
    | apply preserves_for_each; intros
    | apply preserves_try_except; [|intros]
    | apply preserves_bind; [|intros] ].





End IndexFiles.

Section StaleIndexes.
Context `{IndexStructures}.
Implicit Types (s : Database) (name : string).

End StaleIndexes.

(** ** Select through the indexes of a table *)

Section SelectIndexed.
Context `{IndexStructures}.
Implicit Types (s : Database) (d : list row) (name : string).

Lemma select_index_records name d :
  _select_where "*" (Some (eq_cond "table_name" name)) false None false None None None
    (indexes_table d)
  = Ok (indexes_table ((λ r, [cell 0 r; cell 1 r; cell 2 r; cell 3 r]) <$> records name d)).
Proof.
  unfold _select_where, candidate_rows, matching_positions. simpl.
  by rewrite rows_at_positions, satisfied_records.
Qed.

Lemma zip_index_columns (rs : list row) :
  zip (zip (cell 2 <$> ((λ r, [cell 0 r; cell 1 r; cell 2 r; cell 3 r]) <$> rs))
           (cell 1 <$> ((λ r, [cell 0 r; cell 1 r; cell 2 r; cell 3 r]) <$> rs)))
      (cell 3 <$> ((λ r, [cell 0 r; cell 1 r; cell 2 r; cell 3 r]) <$> rs))
  = (λ r, (cell 2 r, cell 1 r, cell 3 r)) <$> rs.
Proof.
  induction rs as [|r rs IH]; [done|]. rewrite !fmap_cons. cbn [zip_with].
  by rewrite IH.
Qed.

Lemma tables_reloaded s d n :
  n ≠ "meta_locks" →
  tables (loaded (remember_locks d (loaded s))) !! n = tables (loaded s) !! n.
Proof.
  intros Hne. rewrite (tables_loaded (remember_locks d (loaded s))).
  change (files (remember_locks d (loaded s))) with (files s).
  destruct (last _) as [f|] eqn:Hlast.
  - by rewrite (tables_loaded s), Hlast.
  - simpl. by rewrite lookup_insert_ne.
Qed.

Lemma select_rec_meta_indexes depth name s di :
  tables (loaded s) !! "meta_indexes" = Some (indexes_table di) →
  VStr "meta_indexes" ∉ cell 0 <$> di →
  select_rec (S depth) "*" (ByName "meta_indexes") (Some (eq_cond "table_name" name))
    false None None false None true s
  = (Ok (Some (indexes_table
                 ((λ r, [cell 0 r; cell 1 r; cell 2 r; cell 3 r]) <$> records name di))),
     loaded s).
Proof.
  intros Hmi Hnot. simpl. unfold bind at 1. rewrite load_database_run.
  unfold bind at 1, ret at 1.
  unfold bind at 1, _has_index, bind at 1. rewrite (table_ok _ _ _ Hmi).
  unfold bind at 1, lift at 1.
  change (column_by_name "table_name" (indexes_table di)) with (Ok (cell 0 <$> di)).
  cbv beta iota. unfold ret at 1. rewrite (bool_decide_eq_false_2 _ Hnot).
  cbv beta iota. unfold bind at 1. unfold bind at 1. rewrite (table_ok _ _ _ Hmi).
  unfold lift. by rewrite select_index_records.
Qed.

Lemma load_indexes_run (recs : list row) s es btree_list hash_list :
  mapM (index_of_record (index_files s)) recs = Some es →
  load_indexes ((λ r, (cell 2 r, cell 1 r, cell 3 r)) <$> recs) btree_list hash_list s
  = (Ok (btree_list ++ (fst <$> filter (λ e, e.2 = true) es),
         hash_list ++ (fst <$> filter (λ e, e.2 = false) es))%list, s).
Proof.
  intros Hes. apply mapM_Some in Hes. revert btree_list hash_list.
  induction Hes as [|r e recs es' He _ IH]; intros btree_list hash_list.
  - simpl. unfold ret. by rewrite !app_nil_r.
  - unfold index_of_record in He.
    destruct (cell 1 r) as [| |column|] eqn:Hc1; try discriminate.
    destruct (cell 2 r) as [| |index_name|] eqn:Hc2; try discriminate.
    apply bind_Some in He as (i & Hi & He). injection He as <-.
    rewrite fmap_cons. cbn [load_indexes]. rewrite Hc1, Hc2.
    unfold bind at 1, as_str at 1, ret at 1.
    unfold bind at 1, as_str at 1, ret at 1.
    unfold bind at 1, _load_idx. rewrite Hi.
    rewrite filter_cons. rewrite (filter_cons (λ e, e.2 = false)). simpl.
    destruct (decide (cell 3 r = VStr "btree")) as [Hty|Hty].
    + rewrite (bool_decide_eq_true_2 _ Hty).
      rewrite decide_True by done. rewrite decide_False by done.
      rewrite IH. rewrite fmap_cons. simpl.
      by rewrite <- app_assoc.
    + rewrite (bool_decide_eq_false_2 _ Hty).
      rewrite decide_False by done. rewrite decide_True by done.
      rewrite IH. rewrite fmap_cons. simpl.
      by rewrite <- app_assoc.
Qed.

(** X29. With a condition, on a table for which [meta_indexes] records
    an index, [select] reads the records of the table with a select of its
    own on [meta_indexes], loads the index file of every record, and hands
    them to [Table._select_where] keyed by their column: the B-trees in
    one dictionary, everything else in the other, either dictionary being
    [None] when it would be empty. *)
Theorem select_uses_indexes columns name c distinct order_by limit desc return_object
    s d t di es :
  Py.is_meta name = false →
  files s !! "meta_locks" = Some (locks_table d) →
  owner_of name d = None ∨ owner_of name d = Some (VInt (getpid s)) →
  tables (loaded s) !! name = Some t →
  tables (loaded s) !! "meta_indexes" = Some (indexes_table di) →
  VStr name ∈ cell 0 <$> di →
  VStr "meta_indexes" ∉ cell 0 <$> di →
  mapM (index_of_record (index_files s)) (records name di) = Some es →
  select columns (ByName name) (Some c) distinct order_by limit desc None return_object s
  = (match _select_where columns (Some c) distinct order_by desc limit
             (dict_of (fst <$> filter (λ e, e.2 = true) es))
             (dict_of (fst <$> filter (λ e, e.2 = false) es)) t with
     | Ok r => Ok (if return_object then Some r else None)
     | Raise e => Raise e
     end, loaded (remember_locks d (loaded s))).
Proof.
  intros Hmeta Hf Hown Ht Hmi Hin Hnot Hes.
  pose proof (not_meta_key name "meta_locks" Hmeta eq_refl) as Hne.
  unfold select. change recursion_limit with (S (S 998)).
  generalize 998%nat. intros depth. remember (S depth) as k eqn:Hk.
  cbn [select_rec]. unfold bind at 1. rewrite load_database_run.
  unfold bind at 1. rewrite (is_locked_free name s d Hmeta Hf Hown).
  set (s1 := remember_locks d (loaded s)).
  assert (tables s1 !! "meta_indexes" = Some (indexes_table di)) as Hmi1
    by (simpl; by rewrite lookup_insert_ne).
  unfold bind at 1, _has_index, bind at 1. rewrite (table_ok _ _ _ Hmi1).
  unfold bind at 1, lift at 1.
  change (column_by_name "table_name" (indexes_table di)) with (Ok (cell 0 <$> di)).
  cbv beta iota. unfold ret at 1. rewrite (bool_decide_eq_true_2 _ Hin).
  cbv beta iota.
  assert (tables (loaded s1) !! "meta_indexes" = Some (indexes_table di)) as Hmi2
    by (unfold s1; by rewrite tables_reloaded).
  assert (tables (loaded s1) !! name = Some t) as Ht2
    by (unfold s1; by rewrite tables_reloaded).
  unfold bind at 1. unfold bind at 1.
  subst k. rewrite (select_rec_meta_indexes depth name s1 di Hmi2 Hnot).
  unfold bind at 1, from_option, ret at 1.
  unfold bind at 1, lift at 1.
  change (column_by_name "index_name" (indexes_table ?x)) with (Ok (cell 2 <$> x)).
  cbv beta iota.
  unfold bind at 1, lift at 1.
  change (column_by_name "indexed_column" (indexes_table ?x)) with (Ok (cell 1 <$> x)).
  cbv beta iota.
  unfold bind at 1, lift at 1.
  change (column_by_name "index_type" (indexes_table ?x)) with (Ok (cell 3 <$> x)).
  cbv beta iota.
  rewrite zip_index_columns.
  unfold bind at 1.
  rewrite (load_indexes_run (records name di) (loaded s1) es [] [] Hes).
  cbn [fst snd app].
  unfold bind at 1. rewrite (table_ok _ _ _ Ht2). unfold lift.
  destruct (_select_where _ _ _ _ _ _ _ _ _); by destruct return_object.
Qed.
End SelectIndexed.

(** ** Freed positions *)

Section FreedPositions.
Context `{IndexStructures}.
Implicit Types (s : Database) (d : list row) (name : string).

(** X30. For a table that is not internal, that is registered under
    its own name and that has a record in [meta_insert_stack],
    [delete_from] pushes the positions of the deleted rows on the table's
    free-position stack and leaves tombstones at them; [insert_into],
    finding the stack not empty, writes the row at the position on top of
    the stack, which it removes from the stack, and appends no position. *)
Theorem freed_position_reused :
  (∀ name c s t dk dl ds old deleted,
     Py.is_meta name = false →
     tables (loaded s) !! name = Some t →
     _name t = name →
     files s !! "meta_locks" = Some (locks_table dk) →
     owner_of name dk = None ∨ owner_of name dk = Some (VInt (getpid s)) →
     tables (loaded s) !! "meta_length" = Some (length_table dl) →
     tables (loaded s) !! "meta_insert_stack" = Some (stack_table ds) →
     Forall (λ r : row, length r = 2%nat) ds →
     stack_of name ds = Some (VList old) →
     matching_positions t c = Ok deleted →
     ∃ s' ds',
       delete_from name c s = (Ok tt, s')
       ∧ tables s' !! name = Some (freed deleted t)
       ∧ tables s' !! "meta_insert_stack" = Some (stack_table ds')
       ∧ stack_of name ds' = Some (VList (old ++ deleted))
       ∧ tables s' ⊆ files s')
  ∧ (∀ name row_str s t dk dl ds stack p r,
       Py.is_meta name = false →
       tables (loaded s) !! name = Some t →
       files s !! "meta_locks" = Some (locks_table dk) →
       owner_of name dk = None ∨ owner_of name dk = Some (VInt (getpid s)) →
       tables (loaded s) !! "meta_length" = Some (length_table dl) →
       tables (loaded s) !! "meta_insert_stack" = Some (stack_table ds) →
       Forall (λ r : row, length r = 2%nat) ds →
       stack_of name ds = Some (VList (stack ++ [p])) →
       (p < length (data t))%nat →
       convert_row (column_types t) (VStr <$> Py.split "," (Py.strip row_str)) = Some r →
       violates t r (Some p) = false →
       ∃ s' ds',
         insert_into name row_str s = (Ok tt, s')
         ∧ tables s' !! name = Some (set_data (<[p := r]> (data t)) t)
         ∧ length (<[p := r]> (data t)) = length (data t)
         ∧ tables s' !! "meta_insert_stack" = Some (stack_table ds')
         ∧ stack_of name ds' = Some (VList stack)
         ∧ tables s' ⊆ files s').
Proof.
  split.
  - intros name c s t dk dl ds old deleted Hmeta Ht Hname Hf Howner Hl Hs Hwidth Hstack Hpos.
    destruct (delete_from_frees name c s t dk dl ds old deleted)
      as (s' & ds' & Hrun & Ht' & Hs' & _ & Hstack' & Hsaved & _); try done.
    by exists s', ds'.
  - intros name row_str s t dk dl ds stack p r Hmeta Ht Hf Howner Hl Hs Hwidth Hstack
      Hp Hconv Hviol.
    destruct (insert_into_reuses name row_str s t dk dl ds (stack ++ [p]) p r)
      as (s' & ds' & Hrun & Ht' & Hs' & _ & Hstack' & Hsaved & _); try done.
    { apply last_snoc. }
    exists s', ds'. rewrite removelast_last in Hstack'.
    repeat split; try done. apply length_insert.
Qed.
End FreedPositions.

(** * The further properties on concrete databases *)

Section ConcreteProperties.
#[local] Existing Instance entries_index.

Ltac compute_it := vm_compute; reflexivity.
Ltac decide_it :=
  lazymatch goal with |- ?P => apply (bool_decide_unpack P) end; vm_compute; exact I.

Lemma load_binds_before_dot_witness :
  tables (loaded db_dotted) !! loaded_name ("a.b" ++ ".pkl")
  = Some (mkTable "a.b" ["k"] [TInt] None None None []).
Proof.
  apply (load_binds_before_dot db_dotted "a.b").
  - compute_it.
  - apply (bool_decide_unpack
             (set_Forall (λ k', loaded_name (k' ++ ".pkl") = loaded_name ("a.b" ++ ".pkl")
                                → k' = "a.b")
                (dom (files db_dotted)))).
    vm_compute. exact I.
Defined.

Lemma load_keeps_dotted_name_witness :
  tables (loaded db_dotted) !! "a.b" = tables db_dotted !! "a.b".
Proof. apply (load_keeps_dotted_name db_dotted "a.b"). reflexivity. Defined.

Lemma save_then_load_witness :
  tables (loaded (exec save_database db_rows)) !! "t" = Some t_rows.
Proof.
  apply (save_then_load db_rows "t" t_rows).
  - compute_it.
  - apply (bool_decide_unpack
             (set_Forall (λ k, loaded_name (k ++ ".pkl") = "t" → k = "t")
                (dom (tables db_rows) ∪ dom (files db_rows)))).
    vm_compute. exact I.
  - reflexivity.
Defined.

Lemma lock_then_unlock_witness :
  (lock_table "t" "x" ;; unlock_table "t" false) db_rows = (Ok tt, persist_locks [] db_rows)
  ∧ files (persist_locks [] db_rows) = files db_rows.
Proof.
  apply (lock_then_unlock "t" db_rows []).
  - reflexivity.
  - decide_it.
  - compute_it.
  - reflexivity.
Defined.

Lemma lock_excludes_other_process_witness :
  (lock_table "t" "x" db_rows).1 = Ok (Some true)
  ∧ (lock_table "t" "x" (seen_by second_process (exec (lock_table "t" "x") db_rows))).1
    = Raise (Locked (VInt (getpid db_rows)))
  ∧ (lock_table "t" "x"
       (seen_by second_process
          (exec (lock_table "t" "x" ;; unlock_table "t" false) db_rows))).1
    = Ok (Some true).
Proof.
  apply (lock_excludes_other_process "t" db_rows second_process []).
  - reflexivity.
  - decide_it.
  - decide_it.
  - compute_it.
  - reflexivity.
  - decide_it.
Defined.

Lemma insert_into_appends_witness :
  ∃ s' ds',
    insert_into "t" "1,a" db_t = (Ok tt, s')
    ∧ tables s' !! "t" = Some (set_data (data t_empty ++ [[VInt 1; VStr "a"]]) t_empty)
    ∧ tables s' !! "meta_insert_stack" = Some (stack_table ds')
    ∧ stack_of "t" ds' = Some (VList [])
    ∧ tables s' ⊆ files s'
    ∧ files s' !! "meta_locks" = Some (locks_table []).
Proof.
  apply (insert_into_appends "t" "1,a" db_t t_empty [] [[VStr "t"; VInt 0]]
           [[VStr "t"; VList []]] [VInt 1; VStr "a"]).
  - reflexivity.
  - compute_it.
  - compute_it.
  - left. reflexivity.
  - compute_it.
  - compute_it.
  - decide_it.
  - reflexivity.
  - reflexivity.
  - reflexivity.
Defined.

Lemma insert_into_without_stack_witness :
  insert_into "meta_length" "u,1" db_t = (Raise IndexError, loaded db_t)
  ∧ (insert_into "a" "1" db_dotted).1 = Raise IndexError
  ∧ files (exec (insert_into "a" "1") db_dotted)
    = <["meta_locks" := locks_table ([] ++ [lock_record "a" (getpid db_dotted)])]>
        (files db_dotted).
Proof.
  split.
  - apply (insert_into_without_stack "meta_length" "u,1" db_t [[VStr "t"; VList []]]).
    + compute_it.
    + reflexivity.
    + reflexivity.
  - apply (insert_into_without_stack "a" "1" db_dotted
             [[VStr "t"; VList []]; [VStr "a.b"; VList []]]).
    + compute_it.
    + reflexivity.
    + reflexivity.
    + decide_it.
    + compute_it.
    + reflexivity.
Defined.

Lemma rejected_insert_restores_files_witness :
  (insert_into "t" "1,z" db_rows).1 = Raise ConstraintViolation
  ∧ files (exec (insert_into "t" "1,z") db_rows) = files db_rows.
Proof.
  apply (rejected_insert_restores_files "t" "1,z" db_rows t_rows [] [[VStr "t"; VList []]] []).
  - reflexivity.
  - compute_it.
  - compute_it.
  - left. reflexivity.
  - compute_it.
  - reflexivity.
  - compute_it.
Defined.

Lemma locked_table_refuses_writes_witness :
  ((run (Insert "t" "3,c") other_process).1 = Raise (Locked (VInt 5))
   ∧ files (exec (run (Insert "t" "3,c")) other_process) = files other_process)
  ∧ ((run (Update "t" "name" (Cond "id" OpEq (VInt 1))) other_process).1 = Raise ValueError
     ∧ files (exec (run (Update "t" "name" (Cond "id" OpEq (VInt 1)))) other_process)
       = files other_process).
Proof.
  split.
  - apply (locked_table_refuses_writes (Insert "t" "3,c") "t" other_process
             [lock_record "t" 5]).
    + reflexivity.
    + reflexivity.
    + decide_it.
    + compute_it.
    + reflexivity.
    + decide_it.
  - apply (locked_table_refuses_writes (Update "t" "name" (Cond "id" OpEq (VInt 1))) "t"
             other_process [lock_record "t" 5] (VInt 5)).
    + reflexivity.
    + reflexivity.
    + decide_it.
    + compute_it.
    + reflexivity.
    + decide_it.
Defined.

Lemma failed_step_keeps_lock_witness :
  (run (Cast "name" "t" "int") db_rows).1 = Raise SchemaMismatch
  ∧ files (exec (run (Cast "name" "t" "int")) db_rows)
    = <["meta_locks" := locks_table ([] ++ [lock_record "t" (getpid db_rows)])]>
        (files db_rows).
Proof.
  apply (failed_step_keeps_lock (Cast "name" "t" "int") "t" db_rows t_rows [] SchemaMismatch
           t_rows).
  - reflexivity.
  - reflexivity.
  - compute_it.
  - compute_it.
  - reflexivity.
  - compute_it.
Defined.

Lemma create_index_registers_witness :
  ∃ i s',
    create_index "t_id" "t" "id" "btree" db_rows = (Ok tt, s')
    ∧ tables s' !! "meta_indexes"
      = Some (indexes_table ([] ++ [[VStr "t"; VStr "id"; VStr "t_id"; VStr "btree"]]))
    ∧ tables s' ⊆ files s'
    ∧ (∀ key idx, (key, idx) ∈ index_entries i
                  ↔ [VInt 1; VInt 2] !! idx = Some key ∧ key ≠ VNone)
    ∧ _load_idx "t_id" s' = (Ok i, s')
    ∧ _has_index "t" (Some "id") s' = (Ok true, s')
    ∧ _has_index "t" None s' = (Ok true, s').
Proof.
  apply (create_index_registers "t_id" "t" "id" "btree" db_rows t_rows []).
  - compute_it.
  - decide_it.
  - decide_it.
  - left. split; [reflexivity|]. exists 0%nat. reflexivity.
  - compute_it.
  - decide_it.
  - decide_it.
  - reflexivity.
Defined.

Lemma failed_create_index_writes_nothing_witness :
  files (exec (create_index "t_name" "t" "name" "btree") db_rows) = files db_rows
  ∧ index_files (exec (create_index "t_name" "t" "name" "btree") db_rows)
    = index_files db_rows.
Proof.
  apply (failed_create_index_writes_nothing "t_name" "t" "name" "btree" db_rows TypeError).
  compute_it.
Defined.

Lemma view_name_used_once_witness :
  create_view "v" t_empty (exec (create_view "v" t_rows) db_rows)
  = (Raise (AttributeExists "v"),
     set_tables (<["v" := set_name "v" t_empty]>) (exec (create_view "v" t_rows) db_rows)).
Proof.
  apply (view_name_used_once "v" t_rows t_empty db_rows).
  compute_it.
Defined.

Lemma _update_gives_stacks_witness :
  ∃ s', _update db_rows = (Ok tt, s')
    ∧ (∀ k t, tables db_rows !! k = Some t → Py.is_meta (_name t) = false →
         ∃ v, _get_insert_stack_for_table (_name t) s' = (Ok v, s'))
    ∧ (∀ n v, _get_insert_stack_for_table n db_rows = (Ok v, db_rows) →
         _get_insert_stack_for_table n s' = (Ok v, s')).
Proof.
  apply (_update_gives_stacks db_rows [[VStr "t"; VInt 2]] [[VStr "t"; VList []]]).
  - compute_it.
  - compute_it.
Defined.

Lemma _update_counts_rows_witness :
  ∃ s' dl', _update db_rows = (Ok tt, s')
    ∧ tables s' !! "meta_length" = Some (length_table dl')
    ∧ length_of (_name t_rows) dl'
      = Some (VInt (Z.of_nat (length (filter (λ r, existsb truthy r = true) (data t_rows))))).
Proof.
  apply (_update_counts_rows db_rows [[VStr "t"; VInt 2]] [[VStr "t"; VList []]] "t" t_rows).
  - compute_it.
  - decide_it.
  - compute_it.
  - decide_it.
  - compute_it.
  - reflexivity.
Defined.

Lemma drop_table_removes_witness :
  tables (exec (drop_table "t") db_rows) !! "t" = None
  ∧ files (exec (drop_table "t") db_rows) !! "t" = None
  ∧ "t" ∉ attrs (exec (drop_table "t") db_rows).
Proof.
  apply (drop_table_removes "t" db_rows).
  - compute_it.
  - apply (bool_decide_unpack
             (set_Forall (λ k, k ≠ "t" → loaded_name (k ++ ".pkl") ≠ "t")
                (dom (tables db_rows) ∪ dom (files db_rows)))).
    vm_compute. exact I.
Defined.

Lemma drop_table_refused_witness :
  drop_table "t" other_process
  = (Raise (Locked (VInt 5)), remember_locks [lock_record "t" 5] (loaded other_process))
  ∧ drop_table "ghost" db_rows = (Raise (KeyError "ghost"), loaded db_rows).
Proof.
  split.
  - apply (proj1 (drop_table_refused "t" other_process) [lock_record "t" 5] (VInt 5)).
    + reflexivity.
    + decide_it.
    + compute_it.
    + reflexivity.
    + decide_it.
  - apply (proj2 (drop_table_refused "ghost" db_rows)). decide_it.
Defined.

Lemma drop_index_removes_witness :
  ∃ s', drop_index "t_id" db_indexed = (Ok tt, s')
    ∧ tables s' !! "meta_indexes"
      = Some (indexes_table
                (filter (λ r, cell 2 r ≠ VStr "t_id")
                   [[VStr "t"; VStr "id"; VStr "t_id"; VStr "btree"]]))
    ∧ index_files s' = delete "t_id" (index_files db_indexed)
    ∧ tables s' ⊆ files s'.
Proof.
  apply (drop_index_removes "t_id" db_indexed
           [[VStr "t"; VStr "id"; VStr "t_id"; VStr "btree"]]
           [[VStr "t"; VStr "id"; VStr "t_id"; VStr "btree"]]
           [[VStr "t"; VInt 2]] [[VStr "t"; VList []]]).
  - compute_it.
  - decide_it.
  - compute_it.
  - compute_it.
  - compute_it.
Defined.

Lemma row_operation_succeeds_witness :
  ∃ s', run (Update "t" "name=z" (Cond "id" OpEq (VInt 1))) db_rows = (Ok tt, s')
    ∧ tables s' !! "t" = Some (set_data [[VInt 1; VStr "z"]; [VInt 2; VStr "b"]] t_rows)
    ∧ tables s' ⊆ files s'
    ∧ files s' !! "meta_locks" = Some (locks_table []).
Proof.
  apply (row_operation_succeeds (Update "t" "name=z" (Cond "id" OpEq (VInt 1))) "t" db_rows
           t_rows [] [[VStr "t"; VInt 2]] [[VStr "t"; VList []]] []).
  - reflexivity.
  - reflexivity.
  - compute_it.
  - compute_it.
  - left. reflexivity.
  - compute_it.
  - compute_it.
  - reflexivity.
  - compute_it.
Defined.

Lemma reads_refused_witness :
  select "*" (ByName "t") None false None None false None false other_process
  = (Raise (Locked (VInt 5)), remember_locks [lock_record "t" 5] (loaded other_process))
  ∧ show_table "t" other_process
    = (Raise (Locked (VInt 5)), remember_locks [lock_record "t" 5] (loaded other_process)).
Proof.
  destruct (reads_refused "t" other_process [lock_record "t" 5] (VInt 5))
    as [Hselect Hshow].
  - reflexivity.
  - compute_it.
  - reflexivity.
  - decide_it.
  - split; [apply Hselect|apply Hshow; decide_it].
Defined.

Lemma create_table_registers_witness :
  (∃ s',
     create_table "u" "k" "int" None None db_t = (Ok tt, s')
     ∧ tables s' !! "u" = Some (mkTable "u" ["k"] [TInt] None None None [])
     ∧ files s' !! "u" = Some (mkTable "u" ["k"] [TInt] None None None [])
     ∧ data (mkTable "u" ["k"] [TInt] None None None []) = []
     ∧ _get_insert_stack_for_table "u" s'
       = (Ok (default (VList []) (stack_of "u" [[VStr "t"; VList []]])), s'))
  ∧ ∃ e s',
      create_table "u" "k" "int" None None db_copied = (Raise e, s')
      ∧ files s' = files db_copied.
Proof.
  split.
  - refine (proj1 (create_table_registers "u" "k" "int" None None db_t
                     (mkTable "u" ["k"] [TInt] None None None []) [[VStr "t"; VInt 0]]
                     [[VStr "t"; VList []]] _ _ _ _) _).
    + reflexivity.
    + reflexivity.
    + compute_it.
    + compute_it.
    + apply (bool_decide_unpack
               (map_Forall (λ k t, Py.is_meta k = false → k ≠ "u" → counted t = true)
                  (tables db_t))).
      vm_compute. exact I.
  - refine (proj2 (create_table_registers "u" "k" "int" None None db_copied
                     (mkTable "u" ["k"] [TInt] None None None [])
                     [[VStr "t"; VInt 0]; [VStr "copy"; VInt 1]]
                     [[VStr "t"; VList []]; [VStr "copy"; VList []]] _ _ _ _)
              "copy" (mkTable "copy" ["table_name"; "indexes"] [TStr; TList] None None None
                        [[VStr "t"; VList []]]) _ _ _ _).
    + reflexivity.
    + reflexivity.
    + compute_it.
    + compute_it.
    + compute_it.
    + reflexivity.
    + discriminate.
    + reflexivity.
Defined.

Lemma import_table_imports_witness :
  import_table "u" [] (Some "int,str") None db_t
  = (Raise (UnboundLocalError "lock_ownership"), db_t)
  ∧ ∃ s', import_table "u" csv_lines (Some "int,str") None db_t = (Raise SchemaMismatch, s')
      ∧ files s' !! "u" = Some (mkTable "u" ["k"; "v"] [TInt; TStr] None None None [])
      ∧ files s' !! "meta_locks"
        = Some (locks_table ([] ++ [lock_record "u" (getpid db_t)])).
Proof.
  apply (import_table_imports "u" ("k,v" ++ String newline "")
           ["1,a" ++ String newline ""; "x,b" ++ String newline ""] (Some "int,str") None db_t
           (mkTable "u" ["k"; "v"] [TInt; TStr] None None None []) []
           [[VStr "t"; VInt 0]] [[VStr "t"; VList []]]).
  - reflexivity.
  - compute_it.
  - compute_it.
  - compute_it.
  - compute_it.
  - reflexivity.
  - apply (bool_decide_unpack
             (map_Forall (λ k t, Py.is_meta k = false → k ≠ "u" → counted t = true)
                (tables db_t))).
    vm_compute. exact I.
Defined.

Lemma select_returns_witness :
  select "name" (ByName "t") (Some (Cond "id" OpEq (VInt 2))) false None None false None true
    db_rows
  = (match _select_where "name" (Some (Cond "id" OpEq (VInt 2))) false None false None
             None None t_rows with
     | Ok r => Ok (if true then Some r else None)
     | Raise e => Raise e
     end, remember_locks [] (loaded db_rows)).
Proof.
  apply (select_returns "name" "t" (Some (Cond "id" OpEq (VInt 2))) false None None false true
           db_rows [] t_rows (indexes_table []) []).
  - reflexivity.
  - compute_it.
  - left. reflexivity.
  - compute_it.
  - compute_it.
  - reflexivity.
  - right. decide_it.
Defined.


Lemma select_uses_indexes_witness :
  select "name" (ByName "t") (Some (Cond "id" OpEq (VInt 2))) false None None false None true
    db_indexed
  = (match _select_where "name" (Some (Cond "id" OpEq (VInt 2))) false None false None
             (dict_of (fst <$> filter (λ e, e.2 = true)
                                 [("id", [(VInt 2, 1%nat); (VInt 1, 0%nat)], true)]))
             (dict_of (fst <$> filter (λ e, e.2 = false)
                                 [("id", [(VInt 2, 1%nat); (VInt 1, 0%nat)], true)]))
             t_rows with
     | Ok r => Ok (if true then Some r else None)
     | Raise e => Raise e
     end, loaded (remember_locks [] (loaded db_indexed))).
Proof.
  apply (select_uses_indexes "name" "t" (Cond "id" OpEq (VInt 2)) false None None false true
           db_indexed [] t_rows [[VStr "t"; VStr "id"; VStr "t_id"; VStr "btree"]]
           [("id", [(VInt 2, 1%nat); (VInt 1, 0%nat)], true)]).
  - reflexivity.
  - compute_it.
  - left. reflexivity.
  - compute_it.
  - compute_it.
  - decide_it.
  - decide_it.
  - compute_it.
Defined.
Lemma freed_position_reused_witness :
  (delete_from "t" (Cond "id" OpEq (VInt 1)) db_rows).1 = Ok tt
  ∧ (insert_into "t" "3,c" db_deleted).1 = Ok tt.
Proof.
  destruct freed_position_reused as [Hdelete Hinsert]. split.
  - destruct (Hdelete "t" (Cond "id" OpEq (VInt 1)) db_rows t_rows []
                [[VStr "t"; VInt 2]] [[VStr "t"; VList []]] [] [0%nat])
      as (s' & ds' & Hrun & _).
    + reflexivity.
    + compute_it.
    + reflexivity.
    + compute_it.
    + left. reflexivity.
    + compute_it.
    + compute_it.
    + decide_it.
    + reflexivity.
    + reflexivity.
    + rewrite Hrun. reflexivity.
  - destruct (Hinsert "t" "3,c" db_deleted t_deleted []
                [[VStr "t"; VInt 1]] [[VStr "t"; VList [0%nat]]] [] 0%nat
                [VInt 3; VStr "c"])
      as (s' & ds' & Hrun & _).
    + reflexivity.
    + compute_it.
    + compute_it.
    + left. reflexivity.
    + compute_it.
    + compute_it.
    + decide_it.
    + reflexivity.
    + simpl. lia.
    + reflexivity.
    + reflexivity.
    + rewrite Hrun. reflexivity.
Defined.

End ConcreteProperties.
